(** * Nepal location sync: PostgreSQL rows to Elasticsearch documents

    A shallow embedding of [scripts/sync_to_elasticsearch.py] (class
    [LocationSyncer]) and the properties of its document builders, of the
    administrative hierarchy resolver and of the top-level run.

    Conventions.
    - A Python value is a [pyval]; a [RealDictRow], a document body and the
      hierarchy dictionary are finite maps from column/field names to
      [pyval] ([gmap string pyval]).
    - Python [str] is [string], holding the UTF-8 text of the value; its
      characters are its code points ([chars]).  The regular expression
      class [\d] and [int] read the decimal digits of every script.
    - Python [int] is [Z]; Python [float] is the kernel's binary64 [float].
    - A raised exception is the [Raise] case of [result]; code that logs,
      reads the store or writes the index passes a [world] along. *)

From Stdlib Require Import ZArith String Ascii List Bool Lia DecimalString DecimalZ.
From Stdlib Require Import Floats.PrimFloat.
From stdpp Require Import gmap strings list.

Local Set Warnings "-register-all,-inexact-float,-abstract-large-number".
Local Open Scope Z_scope.

(** ** Python values *)

Inductive pyval : Type :=
| PNone
| PBool (b : bool)
| PInt (z : Z)
| PFloat (f : float)
| PStr (s : string)
| PList (l : list pyval)
| PDict (d : list (string * pyval)).

(** [bool(v)]: the truth test behind [if v], [v or w] and [filter(None, _)]. *)
Definition truthy (v : pyval) : bool :=
  match v with
  | PNone => false
  | PBool b => b
  | PInt z => negb (z =? 0)
  | PFloat f => negb (PrimFloat.eqb f 0%float)
  | PStr s => match s with EmptyString => false | _ => true end
  | PList l => match l with [] => false | _ => true end
  | PDict d => match d with [] => false | _ => true end
  end.

(** [v == w] on the values that reach a comparison in this program: the
    compared columns are [place_type] (text) and [admin_level] (integer),
    against string and integer literals.  [bool] is a subtype of [int]. *)
Definition py_eq (v w : pyval) : bool :=
  match v, w with
  | PNone, PNone => true
  | PStr a, PStr b => String.eqb a b
  | PInt a, PInt b => a =? b
  | PBool a, PBool b => Bool.eqb a b
  | PBool a, PInt b | PInt b, PBool a => (if a then 1 else 0) =? b
  | PFloat a, PFloat b => PrimFloat.eqb a b
  | _, _ => false
  end.

(** [v in [w1, ..., wn]] *)
Definition py_in (v : pyval) (ws : list pyval) : bool :=
  existsb (py_eq v) ws.

(** [v or w] *)
Definition py_or (v w : pyval) : pyval := if truthy v then v else w.

(** [d.get(k)] and [d.get(k, default)] on a dictionary. *)
Definition get (d : gmap string pyval) (k : string) : pyval :=
  default PNone (d !! k).

Definition get_or (d : gmap string pyval) (k : string) (dflt : pyval) : pyval :=
  default dflt (d !! k).

(** ** Exceptions *)

Inductive exn : Type :=
| TypeError
| KeyError (k : string)
| AttributeError
| ValueError
| FileNotFoundError
| JSONDecodeError
| OperationalError        (* psycopg2: the server cannot be reached *)
| InternalError           (* psycopg2: the server rejected the statement *)
| InterfaceError          (* psycopg2: the connection is closed *)
| SystemExit (code : Z).

Inductive result (A : Type) : Type :=
| Ok (a : A)
| Raise (e : exn).
Arguments Ok {A} a.
Arguments Raise {A} e.

Definition rbind {A B} (r : result A) (k : A -> result B) : result B :=
  match r with
  | Ok a => k a
  | Raise e => Raise e
  end.

Notation "'let*' x := r 'in' k" := (rbind r (fun x => k))
  (at level 10, x name, r at level 100, k at level 200, only parsing).

(** [d[k]] *)
Definition getitem (d : gmap string pyval) (k : string) : result pyval :=
  match d !! k with
  | Some v => Ok v
  | None => Raise (KeyError k)
  end.

(** ** Characters of a [str]

    A [str] is kept as its UTF-8 text.  One character (one code point) is
    a lead byte with the continuation bytes that follow it, at most as
    many as the lead byte announces; [list(s)] is [chars s] and
    [''.join(cs)] is [text cs]. *)

Definition is_continuation (b : ascii) : bool :=
  ((128 <=? N_of_ascii b) && (N_of_ascii b <? 192))%N.

(** The number of continuation bytes a lead byte announces. *)
Definition continuation_count (b : ascii) : nat :=
  let n := N_of_ascii b in
  if (n <? 192)%N then 0%nat
  else if (n <? 224)%N then 1%nat
  else if (n <? 240)%N then 2%nat
  else 3%nat.

(** At most [n] continuation bytes from the front of [s], and the rest. *)
Fixpoint span_continuation (n : nat) (s : string) : string * string :=
  match n, s with
  | S n', String b s' =>
      if is_continuation b
      then let (t, r) := span_continuation n' s' in (String b t, r)
      else (EmptyString, s)
  | _, _ => (EmptyString, s)
  end.

(** The first [fuel] characters of [s]. *)
Fixpoint chars_upto (fuel : nat) (s : string) : list string :=
  match fuel, s with
  | S fuel', String b s' =>
      let (t, r) := span_continuation (continuation_count b) s' in
      String b t :: chars_upto fuel' r
  | _, _ => []
  end.

(** A character takes at least one byte, so [s] has no more characters
    than bytes. *)
Definition chars (s : string) : list string :=
  chars_upto (String.length s) s.

Definition text (cs : list string) : string :=
  fold_right String.append EmptyString cs.

(** [chr(cp)] in UTF-8. *)
Definition utf8 (cp : N) : string :=
  let byte (n : N) := String (ascii_of_N n) in
  (if cp <? 0x80 then byte cp EmptyString
   else if cp <? 0x800 then
     byte (0xC0 + cp / 0x40) (byte (0x80 + cp mod 0x40) EmptyString)
   else if cp <? 0x10000 then
     byte (0xE0 + cp / 0x1000)
       (byte (0x80 + (cp / 0x40) mod 0x40)
          (byte (0x80 + cp mod 0x40) EmptyString))
   else
     byte (0xF0 + cp / 0x40000)
       (byte (0x80 + (cp / 0x1000) mod 0x40)
          (byte (0x80 + (cp / 0x40) mod 0x40)
             (byte (0x80 + cp mod 0x40) EmptyString))))%N.

(** [ord(c)] of a character, [None] for bytes that encode no code point. *)
Definition code_point (c : string) : option N :=
  let cp :=
    match N_of_ascii <$> list_ascii_of_string c with
    | [b0] => b0
    | [b0; b1] => (b0 - 0xC0) * 0x40 + (b1 - 0x80)
    | [b0; b1; b2] => (b0 - 0xE0) * 0x1000 + (b1 - 0x80) * 0x40 + (b2 - 0x80)
    | [b0; b1; b2; b3] =>
        (b0 - 0xF0) * 0x40000 + (b1 - 0x80) * 0x1000
        + (b2 - 0x80) * 0x40 + (b3 - 0x80)
    | _ => 0
    end%N in
  if String.eqb (utf8 cp) c then Some cp else None.

(** The code points of the characters DIGIT ZERO of Unicode 14.0, one for
    each run of decimal digits (general category Nd); the nine code points
    after a zero are its digits one to nine. *)
Definition decimal_zeros : list N :=
  [ 0x0030; 0x0660; 0x06F0; 0x07C0; 0x0966; 0x09E6; 0x0A66; 0x0AE6;
    0x0B66; 0x0BE6; 0x0C66; 0x0CE6; 0x0D66; 0x0DE6; 0x0E50; 0x0ED0;
    0x0F20; 0x1040; 0x1090; 0x17E0; 0x1810; 0x1946; 0x19D0; 0x1A80;
    0x1A90; 0x1B50; 0x1BB0; 0x1C40; 0x1C50; 0xA620; 0xA8D0; 0xA900;
    0xA9D0; 0xA9F0; 0xAA50; 0xABF0; 0xFF10; 0x104A0; 0x10D30; 0x11066;
    0x110F0; 0x11136; 0x111D0; 0x112F0; 0x11450; 0x114D0; 0x11650;
    0x116C0; 0x11730; 0x118E0; 0x11950; 0x11C50; 0x11D50; 0x11DA0;
    0x16A60; 0x16AC0; 0x16B50; 0x1D7CE; 0x1D7D8; 0x1D7E2; 0x1D7EC;
    0x1D7F6; 0x1E140; 0x1E2F0; 0x1E950; 0x1FBF0 ]%N.

(** [unicodedata.decimal(c, None)]: the value of a decimal digit. *)
Definition decimal (c : string) : option Z :=
  match code_point c with
  | Some cp =>
      match List.find (fun z => (z <=? cp) && (cp <? z + 10))%N decimal_zeros with
      | Some z => Some (Z.of_N (cp - z))
      | None => None
      end
  | None => None
  end.

(** ** Regular expressions: the fragment of [re] the program uses

    A pattern is the instruction list [sre_compile] produces for it: marks
    open and close the groups (group [g] lies between marks [2g-2] and
    [2g-1]), a greedy repeat tries the longest run first and gives
    characters back one at a time.  The subject is a [str], so the
    engine steps over its characters and positions count characters. *)

Module Re.

Inductive charset : Type :=
| ANY                       (* [.] without DOTALL: any character but newline *)
| CATEGORY_DIGIT            (* [\d]: any Unicode decimal digit *)
| LITERAL (c : ascii).

Inductive instr : Type :=
| AT_BEGINNING              (* [^] *)
| AT_END                    (* [$] without MULTILINE *)
| MARK (n : nat)
| IN (cs : charset)         (* one character of the set *)
| MAX_REPEAT_1 (cs : charset).   (* [cs+], greedy *)

Definition newline : ascii := "010"%char.

Definition is_digit (c : string) : bool :=
  match decimal c with Some _ => true | None => false end.

Definition charset_has (cs : charset) (c : string) : bool :=
  match cs with
  | ANY => negb (String.eqb c (String newline EmptyString))
  | CATEGORY_DIGIT => is_digit c
  | LITERAL a => String.eqb c (String a EmptyString)
  end.

(** [$] matches at the end of the subject and before a newline that ends it. *)
Definition at_end (rest : list string) : bool :=
  match rest with
  | [] => true
  | [c] => String.eqb c (String newline EmptyString)
  | _ => false
  end.

Definition marks := list (nat * nat).

Section Engine.
(** What is left of the pattern, as a function of the position, the rest
    of the subject and the marks set so far. *)
Variable k : nat -> list string -> marks -> option marks.
Variable cs : charset.

Fixpoint repeat_greedy (pos : nat) (rest : list string) (mk : marks) : option marks :=
  match rest with
  | c :: rest' =>
      if charset_has cs c then
        match repeat_greedy (S pos) rest' mk with
        | Some m => Some m
        | None => k pos rest mk
        end
      else k pos rest mk
  | [] => k pos rest mk
  end.
End Engine.

Fixpoint exec (prog : list instr) : nat -> list string -> marks -> option marks :=
  match prog with
  | [] => fun _ _ mk => Some mk
  | i :: prog' =>
      let k := exec prog' in
      match i with
      | AT_BEGINNING => fun pos rest mk =>
          if Nat.eqb pos 0 then k pos rest mk else None
      | AT_END => fun pos rest mk =>
          if at_end rest then k pos rest mk else None
      | MARK n => fun pos rest mk => k pos rest ((n, pos) :: mk)
      | IN cs => fun pos rest mk =>
          match rest with
          | c :: rest' =>
              if charset_has cs c then k (S pos) rest' mk else None
          | [] => None
          end
      | MAX_REPEAT_1 cs => fun pos rest mk =>
          match rest with
          | c :: rest' =>
              if charset_has cs c then repeat_greedy k cs (S pos) rest' mk
              else None
          | [] => None
          end
      end
  end.

(** A match object: the characters of the subject and the marks of the
    successful attempt. *)
Record match_object : Type := { subject : list string; spans : marks }.

(** [re.match(pattern, s)]: an attempt at position 0 only. *)
Definition re_match (prog : list instr) (s : string) : option match_object :=
  match exec prog 0%nat (chars s) [] with
  | Some mk => Some {| subject := chars s; spans := mk |}
  | None => None
  end.

Fixpoint mark_pos (mk : marks) (n : nat) : nat :=
  match mk with
  | [] => 0%nat
  | (n', p) :: mk' => if Nat.eqb n n' then p else mark_pos mk' n
  end.

(** [m.group(g)] for a group that took part in the match. *)
Definition group (m : match_object) (g : nat) : string :=
  let b := mark_pos (spans m) (2 * g - 2) in
  let e := mark_pos (spans m) (2 * g - 1) in
  text (take (e - b) (drop b (subject m))).

End Re.

(** [r'^(.+)-(\d+)$'] *)
Definition ward_pattern : list Re.instr :=
  [ Re.AT_BEGINNING;
    Re.MARK 0; Re.MAX_REPEAT_1 Re.ANY; Re.MARK 1;
    Re.IN (Re.LITERAL "-");
    Re.MARK 2; Re.MAX_REPEAT_1 Re.CATEGORY_DIGIT; Re.MARK 3;
    Re.AT_END ].

(** [sys.get_int_max_str_digits()]: the default of CPython 3.11 and later
    (and of the security releases of 3.7 to 3.10); the program does not
    change it. *)
Definition int_max_str_digits : nat := 4300.

(** [int(s)] on a string of decimal digits of any script: [ValueError]
    when the digits are more than [int_max_str_digits].  Any other string
    is reported as [ValueError]; a sign, surrounding blanks or
    underscores, which Python also reads, never occur in a [\d+] group. *)
Fixpoint int_digits (cs : list string) (acc : Z) : option Z :=
  match cs with
  | [] => Some acc
  | c :: cs' =>
      match decimal c with
      | Some v => int_digits cs' (10 * acc + v)
      | None => None
      end
  end.

Definition py_int (s : string) : result Z :=
  match chars s with
  | [] => Raise ValueError
  | cs =>
      if (int_max_str_digits <? length cs)%nat then Raise ValueError
      else match int_digits cs 0 with
           | Some z => Ok z
           | None => Raise ValueError
           end
  end.

(** ** String helpers *)

(** [sep.join(items)]: every item must be a [str]. *)
Fixpoint str_join (sep : string) (items : list pyval) : result string :=
  match items with
  | [] => Ok EmptyString
  | PStr s :: items' =>
      match items' with
      | [] => Ok s
      | _ => rbind (str_join sep items') (fun r => Ok (s +:+ sep +:+ r))
      end
  | _ :: _ => Raise TypeError
  end.

(** [id::text] for an integer key: PostgreSQL's decimal rendering. *)
Definition id_text (id : Z) : string :=
  DecimalString.NilZero.string_of_int (Z.to_int id).

(** ** Logging *)

Inductive entity : Type := Places | AdminBoundaries | Poi | Roads.

Inductive level : Type := INFO | WARNING | ERROR.

(** The messages of the program, with the values their f-strings print
    (for [Synced], the number of documents written and of errors reported). *)
Inductive message : Type :=
| Connected
| ConnectFailed (e : exn)
| MappingNotFound (path : option string)
| IndexExists
| CreatedIndex
| Synced (what : entity) (success failed : nat)
| ParentAdminFailed (e : exn)
| Starting
| Completed (total places admin poi roads : nat)
| SyncFailed (e : exn).

Definition log_record : Type := level * message.

(** ** Code that acts on a state and may raise *)

Definition M (S A : Type) : Type := S -> result A * S.

Definition ret {S A} (a : A) : M S A := fun w => (Ok a, w).

Definition raise {S A} (e : exn) : M S A := fun w => (Raise e, w).

Definition bind {S A B} (m : M S A) (k : A -> M S B) : M S B :=
  fun w =>
    match m w with
    | (Ok a, w') => k a w'
    | (Raise e, w') => (Raise e, w')
    end.

Definition lift {S A} (r : result A) : M S A := fun w => (r, w).

Definition gets {S A} (f : S -> A) : M S A := fun w => (Ok (f w), w).

Definition modify {S} (f : S -> S) : M S unit := fun w => (Ok tt, f w).

(** [except Exception]: [SystemExit] is not an [Exception]. *)
Definition is_Exception (e : exn) : bool :=
  match e with SystemExit _ => false | _ => true end.

(** [try: m  except Exception as e: handler e] *)
Definition try_except {S A} (m : M S A) (handler : exn -> M S A) : M S A :=
  fun w =>
    match m w with
    | (Raise e, w') =>
        if is_Exception e then handler e w' else (Raise e, w')
    | r => r
    end.

(** [try: m  finally: f] *)
Definition try_finally {S A} (m : M S A) (f : M S unit) : M S A :=
  fun w =>
    match m w with
    | (r, w') =>
        match f w' with
        | (Ok _, w'') => (r, w'')
        | (Raise e, w'') => (Raise e, w'')
        end
    end.

Notation "'do' x <- m ; k" := (bind m (fun x => k))
  (at level 10, x name, m at level 100, k at level 200, only parsing).
Notation "'do' ' pat <- m ; k" := (bind m (fun x => match x with pat => k end))
  (at level 10, pat pattern, m at level 100, k at level 200, only parsing).
Notation "m ;; k" := (bind m (fun _ => k))
  (at level 100, k at level 200, right associativity, only parsing).

(** ** The collaborators: PostGIS, [json] and the index's verdict on a document *)

Class Collaborators : Type := {
  (** a point geometry ([places.geom], [poi.geom], [admin_boundaries.centroid]) *)
  point : Type;
  (** a polygon geometry ([admin_boundaries.geom]) *)
  polygon : Type;
  (** [ST_X(ST_Transform(g, 4326))] and [ST_Y(ST_Transform(g, 4326))] *)
  ST_X : point -> float;
  ST_Y : point -> float;
  (** [ST_AsText(ST_Transform(g, 4326))] *)
  ST_AsText : point -> string;
  (** [ST_GeomFromText(wkt, 4326)]; [None] when the server rejects the text *)
  ST_GeomFromText : string -> option point;
  (** [ST_Contains(polygon, point)], both taken in one reference system *)
  ST_Contains : polygon -> point -> bool;
  (** [json.loads]; [None] when it raises [JSONDecodeError] *)
  json_loads : string -> option pyval;
  (** whether the index, created with a mapping, takes a document body *)
  index_accepts : pyval -> gmap string pyval -> bool
}.

Section Syncer.
Context `{Collaborators}.

(** ** The relational source: the tables of schema [normalized] *)

Record place : Type := {
  pl_id : Z;
  pl_name : option string;
  pl_name_ne : option string;
  pl_place_type : option string;
  pl_admin_level : option Z;
  pl_geom : option point;
  pl_ward : option Z;
  pl_municipality : option string;
  pl_district : option string;
  pl_province : option string;
  (** as psycopg2 hands it over: [None], a [str] or a [dict] *)
  pl_tags : pyval
}.

Record admin_boundary : Type := {
  ab_id : Z;
  ab_name : option string;
  ab_name_ne : option string;
  ab_admin_level : option Z;
  ab_boundary_type : option string;
  ab_geom : option polygon;
  ab_centroid : option point;
  ab_tags : pyval
}.

Record poi : Type := {
  poi_id : Z;
  poi_name : option string;
  poi_geom : option point;
  poi_tags : pyval
}.

Record named_road : Type := {
  rd_id : Z;
  rd_name : option string;
  rd_tags : pyval
}.

Record database : Type := {
  places : list place;
  admin_boundaries : list admin_boundary;
  pois : list poi;
  named_roads : list named_road
}.

(** SQL values as psycopg2 adapts them; [NULL] is [None]. *)
Definition sql_text (o : option string) : pyval := from_option PStr PNone o.
Definition sql_int (o : option Z) : pyval := from_option PInt PNone o.
Definition sql_float (o : option float) : pyval := from_option PFloat PNone o.

(** The rows of the four extraction queries ([RealDictCursor]). *)
Definition place_row (p : place) : gmap string pyval :=
  list_to_map
    [ ("doc_id", PStr ("place_" +:+ id_text (pl_id p)));
      ("entity_type", PStr "place");
      ("name", sql_text (pl_name p));
      ("name_ne", sql_text (pl_name_ne p));
      ("place_type", sql_text (pl_place_type p));
      ("admin_level", sql_int (pl_admin_level p));
      ("lat", sql_float (ST_Y <$> pl_geom p));
      ("lon", sql_float (ST_X <$> pl_geom p));
      ("ward", sql_int (pl_ward p));
      ("municipality", sql_text (pl_municipality p));
      ("district", sql_text (pl_district p));
      ("province", sql_text (pl_province p));
      ("tags", pl_tags p) ].

Definition admin_row (a : admin_boundary) : gmap string pyval :=
  list_to_map
    [ ("doc_id", PStr ("admin_" +:+ id_text (ab_id a)));
      ("entity_type", PStr "admin_boundary");
      ("name", sql_text (ab_name a));
      ("name_ne", sql_text (ab_name_ne a));
      ("admin_level", sql_int (ab_admin_level a));
      ("boundary_type", sql_text (ab_boundary_type a));
      ("lat", sql_float (ST_Y <$> ab_centroid a));
      ("lon", sql_float (ST_X <$> ab_centroid a));
      ("centroid", sql_text (ST_AsText <$> ab_centroid a));
      ("tags", ab_tags a) ].

Definition poi_row (p : poi) : gmap string pyval :=
  list_to_map
    [ ("doc_id", PStr ("poi_" +:+ id_text (poi_id p)));
      ("entity_type", PStr "poi");
      ("name", sql_text (poi_name p));
      ("lat", sql_float (ST_Y <$> poi_geom p));
      ("lon", sql_float (ST_X <$> poi_geom p));
      ("tags", poi_tags p) ].

Definition road_row (r : named_road) : gmap string pyval :=
  list_to_map
    [ ("doc_id", PStr ("road_" +:+ id_text (rd_id r)));
      ("entity_type", PStr "road");
      ("name", sql_text (rd_name r));
      ("tags", rd_tags r) ].

(** [admin_level IN (4, 6, 7, 9)]: a [NULL] level is not in the list. *)
Definition synced_level (l : option Z) : bool :=
  match l with
  | Some z => (z =? 4) || (z =? 6) || (z =? 7) || (z =? 9)
  | None => false
  end.

Definition places_query (db : database) : list (gmap string pyval) :=
  place_row <$> filter (fun p => is_Some (pl_name p)) (places db).

Definition admin_query (db : database) : list (gmap string pyval) :=
  admin_row <$>
    filter (fun a => is_Some (ab_name a) ∧ synced_level (ab_admin_level a) = true)
           (admin_boundaries db).

(** [LIMIT n] keeps the first [n] rows of the order the server produced. *)
Definition poi_query (db : database) : list (gmap string pyval) :=
  poi_row <$> take 50000 (filter (fun p => is_Some (poi_name p)) (pois db)).

Definition roads_query (db : database) : list (gmap string pyval) :=
  road_row <$> take 10000 (filter (fun r => is_Some (rd_name r)) (named_roads db)).

(** [a.admin_level = n] and [ST_Contains(a.geom, pt)]; a comparison with
    [NULL] does not hold. *)
Definition level_is (n : Z) (a : admin_boundary) : bool :=
  match ab_admin_level a with Some z => z =? n | None => false end.

Definition contains_point (pt : point) (a : admin_boundary) : bool :=
  match ab_geom a with Some g => ST_Contains g pt | None => false end.

Definition parent_row (d p : admin_boundary) : gmap string pyval :=
  list_to_map
    [ ("district", sql_text (ab_name d));
      ("district_ne", sql_text (ab_name_ne d));
      ("province", sql_text (ab_name p));
      ("province_ne", sql_text (ab_name_ne p)) ].

(** The cross join of [_get_parent_admin]: district rows [d] and province
    rows [p] whose polygons contain the point, [LIMIT 1].  The order of a
    join without ORDER BY is the server's; here [d] is the outer loop.  A
    text the server cannot read fails the statement. *)
Definition parent_query (db : database) (wkt : string)
  : result (list (gmap string pyval)) :=
  match ST_GeomFromText wkt with
  | None => Raise InternalError
  | Some pt =>
      Ok (take 1
            (d ← filter (fun d => level_is 6 d && contains_point pt d = true)
                        (admin_boundaries db);
             p ← filter (fun p => level_is 4 p && contains_point pt p = true)
                        (admin_boundaries db);
             [parent_row d p]))
  end.

(** ** The world a run acts on *)

(** A document as [helpers.bulk] receives it. *)
Record document : Type := {
  _index : string;
  _id : pyval;
  _source : gmap string pyval
}.

(** The target index: the mapping it was created with and the documents
    written to it, oldest first. *)
Record es_index : Type := {
  ix_mapping : pyval;
  ix_docs : list document
}.

(** [self.conn] once made: open or closed.  An open connection is one that
    carries out the statements it is given.  psycopg2 leaves a connection
    whose statement the server rejected in a failed transaction, where
    every later statement fails until a rollback, and the program issues
    none: that state has no counterpart here, so of a run in which the
    server rejects a statement only what does not rest on the connection
    afterwards is stated. *)
Inductive connection : Type := ConnOpen | ConnClosed.

Record world : Type := {
  (** configuration read from the environment, and where the script lives *)
  w_es_index : string;
  (** [os.path.join(os.path.dirname(__file__), '..', 'elasticsearch',
      'mappings', 'nepal_locations.json')] *)
  w_local_mapping : string;
  (** the files that exist, with their contents *)
  w_files : gmap string string;
  (** the relational source: whether it can be reached, and its tables *)
  w_db_up : bool;
  w_db : database;
  (** [self.conn] *)
  w_conn : option connection;
  (** the index named [w_es_index], when it exists *)
  w_index : option es_index;
  w_log : list log_record;
  (** the extraction queries the source has executed, oldest first *)
  w_extracted : list entity
}.

Definition set_conn (c : option connection) (w : world) : world :=
  {| w_es_index := w_es_index w; w_local_mapping := w_local_mapping w;
     w_files := w_files w; w_db_up := w_db_up w; w_db := w_db w;
     w_conn := c; w_index := w_index w; w_log := w_log w;
     w_extracted := w_extracted w |}.

Definition set_index (i : option es_index) (w : world) : world :=
  {| w_es_index := w_es_index w; w_local_mapping := w_local_mapping w;
     w_files := w_files w; w_db_up := w_db_up w; w_db := w_db w;
     w_conn := w_conn w; w_index := i; w_log := w_log w;
     w_extracted := w_extracted w |}.

Definition add_log (r : log_record) (w : world) : world :=
  {| w_es_index := w_es_index w; w_local_mapping := w_local_mapping w;
     w_files := w_files w; w_db_up := w_db_up w; w_db := w_db w;
     w_conn := w_conn w; w_index := w_index w; w_log := w_log w ++ [r];
     w_extracted := w_extracted w |}.

Definition add_extracted (e : entity) (w : world) : world :=
  {| w_es_index := w_es_index w; w_local_mapping := w_local_mapping w;
     w_files := w_files w; w_db_up := w_db_up w; w_db := w_db w;
     w_conn := w_conn w; w_index := w_index w; w_log := w_log w;
     w_extracted := w_extracted w ++ [e] |}.

Definition logger (lv : level) (msg : message) : M world unit :=
  modify (add_log (lv, msg)).

(** [self.conn.cursor(...)]: [None] has no attribute [cursor]; a closed
    connection refuses. *)
Definition cursor : M world unit :=
  do c <- gets w_conn;
  match c with
  | None => raise AttributeError
  | Some ConnClosed => raise InterfaceError
  | Some ConnOpen => ret tt
  end.

(** ** The document builders *)

(** The tag payload as the builders normalise it: a [str] goes through
    [json.loads] (the empty one gives [{}]), and whatever that raises gives
    [{}]; [None] gives [{}]; anything else stays as it is. *)
Definition parse_tags (tags : pyval) : pyval :=
  match tags with
  | PStr s =>
      if truthy (PStr s)
      then match json_loads s with
           | Some v => v
           | None => PDict []
           end
      else PDict []
  | PNone => PDict []
  | _ => tags
  end.

Definition dict_lookup (d : list (string * pyval)) (k : string) : option pyval :=
  snd <$> List.find (fun kv => String.eqb k (fst kv)) d.

(** [tags.get('name:en', row['name'])]: the attribute [get] is looked up
    first (only a [dict] has it), then the default is evaluated. *)
Definition name_en_of (tags : pyval) (row : gmap string pyval) : result pyval :=
  match tags with
  | PDict d =>
      let* name := getitem row "name" in
      Ok (default name (dict_lookup d "name:en"))
  | _ => Raise AttributeError
  end.

(** [extract_admin_name(tags, default_name, lang)]; [lang] defaults to
    ['ne'].  No other method calls it. *)
Definition extract_admin_name (tags default_name : pyval) (lang : string)
  : result pyval :=
  if truthy tags then
    match tags with
    | PDict d => Ok (default default_name (dict_lookup d ("name:" +:+ lang)))
    | _ => Raise AttributeError
    end
  else Ok PNone.

Definition _calculate_boost (entity_type : string) (subtype : pyval) : float :=
  if String.eqb entity_type "place" then
    if py_in subtype [PStr "city"; PStr "town"] then 2.0%float
    else if py_in subtype [PStr "village"; PStr "suburb"] then 1.5%float
    else 1.0%float
  else if String.eqb entity_type "admin_boundary" then
    if py_in subtype [PInt 6; PInt 7] then 1.8%float
    else if py_eq subtype (PInt 4) then 1.5%float
    else 1.2%float
  else if String.eqb entity_type "poi" then 0.5%float
  else 0.3%float.

Definition _build_search_text (row : gmap string pyval) : result string :=
  let parts :=
    [ get_or row "name" (PStr EmptyString);
      get_or row "name_ne" (PStr EmptyString);
      get_or row "municipality" (PStr EmptyString);
      get_or row "district" (PStr EmptyString);
      get_or row "province" (PStr EmptyString) ] in
  str_join " " (List.filter truthy parts).

(** [{'lat': row['lat'], 'lon': row['lon']} if row.get('lat') else None] *)
Definition location_of (row : gmap string pyval) : result pyval :=
  if truthy (get row "lat") then
    let* lat := getitem row "lat" in
    let* lon := getitem row "lon" in
    Ok (PDict [("lat", lat); ("lon", lon)])
  else Ok PNone.

(** The body of [generate_docs] in [sync_places]. *)
Definition place_doc (es_index : string) (row : gmap string pyval)
  : result document :=
  let tags := parse_tags (get row "tags") in
  let* name_en := name_en_of tags row in
  let boost := _calculate_boost "place" (get row "place_type") in
  let* doc_id := getitem row "doc_id" in
  let* entity_type := getitem row "entity_type" in
  let* name := getitem row "name" in
  let* location := location_of row in
  let* search_text := _build_search_text row in
  Ok {| _index := es_index;
        _id := doc_id;
        _source := list_to_map
          [ ("id", doc_id);
            ("entity_type", entity_type);
            ("name", name);
            ("name_ne", get row "name_ne");
            ("name_en", name_en);
            ("place_type", get row "place_type");
            ("admin_level", get row "admin_level");
            ("location", location);
            ("ward", get row "ward");
            ("municipality", get row "municipality");
            ("municipality_ne", get row "municipality");
            ("district", get row "district");
            ("district_ne", get row "district");
            ("province", get row "province");
            ("province_ne", get row "province");
            ("country", PStr "Nepal");
            ("boost_score", PFloat boost);
            ("search_text", PStr search_text) ] |}.

(** The body of [generate_docs] in [sync_poi]. *)
Definition poi_doc (es_index : string) (row : gmap string pyval)
  : result document :=
  let tags := parse_tags (get row "tags") in
  let* name_en := name_en_of tags row in
  let* doc_id := getitem row "doc_id" in
  let* entity_type := getitem row "entity_type" in
  let* name := getitem row "name" in
  let* location := location_of row in
  Ok {| _index := es_index;
        _id := doc_id;
        _source := list_to_map
          [ ("id", doc_id);
            ("entity_type", entity_type);
            ("name", name);
            ("name_en", name_en);
            ("location", location);
            ("country", PStr "Nepal");
            ("boost_score", PFloat 0.5%float);
            ("tags", tags);
            ("search_text", name) ] |}.

(** The body of [generate_docs] in [sync_roads]. *)
Definition road_doc (es_index : string) (row : gmap string pyval)
  : result document :=
  let tags := parse_tags (get row "tags") in
  let* name_en := name_en_of tags row in
  let* doc_id := getitem row "doc_id" in
  let* entity_type := getitem row "entity_type" in
  let* name := getitem row "name" in
  Ok {| _index := es_index;
        _id := doc_id;
        _source := list_to_map
          [ ("id", doc_id);
            ("entity_type", entity_type);
            ("name", name);
            ("name_en", name_en);
            ("country", PStr "Nepal");
            ("boost_score", PFloat 0.3%float);
            ("search_text", name) ] |}.

(** ** The hierarchy resolver *)

(** [bool(d)] for a dictionary. *)
Definition dict_truthy (d : gmap string pyval) : bool :=
  negb (Nat.eqb (size d) 0).

Definition _get_parent_admin (centroid : pyval)
  : M world (option (gmap string pyval)) :=
  try_except
    (cursor ;;
     do db <- gets w_db;
     do rows <- lift (match centroid with
                      | PStr wkt => parent_query db wkt
                      | _ => Raise InternalError
                      end);
     (* [result = cur.fetchone()], [dict(result) if result else None] *)
     match rows with
     | r :: _ => ret (if dict_truthy r then Some r else None)
     | [] => ret None
     end)
    (fun e => logger WARNING (ParentAdminFailed e) ;; ret None).

(** [hierarchy[k] = parent_hierarchy.get(k)] for each [k] of [keys], in order. *)
Definition copy_from (parent : gmap string pyval) (keys : list string)
    (hierarchy : gmap string pyval) : gmap string pyval :=
  foldl (fun h k => <[k := get parent k]> h) hierarchy keys.

(** [if parent_hierarchy:] on the answer of [_get_parent_admin] *)
Definition parent_truthy (parent : option (gmap string pyval)) : bool :=
  match parent with
  | Some d => dict_truthy d
  | None => false
  end.

Definition empty_hierarchy : gmap string pyval :=
  list_to_map
    [ ("ward", PNone);
      ("municipality", PNone);
      ("municipality_ne", PNone);
      ("district", PNone);
      ("district_ne", PNone);
      ("province", PNone);
      ("province_ne", PNone) ].

(** [re.match(r'^(.+)-(\d+)$', s)] needs a [str]. *)
Definition match_ward_name (s : pyval) : result (option Re.match_object) :=
  match s with
  | PStr s => Ok (Re.re_match ward_pattern s)
  | _ => Raise TypeError
  end.

Definition _build_admin_hierarchy (row : gmap string pyval)
  : M world (gmap string pyval) :=
  let admin_level := get row "admin_level" in
  let name := get row "name" in
  let name_ne := get row "name_ne" in
  let centroid := get row "centroid" in
  let hierarchy := empty_hierarchy in
  if py_eq admin_level (PInt 4) then
    let hierarchy := <["province" := name]> hierarchy in
    let hierarchy := <["province_ne" := py_or name_ne name]> hierarchy in
    ret hierarchy
  else if py_eq admin_level (PInt 6) then
    let hierarchy := <["district" := name]> hierarchy in
    let hierarchy := <["district_ne" := py_or name_ne name]> hierarchy in
    if truthy centroid then
      do parent_hierarchy <- _get_parent_admin centroid;
      if parent_truthy parent_hierarchy then
        ret (copy_from (default ∅ parent_hierarchy)
                       ["province"; "province_ne"] hierarchy)
      else ret hierarchy
    else ret hierarchy
  else if py_eq admin_level (PInt 7) then
    let hierarchy := <["municipality" := name]> hierarchy in
    let hierarchy := <["municipality_ne" := py_or name_ne name]> hierarchy in
    if truthy centroid then
      do parent_hierarchy <- _get_parent_admin centroid;
      if parent_truthy parent_hierarchy then
        ret (copy_from (default ∅ parent_hierarchy)
                       ["district"; "district_ne"; "province"; "province_ne"]
                       hierarchy)
      else ret hierarchy
    else ret hierarchy
  else if py_eq admin_level (PInt 9) then
    do m <- lift (match_ward_name (py_or name (PStr EmptyString)));
    let hierarchy :=
      match m with
      | Some m =>
          let hierarchy := <["municipality" := PStr (Re.group m 1)]> hierarchy in
          let hierarchy := <["municipality_ne" := PStr (Re.group m 1)]> hierarchy in
          (* [try: hierarchy['ward'] = int(match.group(2))  except: pass] *)
          match py_int (Re.group m 2) with
          | Ok n => <["ward" := PInt n]> hierarchy
          | Raise _ => hierarchy
          end
      | None => hierarchy
      end in
    if truthy centroid then
      do parent_hierarchy <- _get_parent_admin centroid;
      if parent_truthy parent_hierarchy then
        ret (copy_from (default ∅ parent_hierarchy)
                       ["district"; "district_ne"; "province"; "province_ne"]
                       hierarchy)
      else ret hierarchy
    else ret hierarchy
  else ret hierarchy.

(** The body of [generate_docs] in [sync_admin_boundaries]. *)
Definition admin_doc (es_index : string) (row : gmap string pyval)
  : M world document :=
  let tags := parse_tags (get row "tags") in
  do name_en <- lift (name_en_of tags row);
  do hierarchy <- _build_admin_hierarchy row;
  let boost := _calculate_boost "admin_boundary" (get row "admin_level") in
  do doc_id <- lift (getitem row "doc_id");
  do entity_type <- lift (getitem row "entity_type");
  do name <- lift (getitem row "name");
  do location <- lift (location_of row);
  do search_text <- lift (_build_search_text row);
  ret {| _index := es_index;
         _id := doc_id;
         _source := list_to_map
           [ ("id", doc_id);
             ("entity_type", entity_type);
             ("name", name);
             ("name_ne", get row "name_ne");
             ("name_en", name_en);
             ("admin_level", get row "admin_level");
             ("location", location);
             ("ward", get hierarchy "ward");
             ("municipality", get hierarchy "municipality");
             ("municipality_ne", get hierarchy "municipality_ne");
             ("district", get hierarchy "district");
             ("district_ne", get hierarchy "district_ne");
             ("province", get hierarchy "province");
             ("province_ne", get hierarchy "province_ne");
             ("country", PStr "Nepal");
             ("boost_score", PFloat boost);
             ("search_text", PStr search_text) ] |}.

(** ** The bulk publisher *)

(** One document of a bulk request: the index takes it or reports it as
    failed.  A write to a missing index creates it (with no mapping). *)
Definition write_document (d : document) : M world bool :=
  do ix <- gets w_index;
  let ix := default {| ix_mapping := PDict []; ix_docs := [] |} ix in
  if index_accepts (ix_mapping ix) (_source d) then
    modify (set_index (Some {| ix_mapping := ix_mapping ix;
                               ix_docs := ix_docs ix ++ [d] |})) ;;
    ret true
  else
    modify (set_index (Some ix)) ;;
    ret false.

Fixpoint send_chunk (chunk : list document) (success failed : nat)
  : M world (nat * nat) :=
  match chunk with
  | [] => ret (success, failed)
  | d :: chunk' =>
      do ok <- write_document d;
      if ok then send_chunk chunk' (S success) failed
      else send_chunk chunk' success (S failed)
  end.

Definition chunk_size : nat := 500.

(** [helpers.bulk(es, actions, raise_on_error=False)] of elasticsearch-py:
    the actions are pulled from the generator one at a time; a chunk that
    holds [chunk_size] of them is sent when the next one arrives, the last
    chunk when the generator ends.  What the generator raises goes through,
    and the chunk being filled is never sent. *)
Fixpoint bulk_loop (actions : list (M world document)) (chunk : list document)
    (success failed : nat) : M world (nat * nat) :=
  match actions with
  | [] => send_chunk chunk success failed
  | next :: actions' =>
      do d <- next;
      if Nat.eqb (length chunk) chunk_size then
        do sf <- send_chunk chunk success failed;
        bulk_loop actions' [d] (fst sf) (snd sf)
      else bulk_loop actions' (chunk ++ [d]) success failed
  end.

Definition helpers_bulk (actions : list (M world document)) : M world (nat * nat) :=
  bulk_loop actions [] 0%nat 0%nat.

(** ** The four pipelines *)

Definition sync_places : M world nat :=
  cursor ;;
  modify (add_extracted Places) ;;
  do db <- gets w_db;
  do es_index <- gets w_es_index;
  let generate_docs :=
    (fun row => lift (place_doc es_index row)) <$> places_query db in
  do sf <- helpers_bulk generate_docs;
  logger INFO (Synced Places (fst sf) (snd sf)) ;;
  ret (fst sf).

Definition sync_admin_boundaries : M world nat :=
  cursor ;;
  modify (add_extracted AdminBoundaries) ;;
  do db <- gets w_db;
  do es_index <- gets w_es_index;
  let generate_docs := admin_doc es_index <$> admin_query db in
  do sf <- helpers_bulk generate_docs;
  logger INFO (Synced AdminBoundaries (fst sf) (snd sf)) ;;
  ret (fst sf).

Definition sync_poi : M world nat :=
  cursor ;;
  modify (add_extracted Poi) ;;
  do db <- gets w_db;
  do es_index <- gets w_es_index;
  let generate_docs :=
    (fun row => lift (poi_doc es_index row)) <$> poi_query db in
  do sf <- helpers_bulk generate_docs;
  logger INFO (Synced Poi (fst sf) (snd sf)) ;;
  ret (fst sf).

Definition sync_roads : M world nat :=
  cursor ;;
  modify (add_extracted Roads) ;;
  do db <- gets w_db;
  do es_index <- gets w_es_index;
  let generate_docs :=
    (fun row => lift (road_doc es_index row)) <$> roads_query db in
  do sf <- helpers_bulk generate_docs;
  logger INFO (Synced Roads (fst sf) (snd sf)) ;;
  ret (fst sf).

(** ** Connection and index set-up *)

Definition connect_db : M world unit :=
  try_except
    (do up <- gets w_db_up;
     if up then
       modify (set_conn (Some ConnOpen)) ;;
       logger INFO Connected
     else raise OperationalError)
    (fun e => logger ERROR (ConnectFailed e) ;; raise e).

Definition keyword : pyval := PDict [("type", PStr "keyword")].

Definition _get_default_mapping : pyval :=
  PDict
    [ ("settings",
        PDict [ ("number_of_shards", PInt 1); ("number_of_replicas", PInt 1) ]);
      ("mappings",
        PDict
          [ ("properties",
              PDict
                [ ("entity_type", keyword);
                  ("name", PDict [ ("type", PStr "text");
                                   ("fields", PDict [("keyword", keyword)]) ]);
                  ("location", PDict [("type", PStr "geo_point")]);
                  ("country", keyword) ]) ]) ].

(** [os.path.exists] *)
Definition path_exists (files : gmap string string) (path : string) : bool :=
  bool_decide (is_Some (files !! path)).

(** [open(path, 'r')] and reading the file: [open(None)] is a [TypeError]. *)
Definition open_read (path : option string) : M world string :=
  match path with
  | None => raise TypeError
  | Some p =>
      do files <- gets w_files;
      match files !! p with
      | Some content => ret content
      | None => raise FileNotFoundError
      end
  end.

(** [json.load(f)] *)
Definition json_load (content : string) : M world pyval :=
  match json_loads content with
  | Some v => ret v
  | None => raise JSONDecodeError
  end.

(** [try: m  except FileNotFoundError: handler] *)
Definition try_except_FileNotFoundError {A} (m handler : M world A) : M world A :=
  fun w =>
    match m w with
    | (Raise FileNotFoundError, w') => handler w'
    | r => r
    end.

Definition create_index : M world unit :=
  do files <- gets w_files;
  do local <- gets w_local_mapping;
  let mapping_paths := [ "/app/mappings/nepal_locations.json"; local ] in
  (* the first path that exists, [None] when there is none *)
  let mapping_path := List.find (path_exists files) mapping_paths in
  do mapping <-
    try_except_FileNotFoundError
      (do content <- open_read mapping_path; json_load content)
      (logger WARNING (MappingNotFound mapping_path) ;;
       ret _get_default_mapping);
  do existing <- gets w_index;
  match existing with
  | Some _ => logger INFO IndexExists ;; modify (set_index None)
  | None => ret tt
  end ;;
  modify (set_index (Some {| ix_mapping := mapping; ix_docs := [] |})) ;;
  logger INFO CreatedIndex.

(** ** The run *)

Definition sync_all : M world unit :=
  logger INFO Starting ;;
  try_finally
    (try_except
       (connect_db ;;
        create_index ;;
        do total_places <- sync_places;
        do total_admin <- sync_admin_boundaries;
        do total_poi <- sync_poi;
        do total_roads <- sync_roads;
        let total := (total_places + total_admin + total_poi + total_roads)%nat in
        logger INFO (Completed total total_places total_admin total_poi total_roads))
       (fun e => logger ERROR (SyncFailed e) ;; raise (SystemExit 1)))
    (do conn <- gets w_conn;
     match conn with
     | Some _ => modify (set_conn (Some ConnClosed))
     | None => ret tt
     end).

(** ** Vocabulary of the properties *)

(** Every character of [s] satisfies [P]. *)
Definition all_chars (P : string -> bool) (s : string) : bool :=
  forallb P (chars s).

Fixpoint all_bytes (P : ascii -> bool) (s : string) : bool :=
  match s with
  | EmptyString => true
  | String c s' => P c && all_bytes P s'
  end.

(** [s.rpartition('-')], when [s] has a hyphen: what stands before the
    final hyphen, and what stands after it. *)
Fixpoint rpartition_hyphen (s : string) : option (string * string) :=
  match s with
  | EmptyString => None
  | String c s' =>
      match rpartition_hyphen s' with
      | Some (a, b) => Some (String c a, b)
      | None => if Ascii.eqb c "-" then Some (EmptyString, s') else None
      end
  end.

(** The end of line [$] tolerates: nothing, or one newline. *)
Definition line_end (nl : string) : Prop :=
  nl = EmptyString \/ nl = String Re.newline EmptyString.

(** [s] reads [<municipality>-<digits>] the way [r'^(.+)-(\d+)$'] reads it:
    [m] is not empty and has no newline, [d] is a non-empty run of digits,
    and [s] ends after [d] (or with one newline after it). *)
Definition ward_name (s m d : string) : Prop :=
  exists nl, s = m +:+ "-" +:+ d +:+ nl /\ line_end nl /\
    m <> EmptyString /\ all_chars (Re.charset_has Re.ANY) m = true /\
    d <> EmptyString /\ all_chars Re.is_digit d = true.

(** A string that does not begin inside a character: it is empty or its
    first byte is no continuation byte. *)
Definition starts_char (s : string) : Prop :=
  match s with
  | EmptyString => True
  | String b _ => is_continuation b = false
  end.

(** Neither a hyphen nor a newline. *)
Definition plain_byte (b : ascii) : bool :=
  negb (Ascii.eqb b "-") && negb (Ascii.eqb b Re.newline).

(** The marks of a successful attempt of the ward pattern. *)
Definition ward_marks (m d : string) : Re.marks :=
  [ (3, length (chars m) + 1 + length (chars d));
    (2, length (chars m) + 1);
    (1, length (chars m));
    (0, 0) ]%nat.

Definition digit_of (v : Z) (u : Decimal.uint) : Decimal.uint :=
  match v with
  | 0 => Decimal.D0 u | 1 => Decimal.D1 u | 2 => Decimal.D2 u
  | 3 => Decimal.D3 u | 4 => Decimal.D4 u | 5 => Decimal.D5 u
  | 6 => Decimal.D6 u | 7 => Decimal.D7 u | 8 => Decimal.D8 u
  | _ => Decimal.D9 u
  end.

(** The decimal numeral that the digits [cs] spell, most significant digit
    first; [None] when a character is no decimal digit. *)
Fixpoint numeral_of (cs : list string) : option Decimal.uint :=
  match cs with
  | [] => Some Decimal.Nil
  | c :: cs' =>
      match decimal c, numeral_of cs' with
      | Some v, Some u => Some (digit_of v u)
      | _, _ => None
      end
  end.

Definition numeral (d : string) : option Decimal.uint := numeral_of (chars d).

(** [c] is the decimal digit of value [k] in some script: the [k]-th
    character after a DIGIT ZERO. *)
Definition digit_char (c : string) (k : Z) : Prop :=
  exists z, In z decimal_zeros /\ 0 <= k <= 9 /\ c = utf8 (z + Z.to_N k).

(** The decimal numeral with the digits [ks], most significant first. *)
Definition uint_of (ks : list Z) : Decimal.uint :=
  fold_right digit_of Decimal.Nil ks.

(** The block that ends the district, municipality and ward cases. *)
Definition resolve_parents (keys : list string) (centroid : pyval)
    (hierarchy : gmap string pyval) : M world (gmap string pyval) :=
  if truthy centroid then
    do parent_hierarchy <- _get_parent_admin centroid;
    if parent_truthy parent_hierarchy then
      ret (copy_from (default ∅ parent_hierarchy) keys hierarchy)
    else ret hierarchy
  else ret hierarchy.

(** The hierarchy of a ward before its parents are looked up. *)
Definition ward_stage (name : string) : gmap string pyval :=
  match Re.re_match ward_pattern name with
  | Some m =>
      let hierarchy := <["municipality" := PStr (Re.group m 1)]> empty_hierarchy in
      let hierarchy := <["municipality_ne" := PStr (Re.group m 1)]> hierarchy in
      match py_int (Re.group m 2) with
      | Ok n => <["ward" := PInt n]> hierarchy
      | Raise _ => hierarchy
      end
  | None => empty_hierarchy
  end.

(** A boundary of the table, of the given level, whose polygon contains the
    point. *)
Definition encloses (db : database) (lvl : Z) (pt : point) (a : admin_boundary) : Prop :=
  a ∈ admin_boundaries db /\ ab_admin_level a = Some lvl /\
  exists g, ab_geom a = Some g /\ ST_Contains g pt = true.

(** The hierarchy of a municipality before its parents are looked up. *)
Definition municipality_stage (name name_ne : pyval) : gmap string pyval :=
  <["municipality_ne" := py_or name_ne name]>
    (<["municipality" := name]> empty_hierarchy).

(** The non-empty values among the fields, in order. *)
Definition nonempty_values (fields : list (option string)) : list string :=
  omap (fun o => match o with
                 | Some (String c s) => Some (String c s)
                 | _ => None
                 end) fields.

(** Joined by single spaces. *)
Fixpoint join_spaces (l : list string) : string :=
  match l with
  | [] => EmptyString
  | [s] => s
  | s :: l' => s +:+ " " +:+ join_spaces l'
  end.

(** The tiers, as the specification words them. *)
Definition place_tier (place_type : option string) : float :=
  if decide (place_type = Some "city" \/ place_type = Some "town") then 2.0%float
  else if decide (place_type = Some "village" \/ place_type = Some "suburb")
       then 1.5%float
  else 1.0%float.

Definition boundary_tier (admin_level : option Z) : float :=
  if decide (admin_level = Some 6 \/ admin_level = Some 7) then 1.8%float
  else if decide (admin_level = Some 4) then 1.5%float
  else 1.2%float.

(** What the builders put in [location] for a point geometry: nothing for
    a NULL geometry, and nothing either for a latitude of zero, which is
    not [None] but is false. *)
Definition location_value (geom : option point) : pyval :=
  match geom with
  | Some pt =>
      if PrimFloat.eqb (ST_Y pt) 0%float then PNone
      else PDict [("lat", PFloat (ST_Y pt)); ("lon", PFloat (ST_X pt))]
  | None => PNone
  end.

(** A record one of the four extraction queries returns. *)
Inductive source_record : Type :=
| FromPlaces (p : place)
| FromAdmin (a : admin_boundary)
| FromPoi (p : poi)
| FromRoads (r : named_road).

(** The records each extraction query returns. *)
Definition places_records (db : database) : list source_record :=
  FromPlaces <$> filter (fun p => is_Some (pl_name p)) (places db).

Definition admin_records (db : database) : list source_record :=
  FromAdmin <$>
    filter (fun a => is_Some (ab_name a) ∧ synced_level (ab_admin_level a) = true)
           (admin_boundaries db).

Definition poi_records (db : database) : list source_record :=
  FromPoi <$> take 50000 (filter (fun p => is_Some (poi_name p)) (pois db)).

Definition roads_records (db : database) : list source_record :=
  FromRoads <$> take 10000 (filter (fun r => is_Some (rd_name r)) (named_roads db)).

(** The records a run extracts, in the order of the four pipelines. *)
Definition run_records (db : database) : list source_record :=
  places_records db ++ admin_records db ++ poi_records db ++ roads_records db.

Definition record_row (r : source_record) : entity * gmap string pyval :=
  match r with
  | FromPlaces p => (Places, place_row p)
  | FromAdmin a => (AdminBoundaries, admin_row a)
  | FromPoi p => (Poi, poi_row p)
  | FromRoads r => (Roads, road_row r)
  end.

(** [{type_prefix}_{source_id}] *)
Definition record_doc_id (r : source_record) : string :=
  match r with
  | FromPlaces p => "place_" +:+ id_text (pl_id p)
  | FromAdmin a => "admin_" +:+ id_text (ab_id a)
  | FromPoi p => "poi_" +:+ id_text (poi_id p)
  | FromRoads r => "road_" +:+ id_text (rd_id r)
  end.

(** [doc] is a document a builder makes of the record. *)
Definition built (ix : string) (r : source_record) (doc : document) : Prop :=
  match r with
  | FromPlaces p => place_doc ix (place_row p) = Ok doc
  | FromAdmin a => exists w w', admin_doc ix (admin_row a) w = (Ok doc, w')
  | FromPoi p => poi_doc ix (poi_row p) = Ok doc
  | FromRoads r => road_doc ix (road_row r) = Ok doc
  end.

(** [m] leaves the component [f] of the world as it is. *)
Definition keeps {A B} (f : world -> B) (m : M world A) : Prop :=
  forall w r w', m w = (r, w') -> f w' = f w.

(** The four generators, as functions of the tables and the index name. *)
Definition places_gen (db : database) (ix : string) : list (M world document) :=
  (fun row => lift (place_doc ix row)) <$> places_query db.

Definition admin_gen (db : database) (ix : string) : list (M world document) :=
  admin_doc ix <$> admin_query db.

Definition poi_gen (db : database) (ix : string) : list (M world document) :=
  (fun row => lift (poi_doc ix row)) <$> poi_query db.

Definition roads_gen (db : database) (ix : string) : list (M world document) :=
  (fun row => lift (road_doc ix row)) <$> roads_query db.

(** A pipeline leaves the connection as it is and, on an open connection,
    executes its own extraction query and no other, whether it ends or
    raises. *)
Definition extracts (e : entity) {A} (m : M world A) : Prop :=
  forall w r w', m w = (r, w') ->
    w_conn w' = w_conn w /\
    (w_conn w = Some ConnOpen -> w_extracted w' = w_extracted w ++ [e]).


(** The four pipelines and the summary, as [sync_all] runs them once the
    connection and the index are set up. *)
Definition pipelines : M world unit :=
  do total_places <- sync_places;
  do total_admin <- sync_admin_boundaries;
  do total_poi <- sync_poi;
  do total_roads <- sync_roads;
  let total := (total_places + total_admin + total_poi + total_roads)%nat in
  logger INFO (Completed total total_places total_admin total_poi total_roads).

(** [finally: if self.conn: self.conn.close()] *)
Definition close_connection (w : world) : world :=
  match w_conn w with
  | Some _ => set_conn (Some ConnClosed) w
  | None => w
  end.

(** The world a run ends in when [e] was raised in world [w]: the failure is
    logged and the connection is closed. *)
Definition aborted (e : exn) (w : world) : world :=
  close_connection (add_log (ERROR, SyncFailed e) w).

(** [try: body  except Exception as e: (log, exit 1)  finally: close] *)
Definition guarded (body : M world unit) : M world unit :=
  try_finally
    (try_except body
       (fun e => logger ERROR (SyncFailed e) ;; raise (SystemExit 1)))
    (do conn <- gets w_conn;
     match conn with
     | Some _ => modify (set_conn (Some ConnClosed))
     | None => ret tt
     end).

(** The documents in the index, oldest first. *)
Definition docs_of (w : world) : list document :=
  from_option ix_docs [] (w_index w).

(** What a pipeline's generator yields for a record. *)
Definition record_action (ix : string) (r : source_record) : M world document :=
  match r with
  | FromPlaces p => lift (place_doc ix (place_row p))
  | FromAdmin a => admin_doc ix (admin_row a)
  | FromPoi p => lift (poi_doc ix (poi_row p))
  | FromRoads r => lift (road_doc ix (road_row r))
  end.

(** Documents of the index, as built from records. *)
Definition written_from (ix : string) (records : list source_record)
    (before after : world) : Prop :=
  exists rsW docsW,
    rsW `sublist_of` records /\ Forall2 (built ix) rsW docsW /\
    docs_of after = docs_of before ++ docsW.

(** [name_ne or name] on two text columns: the localized name when it is
    neither NULL nor empty, the name otherwise. *)
Definition localized_or (name_ne name : option string) : pyval :=
  match name_ne with
  | Some (String c s) => PStr (String c s)
  | _ => sql_text name
  end.

(** The keys of the hierarchy dictionary. *)
Definition hierarchy_keys : list string :=
  [ "ward"; "municipality"; "municipality_ne";
    "district"; "district_ne"; "province"; "province_ne" ].

(** The exception the parent lookup meets before its statement runs: on a
    connection that was never made, on a closed one, or none. *)
Definition cursor_error (c : option connection) : option exn :=
  match c with
  | None => Some AttributeError
  | Some ConnClosed => Some InterfaceError
  | Some ConnOpen => None
  end.

(** What stops the parent lookup, if anything: the cursor the connection
    refuses, or the text the server cannot read. *)
Definition lookup_error (w : world) (wkt : string) : option exn :=
  match cursor_error (w_conn w) with
  | Some e => Some e
  | None => match ST_GeomFromText wkt with
            | Some _ => None
            | None => Some InternalError
            end
  end.

(** [h] has the seven keys of the hierarchy, and no other. *)
Definition has_hierarchy_keys (h : gmap string pyval) : Prop :=
  forall k, is_Some (h !! k) <-> k ∈ hierarchy_keys.

(** The tag payload and the name of a record, and the value of its
    [entity_type] column. *)
Definition record_tags (r : source_record) : pyval :=
  match r with
  | FromPlaces p => pl_tags p
  | FromAdmin a => ab_tags a
  | FromPoi p => poi_tags p
  | FromRoads r => rd_tags r
  end.

Definition record_name (r : source_record) : option string :=
  match r with
  | FromPlaces p => pl_name p
  | FromAdmin a => ab_name a
  | FromPoi p => poi_name p
  | FromRoads r => rd_name r
  end.

Definition entity_type_of (r : source_record) : string :=
  match r with
  | FromPlaces _ => "place"
  | FromAdmin _ => "admin_boundary"
  | FromPoi _ => "poi"
  | FromRoads _ => "road"
  end.

(** What goes into [search_text]: for a place the non-empty values among
    name, localized name, municipality, district and province, joined by
    single spaces; for a boundary the same over its row, which has only the
    name and the localized name; for a POI and a road the name as it is. *)
Definition search_text_of (r : source_record) : pyval :=
  match r with
  | FromPlaces p =>
      PStr (join_spaces (nonempty_values
              [ pl_name p; pl_name_ne p; pl_municipality p;
                pl_district p; pl_province p ]))
  | FromAdmin a => PStr (join_spaces (nonempty_values [ ab_name a; ab_name_ne a ]))
  | FromPoi p => sql_text (poi_name p)
  | FromRoads x => sql_text (rd_name x)
  end.

(** The point geometry a document's location comes from: the centroid for
    a boundary; a road has none. *)
Definition record_geom (r : source_record) : option point :=
  match r with
  | FromPlaces p => pl_geom p
  | FromAdmin a => ab_centroid a
  | FromPoi p => poi_geom p
  | FromRoads _ => None
  end.

(** The columns [_build_search_text] reads. *)
Definition search_keys : list string :=
  [ "name"; "name_ne"; "municipality"; "district"; "province" ].

(** The mapping file [create_index] reads: the first of the two candidate
    paths that exists. *)
Definition mapping_file_content (w : world) : option string :=
  match w_files w !! "/app/mappings/nepal_locations.json" with
  | Some content => Some content
  | None => w_files w !! w_local_mapping w
  end.

(** What [sync_all] runs between the first log line and the handlers. *)
Definition run_body : M world unit :=
  connect_db ;; create_index ;; pipelines.

(** [m] raises nothing but exceptions the handler of the run takes
    ([Exception]s: not [SystemExit]). *)
Definition checked {A} (m : M world A) : Prop :=
  forall w e w', m w = (Raise e, w') -> is_Exception e = true.

Definition checked_result {A} (r : result A) : Prop :=
  forall e, r = Raise e -> is_Exception e = true.

(** The mapping the index was created with, and the index's verdict on a
    document under a mapping. *)
Definition mapping_of (w : world) : option pyval := ix_mapping <$> w_index w.

Definition accepted (mapping : pyval) (d : document) : bool :=
  index_accepts mapping (_source d).

(** The pipeline of an entity type and the records it extracts. *)
Definition pipeline_of (e : entity) : M world nat :=
  match e with
  | Places => sync_places
  | AdminBoundaries => sync_admin_boundaries
  | Poi => sync_poi
  | Roads => sync_roads
  end.

Definition records_of (e : entity) (db : database) : list source_record :=
  match e with
  | Places => places_records db
  | AdminBoundaries => admin_records db
  | Poi => poi_records db
  | Roads => roads_records db
  end.

(** What a run reads and never writes: the configuration, the files and
    the source. *)
Definition config (w : world)
  : string * string * gmap string string * bool * database :=
  (w_es_index w, w_local_mapping w, w_files w, w_db_up w, w_db w).

(** Two worlds that differ at most in what was logged and in the record of
    the extractions run. *)
Definition alike (a b : world) : Prop :=
  config a = config b /\ w_conn a = w_conn b /\ w_index a = w_index b.

(** [m] does the same in worlds that are alike: the same result, and
    worlds that are alike again. *)
Definition same_run {A} (m : M world A) : Prop :=
  forall a b, alike a b ->
    fst (m a) = fst (m b) /\ alike (snd (m a)) (snd (m b)).

End Syncer.

(** What a computation that ended well shows of its result. *)
Definition on_ok {A B} (f : A -> B) (r : result A) : option B :=
  match r with
  | Ok a => Some (f a)
  | Raise _ => None
  end.

Definition fields (ks : list string) (d : gmap string pyval) : list pyval :=
  get d <$> ks.


(** ** A sample store, for concrete runs

    Points are (longitude, latitude) pairs and polygons are boxes given by
    their south-west and north-east corners.  WKT text is read and written
    through a small gazetteer; the decoder knows the JSON texts the sample
    rows use; the index takes every document. *)

Module Sample.

Definition lonlat : Type := float * float.

Definition box : Type := lonlat * lonlat.

Definition in_box (b : box) (p : lonlat) : bool :=
  PrimFloat.leb (fst (fst b)) (fst p) && PrimFloat.leb (fst p) (fst (snd b)) &&
  PrimFloat.leb (snd (fst b)) (snd p) && PrimFloat.leb (snd p) (snd (snd b)).

Definition same_point (p q : lonlat) : bool :=
  PrimFloat.eqb (fst p) (fst q) && PrimFloat.eqb (snd p) (snd q).

Definition gazetteer : list (string * lonlat) :=
  [ ("POINT(83.98 28.21)", (83.98, 28.21)%float);
    ("POINT(85.32 27.71)", (85.32, 27.71)%float);
    ("POINT(80.5 29.5)", (80.5, 29.5)%float);
    ("POINT(85 0)", (85.0, 0.0)%float) ].

Definition as_text (p : lonlat) : string :=
  match List.find (fun e => same_point (snd e) p) gazetteer with
  | Some e => fst e
  | None => "POINT EMPTY"
  end.

Definition from_text (s : string) : option lonlat :=
  snd <$> List.find (fun e => String.eqb (fst e) s) gazetteer.

Definition loads (s : string) : option pyval :=
  if String.eqb s "{}" then Some (PDict [])
  else if String.eqb s "[]" then Some (PList [])
  else if String.eqb s "null" then Some PNone
  else None.

#[export] Instance collaborators : Collaborators := {|
  point := lonlat;
  polygon := box;
  ST_X := fst;
  ST_Y := snd;
  ST_AsText := as_text;
  ST_GeomFromText := from_text;
  ST_Contains := in_box;
  json_loads := loads;
  index_accepts := fun _ _ => true
|}.

Definition gandaki : admin_boundary :=
  {| ab_id := 4; ab_name := Some "Gandaki"; ab_name_ne := None;
     ab_admin_level := Some 4; ab_boundary_type := Some "administrative";
     ab_geom := Some ((82.8, 27.4), (85.2, 29.4))%float;
     ab_centroid := None; ab_tags := PNone |}.

Definition kaski : admin_boundary :=
  {| ab_id := 40; ab_name := Some "Kaski"; ab_name_ne := None;
     ab_admin_level := Some 6; ab_boundary_type := Some "administrative";
     ab_geom := Some ((83.7, 28.1), (84.3, 28.6))%float;
     ab_centroid := Some (83.98, 28.21)%float; ab_tags := PNone |}.

(** a district whose centroid lies in no province polygon of the table *)
Definition darchula : admin_boundary :=
  {| ab_id := 75; ab_name := Some "Darchula"; ab_name_ne := None;
     ab_admin_level := Some 6; ab_boundary_type := Some "administrative";
     ab_geom := Some ((80.3, 29.4), (81.1, 30.2))%float;
     ab_centroid := Some (80.5, 29.5)%float; ab_tags := PNone |}.

(** a ward whose name has no ward number *)
Definition pokhara_ward : admin_boundary :=
  {| ab_id := 4001; ab_name := Some "Pokhara"; ab_name_ne := None;
     ab_admin_level := Some 9; ab_boundary_type := Some "administrative";
     ab_geom := None;
     ab_centroid := Some (83.98, 28.21)%float; ab_tags := PNone |}.

Definition kathmandu_ward_5 : admin_boundary :=
  {| ab_id := 2705; ab_name := Some "Kathmandu-05"; ab_name_ne := None;
     ab_admin_level := Some 9; ab_boundary_type := Some "administrative";
     ab_geom := None;
     ab_centroid := Some (85.32, 27.71)%float;
     ab_tags := PStr "name=>Kathmandu-05" |}.

Definition pokhara : place :=
  {| pl_id := 1; pl_name := Some "Pokhara"; pl_name_ne := None;
     pl_place_type := Some "city"; pl_admin_level := None;
     pl_geom := Some (83.98, 28.21)%float; pl_ward := None;
     pl_municipality := None; pl_district := Some "Kaski";
     pl_province := Some "Gandaki"; pl_tags := PStr "name=>Pokhara" |}.

(** a place on the equator: its latitude is 0.0, not NULL *)
Definition equator_camp : place :=
  {| pl_id := 2; pl_name := Some "Equator Camp"; pl_name_ne := None;
     pl_place_type := Some "hamlet"; pl_admin_level := None;
     pl_geom := Some (85.0, 0.0)%float; pl_ward := None;
     pl_municipality := None; pl_district := None;
     pl_province := None; pl_tags := PNone |}.

(** a place whose tag payload is a JSON array *)
Definition listed_place : place :=
  {| pl_id := 3; pl_name := Some "Besisahar"; pl_name_ne := None;
     pl_place_type := Some "town"; pl_admin_level := None;
     pl_geom := None; pl_ward := None;
     pl_municipality := None; pl_district := None;
     pl_province := None; pl_tags := PStr "[]" |}.

Definition phewa_lake : poi :=
  {| poi_id := 7; poi_name := Some "Phewa Lake";
     poi_geom := Some (83.98, 28.21)%float; poi_tags := PStr "name=>Phewa" |}.

Definition prithvi_highway : named_road :=
  {| rd_id := 9; rd_name := Some "Prithvi Highway"; rd_tags := PStr "ref=>H04" |}.

Definition db : database :=
  {| places := [pokhara; equator_camp];
     admin_boundaries := [gandaki; kaski; darchula; pokhara_ward; kathmandu_ward_5];
     pois := [phewa_lake];
     named_roads := [prithvi_highway] |}.

Definition db_with_listed_place : database :=
  {| places := [listed_place; pokhara];
     admin_boundaries := [gandaki; kaski];
     pois := [phewa_lake];
     named_roads := [prithvi_highway] |}.

(** Before a run: no connection yet, no index yet, nothing logged. *)
Definition fresh (files : gmap string string) (d : database) : world :=
  {| w_es_index := "nepal_locations";
     w_local_mapping := "scripts/../elasticsearch/mappings/nepal_locations.json";
     w_files := files; w_db_up := true; w_db := d;
     w_conn := None; w_index := None; w_log := []; w_extracted := [] |}.

Definition mapping_file : gmap string string :=
  {[ "/app/mappings/nepal_locations.json" := "{}" ]}.

(** In the middle of a run: connected, index created. *)
Definition connected (d : database) : world :=
  {| w_es_index := "nepal_locations";
     w_local_mapping := "scripts/../elasticsearch/mappings/nepal_locations.json";
     w_files := mapping_file; w_db_up := true; w_db := d;
     w_conn := Some ConnOpen;
     w_index := Some {| ix_mapping := PDict []; ix_docs := [] |};
     w_log := []; w_extracted := [] |}.

Definition kathmandu_ward_5_ne : admin_boundary :=
  {| ab_id := 2706; ab_name := Some "Kathmandu-०५"; ab_name_ne := None;
     ab_admin_level := Some 9; ab_boundary_type := Some "administrative";
     ab_geom := None;
     ab_centroid := Some (85.32, 27.71)%float;
     ab_tags := PNone |}.

(** ['7' * 4301] *)
Definition digits_4301 : string :=
  string_of_list_ascii (repeat "7"%char 4301).

Definition long_ward : admin_boundary :=
  {| ab_id := 2799; ab_name := Some ("Ward-" +:+ digits_4301);
     ab_name_ne := None;
     ab_admin_level := Some 9; ab_boundary_type := Some "administrative";
     ab_geom := None; ab_centroid := None; ab_tags := PNone |}.

(** The world after the set-up of a run on the store whose first place
    has a JSON array as tags. *)
Definition after_setup : world :=
  snd ((connect_db ;; create_index)
         (add_log (INFO, Starting) (fresh mapping_file db_with_listed_place))).

(** a municipality *)
Definition pokhara_metro : admin_boundary :=
  {| ab_id := 401; ab_name := Some "Pokhara"; ab_name_ne := Some "Pokhara Mahanagar";
     ab_admin_level := Some 7; ab_boundary_type := Some "administrative";
     ab_geom := None;
     ab_centroid := Some (83.98, 28.21)%float; ab_tags := PNone |}.

(** a place whose tags came as a mapping, with an English name *)
Definition baidam : place :=
  {| pl_id := 5; pl_name := Some "Baidam"; pl_name_ne := None;
     pl_place_type := Some "suburb"; pl_admin_level := None;
     pl_geom := Some (83.98, 28.21)%float; pl_ward := None;
     pl_municipality := Some "Pokhara"; pl_district := Some "Kaski";
     pl_province := Some "Gandaki";
     pl_tags := PDict [("name:en", PStr "Lakeside")] |}.

(** Before a run, with the source out of reach. *)
Definition unreachable : world :=
  {| w_es_index := "nepal_locations";
     w_local_mapping := "scripts/../elasticsearch/mappings/nepal_locations.json";
     w_files := mapping_file; w_db_up := false; w_db := db;
     w_conn := None; w_index := None; w_log := []; w_extracted := [] |}.

(** Before a run on the store whose first place stops its builder, with an
    index left by an earlier run. *)
Definition stale : world :=
  {| w_es_index := "nepal_locations";
     w_local_mapping := "scripts/../elasticsearch/mappings/nepal_locations.json";
     w_files := mapping_file; w_db_up := true; w_db := db_with_listed_place;
     w_conn := None;
     w_index := Some {| ix_mapping := PDict [];
                        ix_docs := [ {| _index := "nepal_locations";
                                        _id := PStr "place_1";
                                        _source := ∅ |} ] |};
     w_log := []; w_extracted := [] |}.

(** A sink that takes a document unless its [location] has a latitude
    outside of -90 to 90, which a [geo_point] field refuses. *)
Definition geo_point_ok (source : gmap string pyval) : bool :=
  match get source "location" with
  | PDict d =>
      match dict_lookup d "lat" with
      | Some (PFloat lat) =>
          PrimFloat.leb (-90)%float lat && PrimFloat.leb lat 90%float
      | _ => false
      end
  | _ => true
  end.

Definition checking : Collaborators :=
  {| point := lonlat; polygon := box;
     ST_X := fst; ST_Y := snd;
     ST_AsText := as_text; ST_GeomFromText := from_text;
     ST_Contains := in_box; json_loads := loads;
     index_accepts := fun _ source => geo_point_ok source |}.

(** The tables and the world of that sink. *)
Definition surveyed_place (id : Z) (name kind district : string)
    (geom : lonlat) : @place checking :=
  @Build_place checking id (Some name) None (Some kind) None (Some geom)
    None None (Some district) (Some "Gandaki") PNone.

(** Three places, the second with its longitude and latitude exchanged. *)
Definition surveyed_places : list (@place checking) :=
  [ surveyed_place 1 "Pokhara" "city" "Kaski" (83.98, 28.21)%float;
    surveyed_place 5 "Jomsom" "town" "Mustang" (28.78, 93.72)%float;
    surveyed_place 3 "Besisahar" "town" "Lamjung" (84.38, 28.23)%float ].

Definition surveyed : @world checking :=
  @Build_world checking "nepal_locations"
    "scripts/../elasticsearch/mappings/nepal_locations.json"
    mapping_file true
    (@Build_database checking surveyed_places [] [] [])
    (Some ConnOpen)
    (Some {| ix_mapping := PDict []; ix_docs := [] |})
    [] [].

End Sample.

Section Properties.
Context `{Collaborators}.

(** * Properties *)

Local Arguments String.append !_ _ / : simpl nomatch.

(** ** Strings *)

Lemma append_assoc (a b c : string) : (a +:+ b) +:+ c = a +:+ (b +:+ c).
Proof. induction a as [|x a IH]; simpl; [reflexivity | now rewrite IH]. Qed.

Lemma append_nil_r (a : string) : a +:+ EmptyString = a.
Proof. induction a as [|x a IH]; simpl; [reflexivity | now rewrite IH]. Qed.

Lemma append_length (a b : string) :
  String.length (a +:+ b) = (String.length a + String.length b)%nat.
Proof. induction a as [|x a IH]; simpl; [reflexivity | now rewrite IH]. Qed.

Lemma append_inv_head (a b c : string) : a +:+ b = a +:+ c -> b = c.
Proof.
  induction a as [|x a IH]; simpl; [tauto|]. intros [= E]. exact (IH E).
Qed.

Lemma all_bytes_append (P : ascii -> bool) (a b : string) :
  all_bytes P (a +:+ b) = all_bytes P a && all_bytes P b.
Proof.
  induction a as [|x a IH]; simpl; [reflexivity|].
  now rewrite IH, andb_assoc.
Qed.

Lemma text_app (a b : list string) : text (a ++ b) = text a +:+ text b.
Proof.
  induction a as [|x a IH]; simpl; [reflexivity|].
  now rewrite IH, append_assoc.
Qed.

(** Induction on the length of a string. *)
Lemma string_length_ind (P : string -> Prop) :
  (forall s, (forall r, (String.length r < String.length s)%nat -> P r) -> P s) ->
  forall s, P s.
Proof.
  intros Hstep s. remember (String.length s) as n eqn:E.
  revert s E. induction n as [n IH] using lt_wf_ind. intros s ->.
  apply Hstep. intros r Hr. exact (IH _ Hr r eq_refl).
Qed.

(** ** Characters *)

Lemma span_continuation_spec (n : nat) (s t r : string) :
  span_continuation n s = (t, r) ->
  s = t +:+ r /\ all_bytes is_continuation t = true /\
  (String.length t <= n)%nat.
Proof.
  revert s t r. induction n as [|n IH]; intros s t r; simpl.
  - destruct s; intros [= <- <-]; repeat split; simpl; lia.
  - destruct s as [|b s]; [intros [= <- <-]; repeat split; simpl; lia|].
    destruct (is_continuation b) eqn:Hb.
    + destruct (span_continuation n s) as [t' r'] eqn:E.
      intros [= <- <-]. destruct (IH _ _ _ E) as (-> & Ht & Hl).
      simpl. rewrite Hb, Ht. repeat split. lia.
    + intros [= <- <-]. repeat split. simpl. lia.
Qed.

Lemma span_continuation_app (n : nat) (x y t r : string) :
  starts_char y ->
  span_continuation n x = (t, r) ->
  span_continuation n (x +:+ y) = (t, r +:+ y).
Proof.
  intros Hy. revert x t r. induction n as [|n IH]; intros x t r; simpl.
  - destruct x; intros [= <- <-]; reflexivity.
  - destruct x as [|b x]; simpl.
    + intros [= <- <-]. destruct y as [|c y]; [reflexivity|].
      simpl in Hy. now rewrite Hy.
    + destruct (is_continuation b).
      * destruct (span_continuation n x) as [t' r'] eqn:E.
        intros [= <- <-]. now rewrite (IH _ _ _ E).
      * intros [= <- <-]. reflexivity.
Qed.

(** Spare fuel changes nothing. *)
Lemma chars_upto_enough (n m : nat) (s : string) :
  (String.length s <= n)%nat -> (String.length s <= m)%nat ->
  chars_upto n s = chars_upto m s.
Proof.
  revert m s. induction n as [|n IH]; intros m s Hn Hm.
  - destruct s; [|simpl in Hn; lia]. now destruct m.
  - destruct s as [|b s]; [now destruct m|].
    destruct m as [|m]; [simpl in Hm; lia|]. simpl in *.
    destruct (span_continuation (continuation_count b) s) as [t r] eqn:E.
    destruct (span_continuation_spec _ _ _ _ E) as (-> & _ & _).
    rewrite append_length in Hn, Hm. f_equal. apply IH; lia.
Qed.

Lemma chars_cons (b : ascii) (s t r : string) :
  span_continuation (continuation_count b) s = (t, r) ->
  chars (String b s) = String b t :: chars r.
Proof.
  intros E. unfold chars. simpl. rewrite E. f_equal.
  destruct (span_continuation_spec _ _ _ _ E) as (-> & _ & _).
  apply chars_upto_enough; [rewrite append_length|]; lia.
Qed.

(** A byte that announces no continuation is a character of its own. *)
Lemma chars_single (b : ascii) (s : string) :
  continuation_count b = 0%nat ->
  chars (String b s) = String b EmptyString :: chars s.
Proof. intros Hb. apply chars_cons. now rewrite Hb; destruct s. Qed.

Lemma text_chars (s : string) : text (chars s) = s.
Proof.
  induction s as [s IH] using string_length_ind.
  destruct s as [|b s]; [reflexivity|].
  destruct (span_continuation (continuation_count b) s) as [t r] eqn:E.
  rewrite (chars_cons _ _ _ _ E).
  destruct (span_continuation_spec _ _ _ _ E) as (-> & _ & _).
  simpl. rewrite IH; [reflexivity|]. simpl. rewrite append_length. lia.
Qed.

Lemma chars_not_empty (s : string) : Forall (fun c => c <> EmptyString) (chars s).
Proof.
  induction s as [s IH] using string_length_ind.
  destruct s as [|b s]; [constructor|].
  destruct (span_continuation (continuation_count b) s) as [t r] eqn:E.
  rewrite (chars_cons _ _ _ _ E).
  destruct (span_continuation_spec _ _ _ _ E) as (-> & _ & _).
  constructor; [discriminate|]. apply IH. simpl. rewrite append_length. lia.
Qed.

Lemma chars_nil (s : string) : chars s = [] -> s = EmptyString.
Proof. intros E. rewrite <- (text_chars s), E. reflexivity. Qed.

Lemma chars_length (s : string) : (length (chars s) <= String.length s)%nat.
Proof.
  induction s as [s IH] using string_length_ind.
  destruct s as [|b s]; [simpl; lia|].
  destruct (span_continuation (continuation_count b) s) as [t r] eqn:E.
  rewrite (chars_cons _ _ _ _ E).
  destruct (span_continuation_spec _ _ _ _ E) as (-> & _ & _).
  simpl. rewrite append_length.
  assert (Hr : (length (chars r) <= String.length r)%nat)
    by (apply IH; simpl; rewrite append_length; lia).
  lia.
Qed.

(** The characters of [x +:+ y] are those of [x], then those of [y], when
    [y] does not begin inside a character. *)
Lemma chars_app (x y : string) :
  starts_char y -> chars (x +:+ y) = chars x ++ chars y.
Proof.
  intros Hy. induction x as [x IH] using string_length_ind.
  destruct x as [|b x]; [reflexivity|].
  destruct (span_continuation (continuation_count b) x) as [t r] eqn:E.
  simpl String.append.
  rewrite (chars_cons _ _ _ _ (span_continuation_app _ _ _ _ _ Hy E)).
  rewrite (chars_cons _ _ _ _ E).
  destruct (span_continuation_spec _ _ _ _ E) as (-> & _ & _).
  simpl. f_equal. apply IH. simpl. rewrite append_length. lia.
Qed.

(** Every character is a lead byte with continuation bytes, and a byte
    that announces none stands alone. *)
Lemma chars_shape (s c : string) :
  c ∈ chars s ->
  exists b t, c = String b t /\ all_bytes is_continuation t = true /\
    (continuation_count b = 0%nat -> t = EmptyString).
Proof.
  induction s as [s IH] using string_length_ind.
  destruct s as [|b s]; [intros Hc; inversion Hc|].
  destruct (span_continuation (continuation_count b) s) as [t r] eqn:E.
  rewrite (chars_cons _ _ _ _ E).
  destruct (span_continuation_spec _ _ _ _ E) as (-> & Ht & Hl).
  intros Hc. apply elem_of_cons in Hc as [-> | Hc].
  - exists b, t. repeat split; [exact Ht|]. intros Hb. rewrite Hb in Hl.
    destruct t; [reflexivity | simpl in Hl; lia].
  - apply (IH r); [|exact Hc]. simpl. rewrite append_length. lia.
Qed.

(** Two splits of one list of characters at the same byte are the same
    split. *)
Lemma text_split_inj (a a' b b' : list string) :
  Forall (fun c => c <> EmptyString) (a ++ b) ->
  a ++ b = a' ++ b' -> text a = text a' -> a = a' /\ b = b'.
Proof.
  revert a'. induction a as [|x a IH]; intros a' Hne E Et.
  - destruct a' as [|x' a']; [now split|]. simpl in E. subst b.
    apply Forall_cons in Hne as [Hx' _]. simpl in Et.
    destruct x'; [congruence | discriminate].
  - destruct a' as [|x' a'].
    + simpl in Et. destruct x; [|discriminate].
      apply Forall_cons in Hne as [Hx _]. congruence.
    + simpl in E. injection E as <- E. simpl in Et.
      apply append_inv_head in Et. apply Forall_cons in Hne as [_ Hne].
      destruct (IH a' Hne E Et) as [-> ->]. now split.
Qed.

(** The characters of a name written [m-d], with or without a newline
    after it. *)
Lemma ward_chars (m d nl : string) :
  line_end nl ->
  chars (m +:+ "-" +:+ d +:+ nl) = chars m ++ "-" :: chars d ++ chars nl.
Proof.
  intros Hnl. rewrite (chars_app m); [|reflexivity]. f_equal.
  change ("-" +:+ d +:+ nl) with (String "-" (d +:+ nl)).
  rewrite chars_single by reflexivity. f_equal.
  apply chars_app. destruct Hnl as [-> | ->]; reflexivity.
Qed.

(** A digit holds neither a hyphen nor a newline. *)
Lemma plain_char (s c : string) :
  c ∈ chars s -> Re.is_digit c = true -> all_bytes plain_byte c = true.
Proof.
  intros Hc Hd. destruct (chars_shape _ _ Hc) as (b & t & -> & Ht & Hb).
  assert (Htp : all_bytes plain_byte t = true).
  { clear -Ht. induction t as [|x t IH]; [reflexivity|]. simpl in *.
    apply andb_true_iff in Ht as [Hx Ht]. rewrite (IH Ht), andb_true_r.
    unfold plain_byte.
    destruct (Ascii.eqb x "-") eqn:E1;
      [apply Ascii.eqb_eq in E1 as ->; discriminate Hx|].
    destruct (Ascii.eqb x Re.newline) eqn:E2;
      [apply Ascii.eqb_eq in E2 as ->; discriminate Hx|].
    reflexivity. }
  simpl. rewrite Htp, andb_true_r. unfold plain_byte.
  destruct (Ascii.eqb b "-") eqn:E1.
  { apply Ascii.eqb_eq in E1 as ->. rewrite (Hb eq_refl) in Hd.
    discriminate Hd. }
  destruct (Ascii.eqb b Re.newline) eqn:E2.
  { apply Ascii.eqb_eq in E2 as ->. rewrite (Hb eq_refl) in Hd.
    discriminate Hd. }
  reflexivity.
Qed.

Lemma digits_plain (d : string) :
  all_chars Re.is_digit d = true -> all_bytes plain_byte d = true.
Proof.
  unfold all_chars. intros Hd.
  assert (Hall : forall l, (forall c, c ∈ l -> c ∈ chars d) ->
                        forallb Re.is_digit l = true ->
                        all_bytes plain_byte (text l) = true).
  { induction l as [|c l IH]; intros Hin Hl; [reflexivity|]. simpl in *.
    apply andb_true_iff in Hl as [Hc Hl]. rewrite all_bytes_append.
    rewrite (plain_char d c), IH; auto.
    - intros c' Hc'. apply Hin. now right.
    - apply Hin. now left. }
  rewrite <- (text_chars d). apply Hall; auto.
Qed.

(** ** The regular expression engine *)

Section Greedy.
Variable k : nat -> list string -> Re.marks -> option Re.marks.
Variable cs : Re.charset.

(** A greedy repeat that succeeds has taken some run [a] of characters of
    the set and handed the rest to the continuation. *)
Lemma repeat_greedy_sound (rest : list string) :
  forall pos mk m,
    Re.repeat_greedy k cs pos rest mk = Some m ->
    exists a b, rest = a ++ b /\
      forallb (Re.charset_has cs) a = true /\
      k (pos + length a)%nat b mk = Some m.
Proof.
  induction rest as [|c rest IH]; intros pos mk m; simpl.
  - intros Hk. exists [], []. simpl. now rewrite Nat.add_0_r.
  - destruct (Re.charset_has cs c) eqn:Hc.
    + destruct (Re.repeat_greedy k cs (S pos) rest mk) as [m'|] eqn:Hrec.
      * intros [= <-]. destruct (IH _ _ _ Hrec) as (a & b & -> & Ha & Hk).
        exists (c :: a), b. simpl. rewrite Hc, Ha.
        now rewrite Nat.add_succ_r.
      * intros Hk. exists [], (c :: rest). simpl.
        now rewrite Nat.add_0_r.
    + intros Hk. exists [], (c :: rest). simpl.
      now rewrite Nat.add_0_r.
Qed.

(** If the continuation succeeds after some run of characters of the set,
    the greedy repeat succeeds (possibly after a longer run). *)
Lemma repeat_greedy_complete (a : list string) :
  forall b pos mk,
    forallb (Re.charset_has cs) a = true ->
    is_Some (k (pos + length a)%nat b mk) ->
    is_Some (Re.repeat_greedy k cs pos (a ++ b) mk).
Proof.
  induction a as [|c a IH]; intros b pos mk Ha Hk; simpl in *.
  - rewrite Nat.add_0_r in Hk.
    destruct b as [|c b]; simpl; [exact Hk|].
    destruct (Re.charset_has cs c); [|exact Hk].
    destruct (Re.repeat_greedy k cs (S pos) b mk); [eauto | exact Hk].
  - apply andb_true_iff in Ha as [Hc Ha]. rewrite Hc.
    rewrite Nat.add_succ_r in Hk.
    destruct (IH b (S pos) mk Ha Hk) as [m Hm]. rewrite Hm. eauto.
Qed.
End Greedy.


(** ** The ward pattern *)

Lemma at_end_text (cs : list string) : Re.at_end cs = true -> line_end (text cs).
Proof.
  unfold line_end. destruct cs as [|c [|c' cs]]; simpl.
  - now left.
  - intros Hc. apply String.eqb_eq in Hc as ->. now right.
  - discriminate.
Qed.

Lemma at_end_chars (nl : string) : line_end nl -> Re.at_end (chars nl) = true.
Proof. intros [-> | ->]; reflexivity. Qed.

Lemma ward_exec_sound (s : string) (mk : Re.marks) :
  Re.exec ward_pattern 0 (chars s) [] = Some mk ->
  exists m d, ward_name s m d /\ mk = ward_marks m d.
Proof.
  unfold ward_pattern. cbn [Re.exec Nat.eqb].
  assert (Hs := text_chars s). assert (Hne := chars_not_empty s).
  destruct (chars s) as [|c cs] eqn:Ecs; [discriminate|].
  destruct (Re.charset_has Re.ANY c) eqn:Hc; [|discriminate].
  intros Hr. apply repeat_greedy_sound in Hr as (a & b & -> & Ha & Hk).
  cbn [Re.exec] in Hk.
  destruct b as [|h b]; [discriminate|].
  destruct (Re.charset_has (Re.LITERAL "-") h) eqn:Hh; [|discriminate].
  simpl in Hh. apply String.eqb_eq in Hh as ->.
  destruct b as [|c2 b]; [discriminate|].
  destruct (Re.charset_has Re.CATEGORY_DIGIT c2) eqn:Hc2; [|discriminate].
  apply repeat_greedy_sound in Hk as (a2 & b2 & -> & Ha2 & Hk).
  destruct (Re.at_end b2) eqn:Hend; [|discriminate].
  injection Hk as <-.
  change (c :: a ++ "-" :: c2 :: a2 ++ b2)
    with ((c :: a) ++ "-" :: (c2 :: a2) ++ b2) in *.
  remember (c :: a) as cm eqn:Ecm. remember (c2 :: a2) as cd eqn:Ecd.
  assert (Hnl : line_end (text b2)) by exact (at_end_text _ Hend).
  assert (Es : s = text cm +:+ "-" +:+ text cd +:+ text b2).
  { rewrite <- Hs. change (cm ++ "-" :: cd ++ b2) with (cm ++ ["-"] ++ cd ++ b2).
    rewrite !text_app. reflexivity. }
  assert (Ec : cm ++ "-" :: cd ++ b2
               = chars (text cm) ++ "-" :: chars (text cd) ++ chars (text b2)).
  { rewrite <- ward_chars, <- Es by exact Hnl. now symmetry. }
  destruct (text_split_inj _ _ _ _ Hne Ec) as [Em Ec'];
    [now rewrite text_chars|].
  injection Ec' as Ec'.
  apply Forall_app in Hne as [_ Hne]. apply Forall_cons in Hne as [_ Hne].
  destruct (text_split_inj _ _ _ _ Hne Ec') as [Ed _];
    [now rewrite text_chars|].
  exists (text cm), (text cd). split.
  - exists (text b2). split; [exact Es|]. split; [exact Hnl|].
    unfold all_chars. rewrite <- Em, <- Ed. repeat split.
    + intros E. rewrite E, Ecm in Em. discriminate Em.
    + rewrite Ecm. cbn [forallb]. now rewrite Hc, Ha.
    + intros E. rewrite E, Ecd in Ed. discriminate Ed.
    + rewrite Ecd. cbn [forallb].
      change (Re.is_digit c2 && forallb (Re.charset_has Re.CATEGORY_DIGIT) a2 = true).
      change (Re.charset_has Re.CATEGORY_DIGIT c2) with (Re.is_digit c2) in Hc2.
      now rewrite Hc2, Ha2.
  - unfold ward_marks. rewrite <- Em, <- Ed, Ecm, Ecd. simpl length.
    repeat f_equal; lia.
Qed.

Lemma ward_exec_complete (s m d : string) :
  ward_name s m d -> is_Some (Re.exec ward_pattern 0 (chars s) []).
Proof.
  intros (nl & -> & Hnl & Hm & Hma & Hd & Hda).
  rewrite ward_chars by exact Hnl. unfold all_chars in Hma, Hda.
  destruct (chars m) as [|c cm] eqn:Em; [now apply chars_nil in Em|].
  destruct (chars d) as [|c2 cd] eqn:Ed; [now apply chars_nil in Ed|].
  cbn [forallb] in Hma, Hda.
  apply andb_true_iff in Hma as [Hc Hma]. apply andb_true_iff in Hda as [Hc2 Hda].
  unfold ward_pattern. cbn [Re.exec Nat.eqb app]. rewrite Hc.
  apply repeat_greedy_complete; [exact Hma|]. cbv beta iota.
  change (Re.charset_has (Re.LITERAL "-") "-") with true. cbv iota.
  change (Re.charset_has Re.CATEGORY_DIGIT c2) with (Re.is_digit c2).
  rewrite Hc2.
  apply repeat_greedy_complete; [exact Hda|].
  rewrite (at_end_chars _ Hnl). eauto.
Qed.

(** The groups read off the marks are the two parts of the name. *)
Lemma ward_groups (s m d : string) :
  ward_name s m d ->
  let mo := {| Re.subject := chars s; Re.spans := ward_marks m d |} in
  Re.group mo 1 = m /\ Re.group mo 2 = d.
Proof.
  intros (nl & -> & Hnl & _). unfold Re.group, ward_marks.
  rewrite ward_chars by exact Hnl.
  cbn [Re.mark_pos Re.spans Re.subject Nat.eqb Nat.mul Nat.sub Nat.add drop].
  split.
  - rewrite Nat.sub_0_r, drop_0, take_app_length. apply text_chars.
  - replace (length (chars m) + 1 + length (chars d) - (length (chars m) + 1))%nat
      with (length (chars d)) by lia.
    replace (chars m ++ "-" :: chars d ++ chars nl)
      with ((chars m ++ ["-"]) ++ chars d ++ chars nl)
      by now rewrite <- app_assoc.
    rewrite drop_app_length' by (rewrite length_app; simpl; lia).
    rewrite take_app_length. apply text_chars.
Qed.

(** What stands before the final hyphen of a ward name is its municipality
    part: digits hold no hyphen. *)
Lemma rpartition_plain (d nl : string) :
  all_bytes plain_byte d = true -> line_end nl ->
  rpartition_hyphen (d +:+ nl) = None.
Proof.
  intros Hd Hnl. induction d as [|c d IH]; simpl.
  - destruct Hnl as [-> | ->]; reflexivity.
  - simpl in Hd. apply andb_true_iff in Hd as [Hc Hd]. rewrite (IH Hd).
    destruct (Ascii.eqb c "-") eqn:E; [|reflexivity].
    apply Ascii.eqb_eq in E as ->. discriminate.
Qed.

Lemma ward_name_rpartition (s m d : string) :
  ward_name s m d ->
  exists nl, line_end nl /\ rpartition_hyphen s = Some (m, d +:+ nl).
Proof.
  intros (nl & -> & Hnl & _ & _ & _ & Hd). exists nl. split; [exact Hnl|].
  apply digits_plain in Hd.
  induction m as [|c m IH].
  - simpl. now rewrite rpartition_plain.
  - change (rpartition_hyphen (String c (m +:+ "-" +:+ d +:+ nl))
            = Some (String c m, d +:+ nl)).
    cbn [rpartition_hyphen]. now rewrite IH.
Qed.

Lemma plain_line_end_inj (d d' nl nl' : string) :
  all_bytes plain_byte d = true -> all_bytes plain_byte d' = true ->
  line_end nl -> line_end nl' ->
  d +:+ nl = d' +:+ nl' -> d = d'.
Proof.
  revert d'. induction d as [|c d IH]; intros d' Hd Hd' Hnl Hnl' E.
  - destruct d' as [|c' d']; [reflexivity|]. simpl in *.
    apply andb_true_iff in Hd' as [Hc' _].
    destruct Hnl as [-> | ->]; [discriminate|].
    injection E as <- _. discriminate.
  - destruct d' as [|c' d']; simpl in *.
    + apply andb_true_iff in Hd as [Hc _].
      destruct Hnl' as [-> | ->]; [discriminate|].
      injection E as -> _. discriminate.
    + apply andb_true_iff in Hd as [_ Hd]. apply andb_true_iff in Hd' as [_ Hd'].
      injection E as -> E. f_equal. eauto.
Qed.

Lemma ward_name_unique (s m d m' d' : string) :
  ward_name s m d -> ward_name s m' d' -> m = m' /\ d = d'.
Proof.
  intros W W'.
  destruct (ward_name_rpartition _ _ _ W) as (nl & Hnl & E).
  destruct (ward_name_rpartition _ _ _ W') as (nl' & Hnl' & E').
  rewrite E in E'. injection E' as -> E'. split; [reflexivity|].
  destruct W as (_ & _ & _ & _ & _ & _ & Hd).
  destruct W' as (_ & _ & _ & _ & _ & _ & Hd').
  apply digits_plain in Hd, Hd'.
  exact (plain_line_end_inj d d' nl nl' Hd Hd' Hnl Hnl' E').
Qed.

(** [re.match] on the ward pattern: it succeeds exactly on the ward names,
    and then its groups are the two parts. *)
Lemma ward_match_Some (s m d : string) :
  ward_name s m d ->
  exists mo, Re.re_match ward_pattern s = Some mo /\
    Re.group mo 1 = m /\ Re.group mo 2 = d.
Proof.
  intros W. unfold Re.re_match.
  destruct (ward_exec_complete _ _ _ W) as [mk Hmk]. rewrite Hmk.
  destruct (ward_exec_sound _ _ Hmk) as (m' & d' & W' & ->).
  destruct (ward_name_unique _ _ _ _ _ W W') as [<- <-].
  eexists. split; [reflexivity|]. now apply ward_groups.
Qed.

Lemma ward_match_None (s : string) :
  (forall m d, ~ ward_name s m d) -> Re.re_match ward_pattern s = None.
Proof.
  intros Hno. unfold Re.re_match.
  destruct (Re.exec ward_pattern 0 (chars s) []) as [mk|] eqn:Hmk; [|reflexivity].
  destruct (ward_exec_sound _ _ Hmk) as (m & d & W & _).
  now destruct (Hno m d).
Qed.

(** ** Reading a number *)

(** A decimal digit has a value from 0 to 9. *)
Lemma decimal_range (c : string) (v : Z) : decimal c = Some v -> 0 <= v <= 9.
Proof.
  unfold decimal. destruct (code_point c) as [cp|]; [|discriminate].
  destruct (find _ _) as [z|] eqn:E; [|discriminate].
  apply find_some in E as [_ E]. apply andb_true_iff in E as [Hlo Hhi].
  apply N.leb_le in Hlo. apply N.ltb_lt in Hhi. intros [= <-]. lia.
Qed.

Lemma numeral_of_total (cs : list string) :
  forallb Re.is_digit cs = true -> is_Some (numeral_of cs).
Proof.
  induction cs as [|c cs IH]; simpl; [eauto|].
  intros Hcs. apply andb_true_iff in Hcs as [Hc Hcs].
  unfold Re.is_digit in Hc. destruct (decimal c); [|discriminate].
  destruct (IH Hcs) as [u ->]. eauto.
Qed.

(** The model's [int] reads a numeral as the standard library does. *)
Lemma int_digits_numeral_acc (cs : list string) (u : Decimal.uint) (acc : positive) :
  numeral_of cs = Some u ->
  int_digits cs (Z.pos acc) = Some (Z.pos (Pos.of_uint_acc u acc)).
Proof.
  revert u acc. induction cs as [|c cs IH]; intros u acc; simpl.
  - intros [= <-]. reflexivity.
  - destruct (decimal c) as [v|] eqn:Ev; [|discriminate].
    destruct (numeral_of cs) as [u'|] eqn:Eu; [|discriminate].
    intros [= <-]. apply decimal_range in Ev.
    assert (Hv : v = 0 \/ v = 1 \/ v = 2 \/ v = 3 \/ v = 4 \/ v = 5 \/ v = 6
                 \/ v = 7 \/ v = 8 \/ v = 9) by lia.
    destruct Hv as [-> | [-> | [-> | [-> | [-> | [-> | [-> | [-> | [-> | ->]]]]]]]]];
      cbn [digit_of Pos.of_uint_acc];
      rewrite <- (IH u' _ eq_refl); f_equal; lia.
Qed.

Lemma int_digits_numeral (cs : list string) (u : Decimal.uint) :
  numeral_of cs = Some u ->
  int_digits cs 0 = Some (Z.of_uint u).
Proof.
  revert u. induction cs as [|c cs IH]; intros u; simpl.
  - intros [= <-]. reflexivity.
  - destruct (decimal c) as [v|] eqn:Ev; [|discriminate].
    destruct (numeral_of cs) as [u'|] eqn:Eu; [|discriminate].
    intros [= <-]. apply decimal_range in Ev.
    assert (Hv : v = 0 \/ v = 1 \/ v = 2 \/ v = 3 \/ v = 4 \/ v = 5 \/ v = 6
                 \/ v = 7 \/ v = 8 \/ v = 9) by lia.
    destruct Hv as [-> | [-> | [-> | [-> | [-> | [-> | [-> | [-> | [-> | ->]]]]]]]]];
      cbn [digit_of]; unfold Z.of_uint; cbn [Pos.of_uint Z.of_N];
      [ exact (IH u' eq_refl)
      | exact (int_digits_numeral_acc cs u' _ Eu) .. ].
Qed.

(** [int] on a non-empty run of digits, through the numeral they spell. *)
Lemma py_int_numeral (d : string) :
  d <> EmptyString -> all_chars Re.is_digit d = true ->
  exists u, numeral d = Some u /\
    py_int d = if (length (chars d) <=? 4300)%nat then Ok (Z.of_uint u)
               else Raise ValueError.
Proof.
  intros Hne Hd. unfold all_chars in Hd.
  destruct (numeral_of_total _ Hd) as [u Hu]. exists u. split; [exact Hu|].
  unfold py_int, int_max_str_digits.
  destruct (chars d) as [|c cs] eqn:E; [now apply chars_nil in E|].
  rewrite (int_digits_numeral _ _ Hu).
  destruct (Nat.leb_spec (length (c :: cs)) 4300) as [Hle|Hgt].
  - now rewrite (proj2 (Nat.ltb_ge _ _) Hle).
  - now rewrite (proj2 (Nat.ltb_lt _ _) Hgt).
Qed.

(** ** Digits, as a reader of the name sees them *)

Lemma decimal_sound (c : string) (k : Z) : decimal c = Some k -> digit_char c k.
Proof.
  unfold decimal, code_point.
  set (cp := match N_of_ascii <$> list_ascii_of_string c with
             | [] => _ | _ => _ end).
  destruct (String.eqb (utf8 cp) c) eqn:Ec; [|discriminate].
  apply String.eqb_eq in Ec.
  destruct (find _ _) as [z|] eqn:E; [|discriminate].
  apply find_some in E as [Hz E]. apply andb_true_iff in E as [Hlo Hhi].
  apply N.leb_le in Hlo. apply N.ltb_lt in Hhi. intros [= <-].
  exists z. split; [exact Hz|]. split; [lia|].
  rewrite <- Ec. f_equal. lia.
Qed.

Lemma decimal_complete (c : string) (k : Z) : digit_char c k -> decimal c = Some k.
Proof.
  intros (z & Hz & Hk & ->).
  assert (Hall : forallb (fun z =>
            forallb (fun k => match decimal (utf8 (z + Z.to_N k)) with
                              | Some v => v =? k
                              | None => false
                              end)
                    [0; 1; 2; 3; 4; 5; 6; 7; 8; 9]) decimal_zeros = true)
    by (vm_compute; reflexivity).
  rewrite forallb_forall in Hall. specialize (Hall z Hz).
  rewrite forallb_forall in Hall. specialize (Hall k).
  destruct (decimal (utf8 (z + Z.to_N k))) as [v|].
  - f_equal. apply Z.eqb_eq. apply Hall. simpl. lia.
  - exfalso. apply diff_false_true. apply Hall. simpl. lia.
Qed.

(** The digits the model reads are digits to the reader, with the same
    values. *)
Lemma numeral_of_digit_chars (cs : list string) :
  forallb Re.is_digit cs = true ->
  exists ks, Forall2 digit_char cs ks /\ numeral_of cs = Some (uint_of ks).
Proof.
  induction cs as [|c cs IH]; simpl.
  - intros _. exists []. split; [constructor | reflexivity].
  - intros Hcs. apply andb_true_iff in Hcs as [Hc Hcs].
    unfold Re.is_digit in Hc. destruct (decimal c) as [k|] eqn:Ek; [|discriminate].
    destruct (IH Hcs) as (ks & Hks & ->).
    exists (k :: ks). split; [|reflexivity].
    constructor; [now apply decimal_sound | exact Hks].
Qed.

Lemma digit_chars_decimal (cs : list string) (ks : list Z) :
  Forall2 digit_char cs ks -> Forall2 (fun c k => decimal c = Some k) cs ks.
Proof.
  intros Hf. eapply Forall2_impl; [exact Hf | exact decimal_complete].
Qed.

(** [int] reads every non-empty run of at most 4300 digits, and gives the
    number that the digits spell; a longer run is refused. *)
Lemma py_int_digits (d : string) :
  d <> EmptyString -> all_chars Re.is_digit d = true ->
  exists ks, Forall2 digit_char (chars d) ks /\
    py_int d = if (length ks <=? 4300)%nat then Ok (Z.of_uint (uint_of ks))
               else Raise ValueError.
Proof.
  intros Hne Hd.
  destruct (py_int_numeral d Hne Hd) as (u & Hu & Hint).
  destruct (numeral_of_digit_chars _ Hd) as (ks & Hks & Hu').
  unfold numeral in Hu. rewrite Hu' in Hu. injection Hu as <-.
  exists ks. split; [exact Hks|].
  now rewrite <- (Forall2_length _ _ _ Hks).
Qed.



(** ** Rows *)

Lemma admin_row_name (a : admin_boundary) :
  get (admin_row a) "name" = sql_text (ab_name a).
Proof. reflexivity. Qed.

Lemma admin_row_level (a : admin_boundary) :
  get (admin_row a) "admin_level" = sql_int (ab_admin_level a).
Proof. reflexivity. Qed.

Lemma admin_row_centroid (a : admin_boundary) :
  get (admin_row a) "centroid" = sql_text (ST_AsText <$> ab_centroid a).
Proof. reflexivity. Qed.

(** [name or ''] on a text column *)
Lemma name_or_empty (o : option string) :
  py_or (sql_text o) (PStr EmptyString) = PStr (default EmptyString o).
Proof. destruct o as [[|c s]|]; reflexivity. Qed.

(** ** The spatial parent lookup *)

(** The lookup never raises: whatever goes wrong inside is logged. *)
Lemma _get_parent_admin_total (centroid : pyval) (w : world) :
  exists r w', _get_parent_admin centroid w = (Ok r, w').
Proof.
  cbv [_get_parent_admin try_except bind cursor gets lift ret raise
         logger modify].
  destruct (w_conn w) as [[|]|]; simpl; eauto.
  destruct centroid as [| | | |wkt| |]; simpl; eauto.
  unfold parent_query. destruct (ST_GeomFromText wkt) as [pt|]; simpl; eauto.
  destruct (take 1 _) as [|r rows]; simpl; eauto.
Qed.



(** ** The hierarchy resolver *)

(** [k ∉ [k1; ...; kn]] for literal keys *)
Ltac other_key :=
  let Hin := fresh in
  intros Hin;
  repeat (apply elem_of_cons in Hin as [Hin|Hin]; [discriminate Hin|]);
  exact (proj1 (elem_of_nil _) Hin).

Lemma copy_from_other (parent : gmap string pyval) (keys : list string) (k : string) :
  k ∉ keys ->
  forall h : gmap string pyval, get (copy_from parent keys h) k = get h k.
Proof.
  unfold copy_from. induction keys as [|k' keys IH]; intros Hk h; simpl.
  - reflexivity.
  - apply not_elem_of_cons in Hk as [Hne Hk]. rewrite (IH Hk).
    unfold get. now rewrite lookup_insert_ne.
Qed.

Lemma resolve_parents_other (keys : list string) (centroid : pyval)
    (h : gmap string pyval) (w : world) :
  exists h' w', resolve_parents keys centroid h w = (Ok h', w') /\
    forall k, k ∉ keys -> get h' k = get h k.
Proof.
  unfold resolve_parents. destruct (truthy centroid).
  - destruct (_get_parent_admin_total centroid w) as (r & w' & E).
    unfold bind. rewrite E.
    destruct (parent_truthy r); unfold ret; do 2 eexists; split; eauto.
    intros k Hk. now apply copy_from_other.
  - unfold ret. eauto.
Qed.

Lemma _build_admin_hierarchy_ward (a : admin_boundary) :
  ab_admin_level a = Some 9 ->
  _build_admin_hierarchy (admin_row a)
  = resolve_parents ["district"; "district_ne"; "province"; "province_ne"]
      (get (admin_row a) "centroid")
      (ward_stage (default EmptyString (ab_name a))).
Proof.
  intros Hlevel. unfold _build_admin_hierarchy.
  rewrite admin_row_level, Hlevel, admin_row_name, name_or_empty.
  reflexivity.
Qed.

Lemma ward_stage_match (name m d : string) :
  ward_name name m d ->
  get (ward_stage name) "municipality" = PStr m /\
  get (ward_stage name) "municipality_ne" = PStr m /\
  get (ward_stage name) "ward"
  = match py_int d with Ok n => PInt n | Raise _ => PNone end.
Proof.
  intros W. destruct (ward_match_Some _ _ _ W) as (mo & E & G1 & G2).
  unfold ward_stage. rewrite E, G1, G2. destruct (py_int d); repeat split.
Qed.

Lemma ward_stage_no_match (name : string) :
  (forall m d, ~ ward_name name m d) ->
  get (ward_stage name) "municipality" = PNone /\
  get (ward_stage name) "municipality_ne" = PNone /\
  get (ward_stage name) "ward" = PNone.
Proof.
  intros Hno. unfold ward_stage. rewrite (ward_match_None _ Hno).
  repeat split.
Qed.

(** C1 (as the code has it). For a ward-level boundary (admin level 9) the
    hierarchy is always built, and: when the name reads
    [<municipality>-<digits>] (the pattern [^(.+)-(\d+)$], with digits of
    any script), [municipality] (and [municipality_ne]) is the part before
    the final hyphen, and [ward] is the number the digits spell in base
    ten (each digit being some character from a DIGIT ZERO to the ninth
    after it) when they are at most 4300 digits; [int] refuses a longer
    run, and [ward] then stays unset.  When the name does not read so,
    [municipality] and [ward] stay unset. *)
Theorem ward_hierarchy_from_name (a : admin_boundary) (w : world) :
  ab_admin_level a = Some 9 ->
  let name := default EmptyString (ab_name a) in
  exists h w',
    _build_admin_hierarchy (admin_row a) w = (Ok h, w') /\
    (forall m d, ward_name name m d ->
       get h "municipality" = PStr m /\
       (exists tail, rpartition_hyphen name = Some (m, tail)) /\
       exists ks, Forall2 digit_char (chars d) ks /\
         get h "ward" = if (length ks <=? 4300)%nat
                        then PInt (Z.of_uint (uint_of ks)) else PNone) /\
    ((forall m d, ~ ward_name name m d) ->
       get h "municipality" = PNone /\ get h "ward" = PNone).
Proof.
  intros Hlevel name. rewrite (_build_admin_hierarchy_ward a Hlevel).
  destruct (resolve_parents_other
              ["district"; "district_ne"; "province"; "province_ne"]
              (get (admin_row a) "centroid") (ward_stage name) w)
    as (h & w' & E & Hkeep).
  exists h, w'. split; [exact E|].
  assert (Hmun : get h "municipality" = get (ward_stage name) "municipality")
    by (apply Hkeep; other_key).
  assert (Hward : get h "ward" = get (ward_stage name) "ward")
    by (apply Hkeep; other_key).
  rewrite Hmun, Hward. split.
  - intros m d W.
    destruct (ward_stage_match _ _ _ W) as (Hm & _ & Hw).
    destruct (ward_name_rpartition _ _ _ W) as (nl & _ & Hr).
    destruct W as (_ & _ & _ & _ & _ & Hd & Hda).
    destruct (py_int_digits d Hd Hda) as (ks & Hks & Hint).
    split; [exact Hm|]. split; [eauto|]. exists ks. split; [exact Hks|].
    rewrite Hw, Hint. now destruct (length ks <=? 4300)%nat.
  - intros Hno. destruct (ward_stage_no_match _ Hno) as (Hm & _ & Hw).
    split; assumption.
Qed.



(** ** The spatial parent lookup, all or nothing *)

Lemma encloses_filter (db : database) (lvl : Z) (pt : point) (a : admin_boundary) :
  a ∈ filter (fun a => level_is lvl a && contains_point pt a = true)
             (admin_boundaries db)
  <-> encloses db lvl pt a.
Proof.
  rewrite list_elem_of_filter. unfold encloses, level_is, contains_point.
  rewrite andb_true_iff. split.
  - intros [[Hl Hc] Hin]. split; [exact Hin|].
    destruct (ab_admin_level a) as [z|]; [|discriminate].
    apply Z.eqb_eq in Hl as ->. split; [reflexivity|].
    destruct (ab_geom a) as [g|]; [|discriminate]. eauto.
  - intros (Hin & -> & g & -> & Hc). rewrite Z.eqb_refl. auto.
Qed.

Lemma parent_row_truthy (d p : admin_boundary) :
  dict_truthy (parent_row d p) = true.
Proof. reflexivity. Qed.

(** The rows of the cross join. *)
Lemma parent_query_rows (db : database) (wkt : string) (pt : point) :
  ST_GeomFromText wkt = Some pt ->
  exists rows, parent_query db wkt = Ok rows /\
    (forall r, r ∈ rows ->
       exists d p, encloses db 6 pt d /\ encloses db 4 pt p /\ r = parent_row d p) /\
    (rows = [] <->
       (~ exists d, encloses db 6 pt d) \/ (~ exists p, encloses db 4 pt p)).
Proof.
  intros Hpt. unfold parent_query. rewrite Hpt. eexists. split; [reflexivity|].
  pose proof (encloses_filter db 6 pt) as HD.
  pose proof (encloses_filter db 4 pt) as HP.
  destruct (filter (fun d => level_is 6 d && contains_point pt d = true)
                   (admin_boundaries db)) as [|d0 D] eqn:ED.
  - (* no district *)
    split.
    + intros r Hr. now apply elem_of_nil in Hr.
    + split; [|reflexivity]. intros _. left. intros [d Hd].
      apply HD in Hd. now apply elem_of_nil in Hd.
  - destruct (filter (fun p => level_is 4 p && contains_point pt p = true)
                     (admin_boundaries db)) as [|p0 P] eqn:EP.
    + (* no province *)
      assert (E : forall l : list admin_boundary,
                 l ≫= (fun d => ([] : list admin_boundary) ≫=
                          (fun p => [parent_row d p])) = [])
        by (induction l as [|x l IH]; [reflexivity | exact IH]).
      rewrite E. split.
      * intros r Hr. now apply elem_of_nil in Hr.
      * split; [|reflexivity]. intros _. right. intros [p Hp].
        apply HP in Hp. now apply elem_of_nil in Hp.
    + (* a district and a province: the first pair is the answer *)
      cbn. split.
      * intros r Hr. apply list_elem_of_singleton in Hr as ->.
        exists d0, p0.
        split; [apply HD; left | split; [apply HP; left | reflexivity]].
      * split; [discriminate|]. intros [Hno | Hno]; exfalso; apply Hno.
        -- exists d0. apply HD. left.
        -- exists p0. apply HP. left.
Qed.



Lemma _get_parent_admin_open (w : world) (wkt : string) (pt : point) :
  w_conn w = Some ConnOpen -> ST_GeomFromText wkt = Some pt ->
  exists rows, parent_query (w_db w) wkt = Ok rows /\
    _get_parent_admin (PStr wkt) w = (Ok (head rows), w).
Proof.
  intros Hconn Hpt.
  destruct (parent_query_rows (w_db w) wkt pt Hpt) as (rows & E & Hin & _).
  exists rows. split; [exact E|].
  cbv [_get_parent_admin try_except bind cursor gets lift ret raise
         logger modify].
  rewrite Hconn, E. destruct rows as [|r rows]; [reflexivity|].
  destruct (Hin r) as (d & p & _ & _ & ->); [left|].
  now rewrite parent_row_truthy.
Qed.

(** Without an open connection, or with a text the server rejects, the
    lookup answers nothing. *)
Lemma _get_parent_admin_failed (w : world) (wkt : string) :
  w_conn w <> Some ConnOpen \/ ST_GeomFromText wkt = None ->
  exists w', _get_parent_admin (PStr wkt) w = (Ok None, w').
Proof.
  intros Hbad.
  cbv [_get_parent_admin try_except bind cursor gets lift ret raise
         logger modify].
  destruct (w_conn w) as [[|]|]; simpl; eauto.
  destruct Hbad as [Hbad | Hbad]; [congruence|].
  unfold parent_query. rewrite Hbad. simpl. eauto.
Qed.

Lemma resolve_parents_nothing (keys : list string) (centroid : pyval)
    (h : gmap string pyval) (w w1 : world) :
  _get_parent_admin centroid w = (Ok None, w1) ->
  exists w', resolve_parents keys centroid h w = (Ok h, w').
Proof.
  intros E. unfold resolve_parents.
  destruct (truthy centroid); [|unfold ret; eauto].
  unfold bind. rewrite E. simpl. unfold ret. eauto.
Qed.

Lemma ward_stage_parents (name : string) :
  get (ward_stage name) "district" = PNone /\
  get (ward_stage name) "province" = PNone.
Proof.
  unfold ward_stage. destruct (Re.re_match ward_pattern name) as [m|].
  - destruct (py_int (Re.group m 2)); split; reflexivity.
  - split; reflexivity.
Qed.

Lemma _build_admin_hierarchy_municipality (a : admin_boundary) :
  ab_admin_level a = Some 7 ->
  _build_admin_hierarchy (admin_row a)
  = resolve_parents ["district"; "district_ne"; "province"; "province_ne"]
      (get (admin_row a) "centroid")
      (municipality_stage (get (admin_row a) "name") (get (admin_row a) "name_ne")).
Proof.
  intros Hlevel. unfold _build_admin_hierarchy.
  rewrite admin_row_level, Hlevel. reflexivity.
Qed.

(** C9. The spatial parent lookup never raises and resolves both ancestors
    or none: an answer names a district-level and a province-level boundary
    whose polygons both contain the point; when no district polygon, or no
    province polygon, contains the point the answer is nothing; with an open
    connection and a point inside a district and a province there is an
    answer.  When the answer is nothing, a municipality or ward whose
    centroid was looked up has neither [district] nor [province]. *)
Theorem parent_lookup_all_or_nothing (w : world) (wkt : string) :
  exists r w',
    _get_parent_admin (PStr wkt) w = (Ok r, w') /\
    (forall ph, r = Some ph ->
       exists pt d p,
         ST_GeomFromText wkt = Some pt /\
         encloses (w_db w) 6 pt d /\ encloses (w_db w) 4 pt p /\
         ph = parent_row d p) /\
    (forall pt, ST_GeomFromText wkt = Some pt ->
       (~ exists d, encloses (w_db w) 6 pt d) \/
       (~ exists p, encloses (w_db w) 4 pt p) ->
       r = None) /\
    (forall pt d p,
       w_conn w = Some ConnOpen -> ST_GeomFromText wkt = Some pt ->
       encloses (w_db w) 6 pt d -> encloses (w_db w) 4 pt p ->
       is_Some r) /\
    (forall a,
       ab_admin_level a = Some 7 \/ ab_admin_level a = Some 9 ->
       get (admin_row a) "centroid" = PStr wkt ->
       r = None ->
       exists h w'',
         _build_admin_hierarchy (admin_row a) w = (Ok h, w'') /\
         get h "district" = PNone /\ get h "province" = PNone).
Proof.
  assert (Hhier : forall w1,
    _get_parent_admin (PStr wkt) w = (Ok None, w1) ->
    forall a,
      ab_admin_level a = Some 7 \/ ab_admin_level a = Some 9 ->
      get (admin_row a) "centroid" = PStr wkt ->
      exists h w'',
        _build_admin_hierarchy (admin_row a) w = (Ok h, w'') /\
        get h "district" = PNone /\ get h "province" = PNone).
  { intros w1 E a [Hl | Hl] Hc.
    - rewrite (_build_admin_hierarchy_municipality a Hl), Hc.
      destruct (resolve_parents_nothing
                  ["district"; "district_ne"; "province"; "province_ne"]
                  _ (municipality_stage (get (admin_row a) "name")
                                        (get (admin_row a) "name_ne")) _ _ E)
        as [w'' ->].
      do 2 eexists. split; [reflexivity|]. split; reflexivity.
    - rewrite (_build_admin_hierarchy_ward a Hl), Hc.
      destruct (resolve_parents_nothing
                  ["district"; "district_ne"; "province"; "province_ne"]
                  _ (ward_stage (default EmptyString (ab_name a))) _ _ E)
        as [w'' ->].
      do 2 eexists. split; [reflexivity|]. apply ward_stage_parents. }
  assert (Hdec : w_conn w = Some ConnOpen \/ w_conn w <> Some ConnOpen)
    by (destruct (w_conn w) as [[|]|]; auto; right; discriminate).
  destruct Hdec as [Hconn | Hconn].
  - destruct (ST_GeomFromText wkt) as [pt|] eqn:Hpt.
    + destruct (_get_parent_admin_open w wkt pt Hconn Hpt) as (rows & Eq & E).
      destruct (parent_query_rows (w_db w) wkt pt Hpt)
        as (rows' & Eq' & Hin & Hnil).
      rewrite Eq in Eq'. injection Eq' as <-.
      exists (head rows), w. split; [exact E|]. repeat split.
      * intros ph Hph. destruct rows as [|r rows]; [discriminate|].
        injection Hph as ->. destruct (Hin ph) as (d & p & Hd & Hp & ->); [left|].
        exists pt, d, p. auto.
      * intros pt' [= <-] Hno. apply Hnil in Hno. now rewrite Hno.
      * intros pt' d p _ [= <-] Hd Hp.
        destruct rows as [|r rows]; [|simpl; eauto].
        destruct (proj1 Hnil eq_refl) as [Hno | Hno]; exfalso; apply Hno; eauto.
      * intros a Hl Hc Hr. rewrite Hr in E. eapply Hhier; eauto.
    + destruct (_get_parent_admin_failed w wkt (or_intror Hpt)) as [w' E].
      exists None, w'. split; [exact E|]. repeat split; try discriminate.
      * intros a Hl Hc _. eapply Hhier; eauto.
  - destruct (_get_parent_admin_failed w wkt (or_introl Hconn)) as [w' E].
    exists None, w'. split; [exact E|]. repeat split; try discriminate.
    + intros pt d p Hopen. contradiction.
    + intros a Hl Hc _. eapply Hhier; eauto.
Qed.



(** ** Search text *)

Lemma filter_truthy_text (fields : list (option string)) :
  List.filter truthy (sql_text <$> fields) = PStr <$> nonempty_values fields.
Proof.
  induction fields as [|o fields IH]; [reflexivity|].
  destruct o as [[|c s]|]; cbn; now rewrite IH.
Qed.

Lemma str_join_spaces (l : list string) :
  str_join " " (PStr <$> l) = Ok (join_spaces l).
Proof.
  induction l as [|s l IH]; [reflexivity|].
  destruct l as [|s' l]; [reflexivity|].
  change (str_join " " (PStr <$> s :: s' :: l))
    with (rbind (str_join " " (PStr <$> s' :: l))
                (fun r => Ok (s +:+ " " +:+ r))).
  now rewrite IH.
Qed.

Lemma search_text_of_fields (fields : list (option string)) :
  str_join " " (List.filter truthy (sql_text <$> fields))
  = Ok (join_spaces (nonempty_values fields)).
Proof. rewrite filter_truthy_text. apply str_join_spaces. Qed.

(** On a place row the search text is made of the five fields. *)
Lemma place_search_text (p : place) :
  _build_search_text (place_row p)
  = Ok (join_spaces (nonempty_values
          [ pl_name p; pl_name_ne p; pl_municipality p;
            pl_district p; pl_province p ])).
Proof. apply (search_text_of_fields [_; _; _; _; _]). Qed.

(** A boundary row has no [municipality], [district] or [province] column:
    its search text is made of the name and the localized name only. *)
Lemma admin_search_text (a : admin_boundary) :
  _build_search_text (admin_row a)
  = Ok (join_spaces (nonempty_values [ ab_name a; ab_name_ne a ])).
Proof.
  etransitivity;
    [apply (search_text_of_fields
              [ab_name a; ab_name_ne a; Some EmptyString; Some EmptyString;
               Some EmptyString])|].
  destruct (ab_name a) as [[|c s]|], (ab_name_ne a) as [[|c' s']|]; reflexivity.
Qed.



(** ** Inverting the builders *)

Lemma rbind_Ok {A B} (r : result A) (k : A -> result B) (b : B) :
  rbind r k = Ok b -> exists a, r = Ok a /\ k a = Ok b.
Proof. destruct r as [a|e]; [eauto | discriminate]. Qed.

Lemma bind_Ok {S A B} (m : M S A) (k : A -> M S B) (w w'' : S) (b : B) :
  bind m k w = (Ok b, w'') ->
  exists a w', m w = (Ok a, w') /\ k a w' = (Ok b, w'').
Proof.
  unfold bind. destruct (m w) as [[a|e] w']; [eauto | discriminate].
Qed.

Lemma lift_Ok {S A} (r : result A) (w w' : S) (a : A) :
  lift r w = (Ok a, w') -> r = Ok a /\ w' = w.
Proof. unfold lift. now intros [= -> ->]. Qed.

Lemma Ok_inj {A} (a b : A) : Ok a = Ok b -> a = b.
Proof. now intros [= ->]. Qed.

Lemma ret_Ok {S A} (a b : A) (w w' : S) :
  ret a w = (Ok b, w') -> a = b /\ w' = w.
Proof. unfold ret. now intros [= -> ->]. Qed.

(** Take a successful builder run apart, stage by stage. *)
Ltac invert_builder H :=
  repeat match type of H with
    | rbind _ _ = Ok _ =>
        let a := fresh "v" in let E := fresh "E" in
        apply rbind_Ok in H as (a & E & H)
    | bind (lift _) _ _ = (Ok _, _) =>
        let a := fresh "v" in let E := fresh "E" in let w := fresh "w" in
        apply bind_Ok in H as (a & w & E & H);
        apply lift_Ok in E as [E ->]
    | bind _ _ _ = (Ok _, _) =>
        let a := fresh "v" in let E := fresh "E" in let w := fresh "w" in
        apply bind_Ok in H as (a & w & E & H)
    | Ok _ = Ok ?d => apply Ok_inj in H; subst d
    | ret _ _ = (Ok ?d, _) => apply ret_Ok in H as [H ->]; subst d
    end.

Lemma name_en_of_dict (d : list (string * pyval)) (row : gmap string pyval)
    (name : pyval) :
  getitem row "name" = Ok name ->
  name_en_of (PDict d) row = Ok (default name (dict_lookup d "name:en")).
Proof. intros E. unfold name_en_of. now rewrite E. Qed.

Lemma location_of_total (row : gmap string pyval) :
  is_Some (row !! "lat") -> is_Some (row !! "lon") ->
  exists loc, location_of row = Ok loc.
Proof.
  intros [lat Hlat] [lon Hlon]. unfold location_of, getitem.
  rewrite Hlat, Hlon. destruct (truthy _); simpl; eauto.
Qed.

(** On the rows of the extraction queries a builder raises only when the
    normalised tags are not a dictionary. *)
Lemma place_doc_total (ix : string) (p : place) (d : list (string * pyval)) :
  parse_tags (pl_tags p) = PDict d ->
  exists doc, place_doc ix (place_row p) = Ok doc /\
    get (_source doc) "name_en"
    = default (sql_text (pl_name p)) (dict_lookup d "name:en").
Proof.
  intros Htags. unfold place_doc.
  change (get (place_row p) "tags") with (pl_tags p). rewrite Htags.
  rewrite (name_en_of_dict d _ (sql_text (pl_name p))) by reflexivity.
  destruct (location_of_total (place_row p)) as [loc Hloc];
    [eexists; reflexivity.. |].
  rewrite place_search_text, Hloc. cbn [rbind getitem].
  eexists. split; reflexivity.
Qed.

Lemma poi_doc_total (ix : string) (p : poi) (d : list (string * pyval)) :
  parse_tags (poi_tags p) = PDict d ->
  exists doc, poi_doc ix (poi_row p) = Ok doc /\
    get (_source doc) "name_en"
    = default (sql_text (poi_name p)) (dict_lookup d "name:en") /\
    get (_source doc) "tags" = PDict d.
Proof.
  intros Htags. unfold poi_doc.
  change (get (poi_row p) "tags") with (poi_tags p). rewrite Htags.
  rewrite (name_en_of_dict d _ (sql_text (poi_name p))) by reflexivity.
  destruct (location_of_total (poi_row p)) as [loc Hloc];
    [eexists; reflexivity.. |].
  rewrite Hloc. cbn [rbind getitem].
  eexists. split; [reflexivity|]. split; reflexivity.
Qed.

Lemma road_doc_total (ix : string) (r : named_road) (d : list (string * pyval)) :
  parse_tags (rd_tags r) = PDict d ->
  exists doc, road_doc ix (road_row r) = Ok doc /\
    get (_source doc) "name_en"
    = default (sql_text (rd_name r)) (dict_lookup d "name:en").
Proof.
  intros Htags. unfold road_doc.
  change (get (road_row r) "tags") with (rd_tags r). rewrite Htags.
  rewrite (name_en_of_dict d _ (sql_text (rd_name r))) by reflexivity.
  cbn [rbind getitem]. eexists. split; reflexivity.
Qed.



Lemma _build_admin_hierarchy_total (a : admin_boundary) (w : world) :
  exists h w', _build_admin_hierarchy (admin_row a) w = (Ok h, w').
Proof.
  unfold _build_admin_hierarchy.
  rewrite admin_row_level, admin_row_name, name_or_empty.
  destruct (py_eq _ (PInt 4)); [unfold ret; eauto|].
  destruct (py_eq _ (PInt 6)).
  { edestruct resolve_parents_other as (h & w' & E & _).
    exists h, w'. exact E. }
  destruct (py_eq _ (PInt 7)).
  { edestruct resolve_parents_other as (h & w' & E & _).
    exists h, w'. exact E. }
  destruct (py_eq _ (PInt 9)); [|unfold ret; eauto].
  destruct (resolve_parents_other
              ["district"; "district_ne"; "province"; "province_ne"]
              (get (admin_row a) "centroid")
              (ward_stage (default EmptyString (ab_name a))) w)
    as (h & w' & E & _).
  exists h, w'. exact E.
Qed.

Lemma admin_doc_total (ix : string) (a : admin_boundary) (w : world)
    (d : list (string * pyval)) :
  parse_tags (ab_tags a) = PDict d ->
  exists doc w', admin_doc ix (admin_row a) w = (Ok doc, w') /\
    get (_source doc) "name_en"
    = default (sql_text (ab_name a)) (dict_lookup d "name:en").
Proof.
  intros Htags. unfold admin_doc.
  change (get (admin_row a) "tags") with (ab_tags a). rewrite Htags.
  rewrite (name_en_of_dict d _ (sql_text (ab_name a))) by reflexivity.
  destruct (_build_admin_hierarchy_total a w) as (h & w' & Eh).
  destruct (location_of_total (admin_row a)) as [loc Hloc];
    [eexists; reflexivity.. |].
  rewrite admin_search_text, Hloc.
  cbv [bind lift ret]. rewrite Eh. cbn [getitem].
  do 2 eexists. split; reflexivity.
Qed.

(** ** Malformed tags *)

(** C6. A tag payload that is a string [json.loads] cannot parse never
    stops a builder: the tag mapping becomes the empty mapping, the
    document is built, and [name_en] is the record's name. *)
Theorem malformed_tags_degrade (ix : string) (s : string) :
  json_loads s = None ->
  parse_tags (PStr s) = PDict [] /\
  (forall p, pl_tags p = PStr s ->
     exists doc, place_doc ix (place_row p) = Ok doc /\
       get (_source doc) "name_en" = sql_text (pl_name p)) /\
  (forall a w, ab_tags a = PStr s ->
     exists doc w', admin_doc ix (admin_row a) w = (Ok doc, w') /\
       get (_source doc) "name_en" = sql_text (ab_name a)) /\
  (forall p, poi_tags p = PStr s ->
     exists doc, poi_doc ix (poi_row p) = Ok doc /\
       get (_source doc) "name_en" = sql_text (poi_name p) /\
       get (_source doc) "tags" = PDict []) /\
  (forall r, rd_tags r = PStr s ->
     exists doc, road_doc ix (road_row r) = Ok doc /\
       get (_source doc) "name_en" = sql_text (rd_name r)).
Proof.
  intros Hbad.
  assert (Htags : parse_tags (PStr s) = PDict []).
  { unfold parse_tags. rewrite Hbad. now destruct (truthy (PStr s)). }
  split; [exact Htags|]. repeat split.
  - intros p Hp. apply (place_doc_total ix p []). now rewrite Hp.
  - intros a w Ha. apply (admin_doc_total ix a w []). now rewrite Ha.
  - intros p Hp. apply (poi_doc_total ix p []). now rewrite Hp.
  - intros r Hr. apply (road_doc_total ix r []). now rewrite Hr.
Qed.

(** ** Boost scores *)

Lemma py_eq_text (o : option string) (s : string) :
  py_eq (sql_text o) (PStr s) = bool_decide (o = Some s).
Proof.
  destruct o as [t|]; unfold sql_text; cbn [from_option py_eq].
  - destruct (String.eqb_spec t s) as [-> | Hne].
    + now rewrite bool_decide_eq_true_2.
    + rewrite bool_decide_eq_false_2; [reflexivity | congruence].
  - now rewrite bool_decide_eq_false_2.
Qed.

Lemma py_eq_int (o : option Z) (n : Z) :
  py_eq (sql_int o) (PInt n) = bool_decide (o = Some n).
Proof.
  destruct o as [z|]; unfold sql_int; cbn [from_option py_eq].
  - destruct (Z.eqb_spec z n) as [-> | Hne].
    + now rewrite bool_decide_eq_true_2.
    + rewrite bool_decide_eq_false_2; [reflexivity | congruence].
  - now rewrite bool_decide_eq_false_2.
Qed.

Lemma _calculate_boost_place (place_type : option string) :
  _calculate_boost "place" (sql_text place_type) = place_tier place_type.
Proof.
  unfold _calculate_boost, place_tier, py_in. cbn [String.eqb Ascii.eqb Bool.eqb existsb].
  rewrite !py_eq_text, !orb_false_r.
  repeat case_bool_decide; repeat case_decide; try reflexivity; tauto.
Qed.

Lemma _calculate_boost_boundary (admin_level : option Z) :
  _calculate_boost "admin_boundary" (sql_int admin_level)
  = boundary_tier admin_level.
Proof.
  unfold _calculate_boost, boundary_tier, py_in. cbn [String.eqb Ascii.eqb Bool.eqb existsb].
  rewrite !py_eq_int, !orb_false_r.
  repeat case_bool_decide; repeat case_decide; try reflexivity; tauto.
Qed.



(** C3. The boost score is the tier of the record's type and subtype: for
    a place 2.0 (city, town), 1.5 (village, suburb) or 1.0 (anything else);
    for a boundary 1.8 (level 6 or 7), 1.5 (level 4) or 1.2 (ward and
    anything else); 0.5 for every POI and 0.3 for every road. *)
Theorem boost_score_tiers (ix : string) :
  (forall p doc,
     place_doc ix (place_row p) = Ok doc ->
     get (_source doc) "boost_score" = PFloat (place_tier (pl_place_type p))) /\
  (forall a w doc w',
     admin_doc ix (admin_row a) w = (Ok doc, w') ->
     get (_source doc) "boost_score"
     = PFloat (boundary_tier (ab_admin_level a))) /\
  (forall row doc,
     poi_doc ix row = Ok doc ->
     get (_source doc) "boost_score" = PFloat 0.5%float) /\
  (forall row doc,
     road_doc ix row = Ok doc ->
     get (_source doc) "boost_score" = PFloat 0.3%float) /\
  (forall subtype,
     _calculate_boost "poi" subtype = 0.5%float /\
     _calculate_boost "road" subtype = 0.3%float).
Proof.
  repeat split.
  - intros p doc Hdoc. unfold place_doc in Hdoc. cbv zeta in Hdoc.
    invert_builder Hdoc. rewrite <- _calculate_boost_place. reflexivity.
  - intros a w doc w' Hdoc. unfold admin_doc in Hdoc. cbv zeta in Hdoc.
    invert_builder Hdoc. rewrite <- _calculate_boost_boundary. reflexivity.
  - intros row doc Hdoc. unfold poi_doc in Hdoc. cbv zeta in Hdoc.
    invert_builder Hdoc. reflexivity.
  - intros row doc Hdoc. unfold road_doc in Hdoc. cbv zeta in Hdoc.
    invert_builder Hdoc. reflexivity.
Qed.

(** ** Localized hierarchy fields of a place *)

(** C10. In a place document [municipality_ne], [district_ne] and
    [province_ne] are the record's [municipality], [district] and
    [province], the same values the fields without suffix carry. *)
Theorem place_localized_fields_copy_default (ix : string)
    (row : gmap string pyval) (doc : document) :
  place_doc ix row = Ok doc ->
  get (_source doc) "municipality_ne" = get row "municipality" /\
  get (_source doc) "district_ne" = get row "district" /\
  get (_source doc) "province_ne" = get row "province" /\
  get (_source doc) "municipality" = get row "municipality" /\
  get (_source doc) "district" = get row "district" /\
  get (_source doc) "province" = get row "province".
Proof.
  intros Hdoc. unfold place_doc in Hdoc. cbv zeta in Hdoc.
  invert_builder Hdoc. repeat split.
Qed.

(** ** Location *)

Lemma location_of_geom (row : gmap string pyval) (geom : option point) :
  row !! "lat" = Some (sql_float (ST_Y <$> geom)) ->
  row !! "lon" = Some (sql_float (ST_X <$> geom)) ->
  location_of row = Ok (location_value geom).
Proof.
  intros Hlat Hlon. unfold location_of, getitem, get. rewrite Hlat, Hlon.
  destruct geom as [pt|]; [|reflexivity]. simpl.
  now destruct (PrimFloat.eqb (ST_Y pt) 0).
Qed.

Ltac location_field geom :=
  match goal with
  | E : location_of ?row = Ok ?loc |- _ =>
      rewrite (location_of_geom row geom) in E by reflexivity;
      apply Ok_inj in E; subst loc; reflexivity
  end.

(** The location of a place, boundary or POI document: when it is set it
    carries both coordinates of the geometry, and it is set exactly when
    the geometry is not NULL and its latitude is not zero. *)
Lemma place_location (ix : string) (p : place) (doc : document) :
  place_doc ix (place_row p) = Ok doc ->
  get (_source doc) "location" = location_value (pl_geom p).
Proof.
  intros Hdoc. unfold place_doc in Hdoc. cbv zeta in Hdoc.
  invert_builder Hdoc. location_field (pl_geom p).
Qed.

Lemma admin_location (ix : string) (a : admin_boundary) (w w' : world)
    (doc : document) :
  admin_doc ix (admin_row a) w = (Ok doc, w') ->
  get (_source doc) "location" = location_value (ab_centroid a).
Proof.
  intros Hdoc. unfold admin_doc in Hdoc. cbv zeta in Hdoc.
  invert_builder Hdoc. location_field (ab_centroid a).
Qed.

Lemma poi_location (ix : string) (p : poi) (doc : document) :
  poi_doc ix (poi_row p) = Ok doc ->
  get (_source doc) "location" = location_value (poi_geom p).
Proof.
  intros Hdoc. unfold poi_doc in Hdoc. cbv zeta in Hdoc.
  invert_builder Hdoc. location_field (poi_geom p).
Qed.

(** ** Search text of the documents *)

(** A place document: the non-empty values among name, localized name,
    municipality, district and province, joined by single spaces. *)
Lemma place_doc_search_text (ix : string) (p : place) (doc : document) :
  place_doc ix (place_row p) = Ok doc ->
  get (_source doc) "search_text"
  = PStr (join_spaces (nonempty_values
            [ pl_name p; pl_name_ne p; pl_municipality p;
              pl_district p; pl_province p ])).
Proof.
  intros Hdoc. unfold place_doc in Hdoc. cbv zeta in Hdoc.
  invert_builder Hdoc.
  match goal with
  | E : _build_search_text _ = Ok ?t |- _ =>
      rewrite place_search_text in E; apply Ok_inj in E; subst t
  end.
  reflexivity.
Qed.

(** A boundary document: name and localized name only, whatever hierarchy
    was resolved for it. *)
Lemma admin_doc_search_text (ix : string) (a : admin_boundary) (w w' : world)
    (doc : document) :
  admin_doc ix (admin_row a) w = (Ok doc, w') ->
  get (_source doc) "search_text"
  = PStr (join_spaces (nonempty_values [ ab_name a; ab_name_ne a ])).
Proof.
  intros Hdoc. unfold admin_doc in Hdoc. cbv zeta in Hdoc.
  invert_builder Hdoc.
  match goal with
  | E : _build_search_text _ = Ok ?t |- _ =>
      rewrite admin_search_text in E; apply Ok_inj in E; subst t
  end.
  reflexivity.
Qed.



(** ** Document identifiers *)

(** The rows of the four queries are the rows of these records. *)
Lemma run_records_rows (db : database) :
  record_row <$> run_records db
  = (pair Places <$> places_query db) ++
    (pair AdminBoundaries <$> admin_query db) ++
    (pair Poi <$> poi_query db) ++
    (pair Roads <$> roads_query db).
Proof.
  unfold run_records, places_records, admin_records, poi_records, roads_records,
    places_query, admin_query, poi_query, roads_query.
  rewrite !fmap_app, <- !list_fmap_compose. reflexivity.
Qed.

Lemma to_int_not_nil (z : Z) :
  Z.to_int z <> Decimal.Pos Decimal.Nil /\ Z.to_int z <> Decimal.Neg Decimal.Nil.
Proof.
  destruct z as [|p|p]; simpl; split; try discriminate;
    intros [= E]; now apply DecimalPos.Unsigned.to_uint_nonnil in E.
Qed.

Lemma id_text_inj (a b : Z) : id_text a = id_text b -> a = b.
Proof.
  unfold id_text. intros E. apply DecimalZ.to_int_inj.
  apply (f_equal NilZero.int_of_string) in E.
  destruct (to_int_not_nil a), (to_int_not_nil b).
  rewrite !NilZero.isi in E by assumption. congruence.
Qed.

Lemma built_id (ix : string) (r : source_record) (doc : document) :
  built ix r doc -> _id doc = PStr (record_doc_id r).
Proof.
  destruct r as [p|a|p|r]; simpl.
  - intros Hdoc. unfold place_doc in Hdoc. cbv zeta in Hdoc.
    invert_builder Hdoc.
    match goal with E : getitem _ "doc_id" = Ok _ |- _ => now injection E as <- end.
  - intros (w & w' & Hdoc). unfold admin_doc in Hdoc. cbv zeta in Hdoc.
    invert_builder Hdoc.
    match goal with E : getitem _ "doc_id" = Ok _ |- _ => now injection E as <- end.
  - intros Hdoc. unfold poi_doc in Hdoc. cbv zeta in Hdoc.
    invert_builder Hdoc.
    match goal with E : getitem _ "doc_id" = Ok _ |- _ => now injection E as <- end.
  - intros Hdoc. unfold road_doc in Hdoc. cbv zeta in Hdoc.
    invert_builder Hdoc.
    match goal with E : getitem _ "doc_id" = Ok _ |- _ => now injection E as <- end.
Qed.

(** Identifiers with one prefix, over records with distinct keys. *)
Lemma prefixed_ids_NoDup {A} (prefix : string) (key : A -> Z) (table rows : list A) :
  NoDup (key <$> table) -> rows `sublist_of` table ->
  NoDup ((fun x => prefix +:+ id_text (key x)) <$> rows).
Proof.
  intros Hkeys Hsub.
  assert (Hrows : NoDup (key <$> rows))
    by (eapply sublist_NoDup; [exact Hkeys | now apply fmap_sublist]).
  rewrite (list_fmap_compose key (fun z => prefix +:+ id_text z)).
  apply NoDup_fmap_2; [|exact Hrows].
  intros a b E. apply String.app_inj in E. now apply id_text_inj.
Qed.



Lemma run_ids_NoDup (db : database) :
  NoDup (pl_id <$> places db) ->
  NoDup (ab_id <$> admin_boundaries db) ->
  NoDup (poi_id <$> pois db) ->
  NoDup (rd_id <$> named_roads db) ->
  NoDup (record_doc_id <$> run_records db).
Proof.
  intros Hpl Hab Hpoi Hrd.
  unfold run_records, places_records, admin_records, poi_records, roads_records.
  rewrite !fmap_app, <- !list_fmap_compose.
  assert (H1 := prefixed_ids_NoDup "place_" pl_id _ _ Hpl
                  (sublist_filter (fun p => is_Some (pl_name p)) (places db))).
  assert (H2 := prefixed_ids_NoDup "admin_" ab_id _ _ Hab
                  (sublist_filter
                     (fun a => is_Some (ab_name a)
                               ∧ synced_level (ab_admin_level a) = true)
                     (admin_boundaries db))).
  assert (H3 := prefixed_ids_NoDup "poi_" poi_id _
                  (take 50000 (filter (fun p => is_Some (poi_name p)) (pois db)))
                  Hpoi).
  assert (H4 := prefixed_ids_NoDup "road_" rd_id _
                  (take 10000 (filter (fun r => is_Some (rd_name r))
                                      (named_roads db)))
                  Hrd).
  repeat (apply NoDup_app; split; [|split]).
  - exact H1.
  - intros x Hx. rewrite !elem_of_app, !list_elem_of_fmap.
    apply list_elem_of_fmap in Hx as (p & -> & _).
    intros [(y & E & _) | [(y & E & _) | (y & E & _)]]; simpl in E; discriminate E.
  - exact H2.
  - intros x Hx. rewrite !elem_of_app, !list_elem_of_fmap.
    apply list_elem_of_fmap in Hx as (p & -> & _).
    intros [(y & E & _) | (y & E & _)]; simpl in E; discriminate E.
  - apply H3. etransitivity; [apply sublist_take | apply sublist_filter].
  - intros x Hx. rewrite list_elem_of_fmap.
    apply list_elem_of_fmap in Hx as (p & -> & _).
    intros (y & E & _); simpl in E; discriminate E.
  - apply H4. etransitivity; [apply sublist_take | apply sublist_filter].
Qed.

(** Documents built from distinct records of one run have distinct
    identifiers: an identifier is the type's prefix followed by the source
    identifier. *)
Lemma built_ids_distinct (ix : string) (db : database)
    (records : list source_record) (docs : list document) :
  NoDup (pl_id <$> places db) ->
  NoDup (ab_id <$> admin_boundaries db) ->
  NoDup (poi_id <$> pois db) ->
  NoDup (rd_id <$> named_roads db) ->
  records `sublist_of` run_records db ->
  Forall2 (built ix) records docs ->
  _id <$> docs = PStr ∘ record_doc_id <$> records /\
  NoDup (_id <$> docs).
Proof.
  intros Hpl Hab Hpoi Hrd Hsub Hbuilt.
  assert (Hids : _id <$> docs = PStr ∘ record_doc_id <$> records).
  { induction Hbuilt as [|r doc records docs Hb _ IH]; [reflexivity|].
    cbn. rewrite (built_id _ _ _ Hb). f_equal. apply IH.
    etransitivity; [apply sublist_cons_r; left; reflexivity | exact Hsub]. }
  split; [exact Hids|]. rewrite Hids, list_fmap_compose.
  apply NoDup_fmap_2; [intros a b [= E]; exact E|].
  eapply sublist_NoDup; [apply run_ids_NoDup; eassumption|].
  now apply fmap_sublist.
Qed.



(** ** Index creation without a mapping file *)

(** C4 (what the code does). When neither candidate path exists,
    [mapping_path] stays [None] and [open(None)] raises [TypeError], which
    [except FileNotFoundError] does not take: [create_index] raises, logs
    no warning and creates no index. *)
Lemma create_index_without_mapping_file (w : world) :
  w_files w !! "/app/mappings/nepal_locations.json" = None ->
  w_files w !! w_local_mapping w = None ->
  create_index w = (Raise TypeError, w).
Proof.
  intros Hdocker Hlocal.
  cbv [create_index bind gets ret raise open_read json_load
         try_except_FileNotFoundError List.find path_exists].
  rewrite Hdocker, Hlocal. reflexivity.
Qed.

(** The fallback itself: it is taken only when the path that was found to
    exist is gone when it is opened, which a world with a fixed set of
    files never shows. *)
Lemma create_index_never_falls_back (w w' : world) :
  create_index w = (Ok tt, w') ->
  exists path content mapping,
    w_files w !! path = Some content /\
    json_loads content = Some mapping /\
    (ix_mapping <$> w_index w') = Some mapping.
Proof.
  cbv [create_index bind gets ret raise open_read json_load
         try_except_FileNotFoundError List.find path_exists logger modify].
  intros Hrun.
  destruct (w_files w !! "/app/mappings/nepal_locations.json") as [c|] eqn:E1.
  - rewrite bool_decide_eq_true_2 in Hrun by eauto. rewrite E1 in Hrun.
    destruct (json_loads c) as [m|] eqn:Ej; [|discriminate].
    exists "/app/mappings/nepal_locations.json", c, m.
    split; [exact E1|]. split; [exact Ej|].
    destruct (w_index w); injection Hrun as <-; reflexivity.
  - rewrite bool_decide_eq_false_2 in Hrun by (intros [? ?]; discriminate).
    destruct (w_files w !! w_local_mapping w) as [c|] eqn:E2.
    + rewrite bool_decide_eq_true_2 in Hrun by eauto. rewrite E2 in Hrun.
      destruct (json_loads c) as [m|] eqn:Ej; [|discriminate].
      exists (w_local_mapping w), c, m.
      split; [exact E2|]. split; [exact Ej|].
      destruct (w_index w); injection Hrun as <-; reflexivity.
    + rewrite bool_decide_eq_false_2 in Hrun by (intros [? ?]; discriminate).
      discriminate.
Qed.


(** ** Frames: what a piece of code leaves as it is *)

Section Frame.
Context {B : Type} (f : world -> B).
Hypothesis f_log : forall r w, f (add_log r w) = f w.

Lemma keeps_bind {A C} (m : M world A) (k : A -> M world C) :
  keeps f m -> (forall a, keeps f (k a)) -> keeps f (bind m k).
Proof.
  intros Hm Hk w r w'. unfold bind.
  destruct (m w) as [[a|e] w1] eqn:E.
  - intros Hr. rewrite (Hk a _ _ _ Hr). eapply Hm, E.
  - intros [= <- <-]. eapply Hm, E.
Qed.

Lemma keeps_ret {A} (a : A) : keeps f (ret a).
Proof. now intros w r w' [= <- <-]. Qed.

Lemma keeps_lift {A} (r : result A) : keeps f (lift r).
Proof. now intros w r' w' [= <- <-]. Qed.

Lemma keeps_raise {A} (e : exn) : keeps f (@raise world A e).
Proof. now intros w r w' [= <- <-]. Qed.

Lemma keeps_gets {A} (g : world -> A) : keeps f (gets g).
Proof. now intros w r w' [= <- <-]. Qed.

Lemma keeps_logger (lv : level) (msg : message) : keeps f (logger lv msg).
Proof. intros w r w' [= <- <-]. apply f_log. Qed.

Lemma keeps_try_except {A} (m : M world A) (h : exn -> M world A) :
  keeps f m -> (forall e, keeps f (h e)) -> keeps f (try_except m h).
Proof.
  intros Hm Hh w r w'. unfold try_except.
  destruct (m w) as [[a|e] w1] eqn:E.
  - intros [= <- <-]. eapply Hm, E.
  - destruct (is_Exception e).
    + intros Hr. rewrite (Hh e _ _ _ Hr). eapply Hm, E.
    + intros [= <- <-]. eapply Hm, E.
Qed.

(** Break a frame goal down along the structure of the code. *)
Ltac frame :=
  repeat first
    [ apply keeps_bind; [|intros ?]
    | apply keeps_try_except; [|intros ?]
    | apply keeps_ret | apply keeps_lift | apply keeps_raise
    | apply keeps_gets | apply keeps_logger
    | assumption
    | match goal with
      | H : forall x, keeps _ _ |- _ => apply H
      | |- keeps _ (match ?x with _ => _ end) => destruct x
      | |- keeps _ (if ?x then _ else _) => destruct x
      end ].

Lemma keeps_cursor : keeps f cursor.
Proof. unfold cursor. frame. Qed.

Lemma keeps__get_parent_admin (c : pyval) : keeps f (_get_parent_admin c).
Proof. unfold _get_parent_admin. pose proof keeps_cursor. frame. Qed.

Lemma keeps__build_admin_hierarchy (row : gmap string pyval) :
  keeps f (_build_admin_hierarchy row).
Proof.
  unfold _build_admin_hierarchy. cbv zeta.
  pose proof keeps__get_parent_admin. frame.
Qed.

Lemma keeps_admin_doc (ix : string) (row : gmap string pyval) :
  keeps f (admin_doc ix row).
Proof.
  unfold admin_doc. cbv zeta. pose proof keeps__build_admin_hierarchy. frame.
Qed.

(** Writing to the index, for a component the index is no part of. *)
Hypothesis f_index : forall i w, f (set_index i w) = f w.

Lemma keeps_set_index (i : option es_index) : keeps f (modify (set_index i)).
Proof. intros w r w' [= <- <-]. apply f_index. Qed.

Lemma keeps_write_document (d : document) : keeps f (write_document d).
Proof.
  unfold write_document. cbv zeta. pose proof keeps_set_index. frame.
Qed.

Lemma keeps_send_chunk (chunk : list document) :
  forall s n, keeps f (send_chunk chunk s n).
Proof.
  induction chunk as [|d chunk IH]; intros s n; cbn [send_chunk].
  - apply keeps_ret.
  - apply keeps_bind; [apply keeps_write_document|].
    intros [|]; apply IH.
Qed.

Lemma keeps_bulk_loop (actions : list (M world document)) :
  (forall a, a ∈ actions -> keeps f a) ->
  forall chunk s n, keeps f (bulk_loop actions chunk s n).
Proof.
  induction actions as [|a actions IH]; intros Hall chunk s n; cbn [bulk_loop].
  - apply keeps_send_chunk.
  - apply keeps_bind; [apply Hall; left|]. intros d.
    assert (Hrest : forall a', a' ∈ actions -> keeps f a')
      by (intros a' Ha'; apply Hall; now right).
    destruct (Nat.eqb _ _).
    + apply keeps_bind; [apply keeps_send_chunk|]. intros sf. now apply IH.
    + now apply IH.
Qed.

(** A pipeline, for a component the extraction log is no part of either. *)
Hypothesis f_extracted : forall e w, f (add_extracted e w) = f w.

Lemma keeps_pipeline (e : entity) (gen : database -> string -> list (M world document)) :
  (forall db ix a, a ∈ gen db ix -> keeps f a) ->
  keeps f
    (cursor ;;
     modify (add_extracted e) ;;
     do db <- gets w_db;
     do es_index <- gets w_es_index;
     do sf <- helpers_bulk (gen db es_index);
     logger INFO (Synced e (fst sf) (snd sf)) ;;
     ret (fst sf)).
Proof.
  intros Hgen.
  assert (Hx : keeps f (modify (add_extracted e)))
    by (intros w r w' [= <- <-]; apply f_extracted).
  assert (Hb : forall db ix, keeps f (helpers_bulk (gen db ix)))
    by (intros db ix; apply keeps_bulk_loop, Hgen).
  apply keeps_bind; [apply keeps_cursor | intros _].
  apply keeps_bind; [exact Hx | intros _].
  apply keeps_bind; [apply keeps_gets | intros db].
  apply keeps_bind; [apply keeps_gets | intros ix].
  apply keeps_bind; [apply Hb | intros sf].
  apply keeps_bind; [apply keeps_logger | intros _]. apply keeps_ret.
Qed.

End Frame.

Lemma keeps_generators {B} (f : world -> B) :
  (forall r w, f (add_log r w) = f w) ->
  forall db ix a,
    a ∈ places_gen db ix \/ a ∈ admin_gen db ix \/
    a ∈ poi_gen db ix \/ a ∈ roads_gen db ix ->
    keeps f a.
Proof.
  intros f_log db ix a [Ha | [Ha | [Ha | Ha]]];
    apply list_elem_of_fmap in Ha as (row & -> & _);
    first [apply keeps_lift | now apply keeps_admin_doc].
Qed.

(** Each pipeline leaves the connection, the tables and the index name as
    they are. *)
Lemma keeps_pipelines {B} (f : world -> B) :
  (forall r w, f (add_log r w) = f w) ->
  (forall i w, f (set_index i w) = f w) ->
  (forall e w, f (add_extracted e w) = f w) ->
  keeps f sync_places /\ keeps f sync_admin_boundaries /\
  keeps f sync_poi /\ keeps f sync_roads.
Proof.
  intros f_log f_index f_extracted.
  pose proof (keeps_generators f f_log) as Hgen.
  repeat split.
  - apply (keeps_pipeline f f_log f_index f_extracted Places places_gen).
    intros db ix a Ha. apply (Hgen db ix). tauto.
  - apply (keeps_pipeline f f_log f_index f_extracted AdminBoundaries admin_gen).
    intros db ix a Ha. apply (Hgen db ix). tauto.
  - apply (keeps_pipeline f f_log f_index f_extracted Poi poi_gen).
    intros db ix a Ha. apply (Hgen db ix). tauto.
  - apply (keeps_pipeline f f_log f_index f_extracted Roads roads_gen).
    intros db ix a Ha. apply (Hgen db ix). tauto.
Qed.

Lemma pipeline_extracts (e : entity)
    (gen : database -> string -> list (M world document)) :
  (forall db ix a, a ∈ gen db ix -> keeps w_extracted a) ->
  keeps w_conn
    (cursor ;;
     modify (add_extracted e) ;;
     do db <- gets w_db;
     do es_index <- gets w_es_index;
     do sf <- helpers_bulk (gen db es_index);
     logger INFO (Synced e (fst sf) (snd sf)) ;;
     ret (fst sf)) ->
  extracts e
    (cursor ;;
     modify (add_extracted e) ;;
     do db <- gets w_db;
     do es_index <- gets w_es_index;
     do sf <- helpers_bulk (gen db es_index);
     logger INFO (Synced e (fst sf) (snd sf)) ;;
     ret (fst sf)).
Proof.
  intros Hgen Hconn w r w' Hrun. split; [exact (Hconn _ _ _ Hrun)|].
  intros Hopen. revert Hrun. unfold bind at 1. unfold cursor at 1.
  cbv [bind gets raise ret]. rewrite Hopen.
  cbv [modify]. set (w1 := add_extracted e w).
  assert (Hb : keeps w_extracted (helpers_bulk (gen (w_db w1) (w_es_index w1))))
    by (apply keeps_bulk_loop; [reflexivity.. | apply Hgen]).
  destruct (helpers_bulk (gen (w_db w1) (w_es_index w1)) w1)
    as [[sf|err] w2] eqn:Hbulk.
  - cbv [logger modify]. intros [= <- <-]. exact (Hb _ _ _ Hbulk).
  - intros [= <- <-]. exact (Hb _ _ _ Hbulk).
Qed.

Lemma sync_places_extracts : extracts Places sync_places.
Proof.
  apply (pipeline_extracts Places places_gen).
  - intros db ix a Ha.
    apply (keeps_generators w_extracted (fun _ _ => eq_refl) db ix). tauto.
  - now apply (keeps_pipelines w_conn).
Qed.

Lemma sync_admin_boundaries_extracts :
  extracts AdminBoundaries sync_admin_boundaries.
Proof.
  apply (pipeline_extracts AdminBoundaries admin_gen).
  - intros db ix a Ha.
    apply (keeps_generators w_extracted (fun _ _ => eq_refl) db ix). tauto.
  - now apply (keeps_pipelines w_conn).
Qed.

Lemma sync_poi_extracts : extracts Poi sync_poi.
Proof.
  apply (pipeline_extracts Poi poi_gen).
  - intros db ix a Ha.
    apply (keeps_generators w_extracted (fun _ _ => eq_refl) db ix). tauto.
  - now apply (keeps_pipelines w_conn).
Qed.

Lemma sync_roads_extracts : extracts Roads sync_roads.
Proof.
  apply (pipeline_extracts Roads roads_gen).
  - intros db ix a Ha.
    apply (keeps_generators w_extracted (fun _ _ => eq_refl) db ix). tauto.
  - now apply (keeps_pipelines w_conn).
Qed.


Lemma sync_all_setup (w w1 : world) :
  (connect_db ;; create_index) (add_log (INFO, Starting) w) = (Ok tt, w1) ->
  sync_all w = guarded pipelines w1.
Proof.
  intros Hsetup.
  unfold sync_all. unfold bind at 1. cbv [logger modify].
  unfold guarded, try_finally, try_except. fold pipelines.
  unfold bind at 1. unfold bind at 1 in Hsetup.
  destruct (connect_db (add_log (INFO, Starting) w)) as [[[]|e] wa];
    [|discriminate].
  unfold bind at 1. rewrite Hsetup. reflexivity.
Qed.

Lemma sync_all_after_setup (w w1 : world) :
  (connect_db ;; create_index) (add_log (INFO, Starting) w) = (Ok tt, w1) ->
  (forall e w2, is_Exception e = true -> pipelines w1 = (Raise e, w2) ->
     sync_all w = (Raise (SystemExit 1), aborted e w2)) /\
  (forall w2, pipelines w1 = (Ok tt, w2) ->
     sync_all w = (Ok tt, close_connection w2)).
Proof.
  intros Hsetup. rewrite (sync_all_setup w w1 Hsetup).
  unfold guarded, try_finally, try_except, aborted, close_connection.
  split.
  - intros e w2 He Hp. rewrite Hp, He.
    cbv [bind logger modify raise gets ret].
    change (w_conn (add_log (ERROR, SyncFailed e) w2)) with (w_conn w2).
    now destruct (w_conn w2).
  - intros w2 Hp. rewrite Hp. cbv [bind gets modify ret].
    now destruct (w_conn w2).
Qed.

(** Setting up leaves an open connection and an empty index, has run no
    extraction and has not touched the tables. *)
Lemma setup_frame (w0 w1 : world) :
  (connect_db ;; create_index) w0 = (Ok tt, w1) ->
  w_conn w1 = Some ConnOpen /\ w_extracted w1 = w_extracted w0 /\
  (ix_docs <$> w_index w1) = Some [] /\
  w_db w1 = w_db w0 /\ w_es_index w1 = w_es_index w0.
Proof.
  cbv [connect_db create_index try_except bind gets ret raise open_read
         json_load try_except_FileNotFoundError logger modify is_Exception].
  destruct (w_db_up w0); [|discriminate]. cbn.
  repeat match goal with
    | |- context [match ?x with _ => _ end] =>
        lazymatch x with
        | context [match _ with _ => _ end] => fail
        | _ => destruct x; try discriminate
        end
    end;
  intros [= <-]; repeat split.
Qed.

Lemma aborted_extracted (e : exn) (w : world) :
  w_extracted (aborted e w) = w_extracted w.
Proof. unfold aborted, close_connection. cbn. now destruct (w_conn w). Qed.

(** C5 (as the code has it). Once the connection and the index are set up,
    an error raised inside one entity type's pipeline ends the run: it is
    logged, the connection is closed and the process exits with status 1;
    the extraction queries executed are those of the pipelines up to the
    failing one, so the entity types after it are not processed. *)
Theorem pipeline_error_aborts_run (w w1 : world) :
  (connect_db ;; create_index) (add_log (INFO, Starting) w) = (Ok tt, w1) ->
  (forall e w2,
     is_Exception e = true ->
     sync_places w1 = (Raise e, w2) ->
     sync_all w = (Raise (SystemExit 1), aborted e w2) /\
     w_extracted (aborted e w2) = w_extracted w ++ [Places]) /\
  (forall e n1 w2 w3,
     is_Exception e = true ->
     sync_places w1 = (Ok n1, w2) ->
     sync_admin_boundaries w2 = (Raise e, w3) ->
     sync_all w = (Raise (SystemExit 1), aborted e w3) /\
     w_extracted (aborted e w3) = w_extracted w ++ [Places; AdminBoundaries]) /\
  (forall e n1 n2 w2 w3 w4,
     is_Exception e = true ->
     sync_places w1 = (Ok n1, w2) ->
     sync_admin_boundaries w2 = (Ok n2, w3) ->
     sync_poi w3 = (Raise e, w4) ->
     sync_all w = (Raise (SystemExit 1), aborted e w4) /\
     w_extracted (aborted e w4)
     = w_extracted w ++ [Places; AdminBoundaries; Poi]) /\
  (forall e n1 n2 n3 w2 w3 w4 w5,
     is_Exception e = true ->
     sync_places w1 = (Ok n1, w2) ->
     sync_admin_boundaries w2 = (Ok n2, w3) ->
     sync_poi w3 = (Ok n3, w4) ->
     sync_roads w4 = (Raise e, w5) ->
     sync_all w = (Raise (SystemExit 1), aborted e w5) /\
     w_extracted (aborted e w5)
     = w_extracted w ++ [Places; AdminBoundaries; Poi; Roads]).
Proof.
  intros Hsetup.
  destruct (sync_all_after_setup w w1 Hsetup) as [Habort _].
  destruct (setup_frame _ _ Hsetup) as (Hconn1 & Hx1 & _).
  change (w_extracted (add_log (INFO, Starting) w)) with (w_extracted w) in Hx1.
  split; [|split; [|split]].
  - intros e w2 He Hp. split.
    + apply Habort; [exact He|]. unfold pipelines, bind. now rewrite Hp.
    + rewrite aborted_extracted.
      destruct (sync_places_extracts _ _ _ Hp) as [_ Hx2].
      rewrite Hx2, Hx1 by exact Hconn1. reflexivity.
  - intros e n1 w2 w3 He Hp Ha. split.
    + apply Habort; [exact He|]. unfold pipelines, bind. now rewrite Hp, Ha.
    + rewrite aborted_extracted.
      destruct (sync_places_extracts _ _ _ Hp) as [Hc2 Hx2].
      destruct (sync_admin_boundaries_extracts _ _ _ Ha) as [_ Hx3].
      rewrite Hx3, Hx2, Hx1, <- app_assoc by congruence. reflexivity.
  - intros e n1 n2 w2 w3 w4 He Hp Ha Hi. split.
    + apply Habort; [exact He|]. unfold pipelines, bind.
      now rewrite Hp, Ha, Hi.
    + rewrite aborted_extracted.
      destruct (sync_places_extracts _ _ _ Hp) as [Hc2 Hx2].
      destruct (sync_admin_boundaries_extracts _ _ _ Ha) as [Hc3 Hx3].
      destruct (sync_poi_extracts _ _ _ Hi) as [_ Hx4].
      rewrite Hx4, Hx3, Hx2, Hx1, <- !app_assoc by congruence. reflexivity.
  - intros e n1 n2 n3 w2 w3 w4 w5 He Hp Ha Hi Hr. split.
    + apply Habort; [exact He|]. unfold pipelines, bind.
      now rewrite Hp, Ha, Hi, Hr.
    + rewrite aborted_extracted.
      destruct (sync_places_extracts _ _ _ Hp) as [Hc2 Hx2].
      destruct (sync_admin_boundaries_extracts _ _ _ Ha) as [Hc3 Hx3].
      destruct (sync_poi_extracts _ _ _ Hi) as [Hc4 Hx4].
      destruct (sync_roads_extracts _ _ _ Hr) as [_ Hx5].
      rewrite Hx5, Hx4, Hx3, Hx2, Hx1, <- !app_assoc by congruence.
      reflexivity.
Qed.



(** ** The documents a run writes *)

Lemma record_action_built (ix : string) (r : source_record) (w w' : world)
    (d : document) :
  record_action ix r w = (Ok d, w') -> built ix r d.
Proof.
  destruct r as [p|a|p|r]; cbn [record_action built]; unfold lift; eauto;
    now intros [= -> _].
Qed.

Lemma record_action_keeps_docs (ix : string) (r : source_record) :
  keeps docs_of (record_action ix r).
Proof.
  destruct r as [p|a|p|r]; cbn [record_action];
    first [apply keeps_lift | now apply keeps_admin_doc].
Qed.

Lemma write_document_docs (d : document) (w : world) :
  exists b w', write_document d w = (Ok b, w') /\
    docs_of w' = docs_of w ++ (if b then [d] else []).
Proof.
  cbv [write_document bind gets modify ret].
  destruct (index_accepts _ _); do 2 eexists; (split; [reflexivity|]);
    unfold docs_of; cbn; destruct (w_index w); cbn;
    rewrite ?app_nil_r; reflexivity.
Qed.

(** A chunk is written in order; the documents the index refuses are left
    out. *)
Lemma send_chunk_docs (chunk : list document) :
  forall s n w,
  exists sn w' sent, send_chunk chunk s n w = (Ok sn, w') /\
    sent `sublist_of` chunk /\ docs_of w' = docs_of w ++ sent.
Proof.
  induction chunk as [|d chunk IH]; intros s n w; cbn [send_chunk].
  - exists (s, n), w, []. rewrite app_nil_r. repeat split. constructor.
  - destruct (write_document_docs d w) as (b & w1 & E & Hdocs).
    unfold bind. rewrite E.
    destruct b.
    + destruct (IH (S s) n w1) as (sn & w' & sent & E' & Hsub & Hdocs').
      exists sn, w', (d :: sent). split; [exact E'|].
      split; [now constructor|]. rewrite Hdocs', Hdocs, <- app_assoc. reflexivity.
    + destruct (IH s (S n) w1) as (sn & w' & sent & E' & Hsub & Hdocs').
      exists sn, w', sent. split; [exact E'|].
      split; [now constructor|]. rewrite Hdocs', Hdocs, app_nil_r. reflexivity.
Qed.

Lemma built_sublist (ix : string) (rs : list source_record) (ds sent : list document) :
  Forall2 (built ix) rs ds -> sent `sublist_of` ds ->
  exists rs', rs' `sublist_of` rs /\ Forall2 (built ix) rs' sent.
Proof.
  intros Hb Hsub. revert rs Hb.
  induction Hsub as [|d sent ds Hsub IH|d sent ds Hsub IH]; intros rs Hb.
  - exists []. split; [apply sublist_nil_l | constructor].
  - apply Forall2_cons_inv_r in Hb as (r & rs0 & Hr & Hb & ->).
    destruct (IH _ Hb) as (rs' & Hs & Hb').
    exists (r :: rs'). split; now constructor.
  - apply Forall2_cons_inv_r in Hb as (r & rs0 & Hr & Hb & ->).
    destruct (IH _ Hb) as (rs' & Hs & Hb').
    exists rs'. split; [now constructor | exact Hb'].
Qed.

(** What the bulk helper adds to the index are documents built from some
    of the records behind the chunk and the generator, in their order. *)
Lemma bulk_loop_docs (ix : string) (rs : list source_record) :
  forall chunk rsC s n w res w',
    Forall2 (built ix) rsC chunk ->
    bulk_loop (record_action ix <$> rs) chunk s n w = (res, w') ->
    exists rsW docsW,
      rsW `sublist_of` rsC ++ rs /\ Forall2 (built ix) rsW docsW /\
      docs_of w' = docs_of w ++ docsW.
Proof.
  induction rs as [|r rs IH]; intros chunk rsC s n w res w' HC;
    cbn [fmap list_fmap bulk_loop].
  - destruct (send_chunk_docs chunk s n w) as (sn & w1 & sent & E & Hsub & Hd).
    rewrite E. intros [= <- <-].
    destruct (built_sublist _ _ _ _ HC Hsub) as (rs' & Hs & Hb).
    exists rs', sent. rewrite app_nil_r. auto.
  - unfold bind at 1.
    destruct (record_action ix r w) as [[d|e] w1] eqn:Er.
    + pose proof (record_action_built _ _ _ _ _ Er) as Hd.
      pose proof (record_action_keeps_docs ix r _ _ _ Er) as Hk.
      assert (H1 : Forall2 (built ix) [r] [d]) by (repeat constructor; exact Hd).
      destruct (Nat.eqb _ _).
      * unfold bind at 1.
        destruct (send_chunk_docs chunk s n w1)
          as (sn & w2 & sent & E & Hsub & Hdocs).
        rewrite E. intros Hrun.
        destruct (IH [d] [r] _ _ _ _ _ H1 Hrun)
          as (rsW & docsW & Hs & Hb & Hdocs').
        destruct (built_sublist _ _ _ _ HC Hsub) as (rs' & Hs' & Hb').
        exists (rs' ++ rsW), (sent ++ docsW). split; [|split].
        -- now apply sublist_app.
        -- now apply Forall2_app.
        -- rewrite Hdocs', Hdocs, Hk, <- app_assoc. reflexivity.
      * intros Hrun.
        destruct (IH (chunk ++ [d]) (rsC ++ [r]) _ _ _ _ _
                    (Forall2_app HC H1) Hrun)
          as (rsW & docsW & Hs & Hb & Hdocs').
        exists rsW, docsW. rewrite <- app_assoc in Hs.
        split; [exact Hs|]. split; [exact Hb|]. now rewrite Hdocs', Hk.
    + intros [= <- <-]. exists [], [].
      split; [apply sublist_nil_l|]. split; [constructor|].
      rewrite app_nil_r. exact (record_action_keeps_docs ix r _ _ _ Er).
Qed.

(** A pipeline adds to the index documents built from some of the records
    of its query, in their order. *)
Lemma pipeline_docs (e : entity)
    (gen : database -> string -> list (M world document))
    (recs : database -> list source_record) :
  (forall db ix, gen db ix = record_action ix <$> recs db) ->
  forall w res w',
    (cursor ;;
     modify (add_extracted e) ;;
     do db <- gets w_db;
     do es_index <- gets w_es_index;
     do sf <- helpers_bulk (gen db es_index);
     logger INFO (Synced e (fst sf) (snd sf)) ;;
     ret (fst sf)) w = (res, w') ->
    exists rsW docsW,
      rsW `sublist_of` recs (w_db w) /\
      Forall2 (built (w_es_index w)) rsW docsW /\
      docs_of w' = docs_of w ++ docsW.
Proof.
  intros Hgen w res w'. unfold bind at 1. unfold cursor at 1.
  cbv [bind gets raise ret].
  assert (Hnone : (res, w') = (res, w') -> w' = w ->
                  exists rsW docsW,
                    rsW `sublist_of` recs (w_db w) /\
                    Forall2 (built (w_es_index w)) rsW docsW /\
                    docs_of w' = docs_of w ++ docsW).
  { intros _ ->. exists [], []. split; [apply sublist_nil_l|].
    split; [constructor | now rewrite app_nil_r]. }
  destruct (w_conn w) as [[|]|]; [|intros [= <- <-]; auto..].
  cbv [modify]. set (w1 := add_extracted e w).
  change (w_db w1) with (w_db w). change (w_es_index w1) with (w_es_index w).
  rewrite Hgen. unfold helpers_bulk.
  destruct (bulk_loop _ [] 0%nat 0%nat w1) as [[sf|err] w2] eqn:Hbulk;
    apply (bulk_loop_docs _ _ [] []) in Hbulk as (rsW & docsW & Hs & Hb & Hd);
    try constructor.
  - cbv [logger modify]. intros [= <- <-]. exists rsW, docsW. auto.
  - intros [= <- <-]. exists rsW, docsW. auto.
Qed.

Lemma sync_places_docs (w w' : world) (res : result nat) :
  sync_places w = (res, w') ->
  exists rsW docsW,
    rsW `sublist_of` places_records (w_db w) /\
    Forall2 (built (w_es_index w)) rsW docsW /\
    docs_of w' = docs_of w ++ docsW.
Proof.
  apply (pipeline_docs Places places_gen places_records).
  intros db ix. unfold places_gen, places_records, places_query.
  now rewrite <- !list_fmap_compose.
Qed.

Lemma sync_admin_boundaries_docs (w w' : world) (res : result nat) :
  sync_admin_boundaries w = (res, w') ->
  exists rsW docsW,
    rsW `sublist_of` admin_records (w_db w) /\
    Forall2 (built (w_es_index w)) rsW docsW /\
    docs_of w' = docs_of w ++ docsW.
Proof.
  apply (pipeline_docs AdminBoundaries admin_gen admin_records).
  intros db ix. unfold admin_gen, admin_records, admin_query.
  now rewrite <- !list_fmap_compose.
Qed.

Lemma sync_poi_docs (w w' : world) (res : result nat) :
  sync_poi w = (res, w') ->
  exists rsW docsW,
    rsW `sublist_of` poi_records (w_db w) /\
    Forall2 (built (w_es_index w)) rsW docsW /\
    docs_of w' = docs_of w ++ docsW.
Proof.
  apply (pipeline_docs Poi poi_gen poi_records).
  intros db ix. unfold poi_gen, poi_records, poi_query.
  now rewrite <- !list_fmap_compose.
Qed.

Lemma sync_roads_docs (w w' : world) (res : result nat) :
  sync_roads w = (res, w') ->
  exists rsW docsW,
    rsW `sublist_of` roads_records (w_db w) /\
    Forall2 (built (w_es_index w)) rsW docsW /\
    docs_of w' = docs_of w ++ docsW.
Proof.
  apply (pipeline_docs Roads roads_gen roads_records).
  intros db ix. unfold roads_gen, roads_records, roads_query.
  now rewrite <- !list_fmap_compose.
Qed.

Lemma written_from_app (ix : string) (ra rb : list source_record) (w1 w2 w3 : world) :
  written_from ix ra w1 w2 -> written_from ix rb w2 w3 ->
  written_from ix (ra ++ rb) w1 w3.
Proof.
  intros (r1 & d1 & S1 & B1 & D1) (r2 & d2 & S2 & B2 & D2).
  exists (r1 ++ r2), (d1 ++ d2). split; [now apply sublist_app|].
  split; [now apply Forall2_app|]. now rewrite D2, D1, <- app_assoc.
Qed.

Lemma written_from_more (ix : string) (ra rb : list source_record) (w1 w2 : world) :
  written_from ix ra w1 w2 -> written_from ix (ra ++ rb) w1 w2.
Proof.
  intros (r1 & d1 & S1 & B1 & D1). exists r1, d1.
  split; [now apply sublist_inserts_r | auto].
Qed.

Lemma written_from_same (ix : string) (records : list source_record)
    (w1 w2 w3 : world) :
  written_from ix records w1 w2 -> docs_of w3 = docs_of w2 ->
  written_from ix records w1 w3.
Proof.
  intros (r1 & d1 & S1 & B1 & D1) E. exists r1, d1. rewrite E. auto.
Qed.

Lemma pipelines_docs (w1 w5 : world) (res : result unit) :
  pipelines w1 = (res, w5) ->
  written_from (w_es_index w1) (run_records (w_db w1)) w1 w5.
Proof.
  destruct (keeps_pipelines w_db) as (Kd1 & Kd2 & Kd3 & _); try reflexivity.
  destruct (keeps_pipelines w_es_index) as (Ki1 & Ki2 & Ki3 & _); try reflexivity.
  unfold pipelines, run_records. unfold bind at 1.
  destruct (sync_places w1) as [[n1|e] w2] eqn:E1;
    pose proof (sync_places_docs _ _ _ E1) as W1;
    [|intros [= <- <-]; now apply written_from_more].
  intros Hrun. apply (written_from_app _ _ _ w1 w2 w5); [exact W1|].
  rewrite <- (Kd1 _ _ _ E1), <- (Ki1 _ _ _ E1). clear W1.
  revert Hrun. unfold bind at 1.
  destruct (sync_admin_boundaries w2) as [[n2|e] w3] eqn:E2;
    pose proof (sync_admin_boundaries_docs _ _ _ E2) as W2;
    [|intros [= <- <-]; now apply written_from_more].
  intros Hrun. apply (written_from_app _ _ _ w2 w3 w5); [exact W2|].
  rewrite <- (Kd2 _ _ _ E2), <- (Ki2 _ _ _ E2). clear W2.
  revert Hrun. unfold bind at 1.
  destruct (sync_poi w3) as [[n3|e] w4] eqn:E3;
    pose proof (sync_poi_docs _ _ _ E3) as W3;
    [|intros [= <- <-]; now apply written_from_more].
  intros Hrun. apply (written_from_app _ _ _ w3 w4 w5); [exact W3|].
  rewrite <- (Kd3 _ _ _ E3), <- (Ki3 _ _ _ E3). clear W3.
  revert Hrun. unfold bind at 1.
  destruct (sync_roads w4) as [[n4|e] w5'] eqn:E4;
    pose proof (sync_roads_docs _ _ _ E4) as W4.
  - cbv [logger modify]. intros [= <- <-].
    eapply written_from_same; [exact W4 | reflexivity].
  - now intros [= <- <-].
Qed.

(** After a run that got through the set-up, the index holds documents
    built from some of the run's records, in their order. *)
Lemma sync_all_docs (w w1 w' : world) (res : result unit) :
  (connect_db ;; create_index) (add_log (INFO, Starting) w) = (Ok tt, w1) ->
  sync_all w = (res, w') ->
  exists records,
    records `sublist_of` run_records (w_db w) /\
    Forall2 (built (w_es_index w)) records (docs_of w').
Proof.
  intros Hsetup. rewrite (sync_all_setup w w1 Hsetup).
  destruct (setup_frame _ _ Hsetup) as (_ & _ & Hempty & Hdb & Hix).
  change (w_db (add_log (INFO, Starting) w)) with (w_db w) in Hdb.
  change (w_es_index (add_log (INFO, Starting) w)) with (w_es_index w) in Hix.
  destruct (pipelines w1) as [r5 w5] eqn:Hp.
  destruct (pipelines_docs _ _ _ Hp) as (rsW & docsW & Hs & Hb & Hd).
  rewrite Hdb in Hs. rewrite Hix in Hb.
  assert (H1 : docs_of w1 = []).
  { unfold docs_of. destruct (w_index w1); [now injection Hempty | discriminate]. }
  rewrite H1 in Hd. cbn in Hd.
  intros Hrun. exists rsW. split; [exact Hs|].
  assert (Hsame : docs_of w' = docs_of w5).
  { revert Hrun. unfold guarded, try_finally, try_except. rewrite Hp.
    destruct r5 as [[]|e].
    - cbv [bind gets modify ret]. destruct (w_conn w5); now intros [= <- <-].
    - destruct (is_Exception e); cbv [bind logger gets modify ret raise]; cbn;
        destruct (w_conn w5); now intros [= <- <-]. }
  now rewrite Hsame, Hd.
Qed.

(** C8. When the source identifiers are distinct within each table, the
    documents of one run have pairwise distinct identifiers, across the four
    entity types: an identifier is the type's prefix followed by the source
    identifier.  This holds of any documents built from distinct records of
    the run, and so of the documents the index holds after the run. *)
Theorem document_ids_distinct (w : world) :
  NoDup (pl_id <$> places (w_db w)) ->
  NoDup (ab_id <$> admin_boundaries (w_db w)) ->
  NoDup (poi_id <$> pois (w_db w)) ->
  NoDup (rd_id <$> named_roads (w_db w)) ->
  (forall ix records docs,
     records `sublist_of` run_records (w_db w) ->
     Forall2 (built ix) records docs ->
     _id <$> docs = PStr ∘ record_doc_id <$> records /\
     NoDup (_id <$> docs)) /\
  (forall w1 res w',
     (connect_db ;; create_index) (add_log (INFO, Starting) w) = (Ok tt, w1) ->
     sync_all w = (res, w') ->
     NoDup (_id <$> docs_of w')).
Proof.
  intros Hpl Hab Hpoi Hrd. split.
  - intros ix records docs Hsub Hbuilt.
    now apply (built_ids_distinct ix (w_db w)).
  - intros w1 res w' Hsetup Hrun.
    destruct (sync_all_docs _ _ _ _ Hsetup Hrun) as (records & Hsub & Hbuilt).
    now apply (built_ids_distinct (w_es_index w) (w_db w) records).
Qed.


(** ** The hierarchy of a province, a district and a municipality *)

Lemma conn_open_or_not (w : world) :
  w_conn w = Some ConnOpen \/ w_conn w <> Some ConnOpen.
Proof. destruct (w_conn w) as [[|]|]; [now left | now right..]. Qed.

Lemma py_or_text (a b : option string) :
  py_or (sql_text a) (sql_text b) = localized_or a b.
Proof. destruct a as [[|c s]|]; reflexivity. Qed.

Lemma admin_row_name_ne (a : admin_boundary) :
  get (admin_row a) "name_ne" = sql_text (ab_name_ne a).
Proof. reflexivity. Qed.

Lemma copy_from_key (parent : gmap string pyval) (keys : list string) (k : string) :
  k ∈ keys ->
  forall h : gmap string pyval, get (copy_from parent keys h) k = get parent k.
Proof.
  unfold copy_from. induction keys as [|k' keys IH]; intros Hk h; simpl.
  - now apply elem_of_nil in Hk.
  - destruct (decide (k ∈ keys)) as [Hin|Hout].
    + now apply IH.
    + apply elem_of_cons in Hk as [->|Hk]; [|contradiction].
      change (get (copy_from parent keys (<[k' := get parent k']> h)) k'
              = get parent k').
      rewrite (copy_from_other parent keys k' Hout).
      unfold get. now rewrite lookup_insert_eq.
Qed.

(** What the block that looks the parents up leaves behind: the keys it
    does not name are untouched; either nothing changed, or the keys it
    names hold what a district and a province that enclose the centroid
    give; and on an open connection, for a centroid that lies in some
    district and in some province, they do. *)
Lemma resolve_parents_lookup (keys : list string) (centroid : option string)
    (h : gmap string pyval) (w : world) :
  exists h' w',
    resolve_parents keys (sql_text centroid) h w = (Ok h', w') /\
    (forall k, k ∉ keys -> get h' k = get h k) /\
    (h' = h \/
     exists wkt pt d p,
       centroid = Some wkt /\ ST_GeomFromText wkt = Some pt /\
       encloses (w_db w) 6 pt d /\ encloses (w_db w) 4 pt p /\
       forall k, k ∈ keys -> get h' k = get (parent_row d p) k) /\
    (forall wkt pt,
       w_conn w = Some ConnOpen ->
       centroid = Some wkt -> wkt <> EmptyString ->
       ST_GeomFromText wkt = Some pt ->
       (exists d, encloses (w_db w) 6 pt d) ->
       (exists p, encloses (w_db w) 4 pt p) ->
       exists d p,
         encloses (w_db w) 6 pt d /\ encloses (w_db w) 4 pt p /\
         forall k, k ∈ keys -> get h' k = get (parent_row d p) k).
Proof.
  unfold resolve_parents.
  destruct centroid as [[|c wkt]|]; cbn [sql_text from_option truthy].
  1, 3: exists h, w; unfold ret; repeat split; auto; intros; congruence.
  set (s := String c wkt).
  destruct (conn_open_or_not w) as [Hconn|Hconn].
  - destruct (ST_GeomFromText s) as [pt|] eqn:Hpt.
    + destruct (_get_parent_admin_open w s pt Hconn Hpt) as (rows & Eq & E).
      destruct (parent_query_rows (w_db w) s pt Hpt) as (rows' & Eq' & Hin & Hnil).
      rewrite Eq in Eq'. apply Ok_inj in Eq'. subst rows'.
      unfold bind. rewrite E. destruct rows as [|r rows]; cbn [head parent_truthy].
      * exists h, w. unfold ret. repeat split; auto.
        intros wkt' pt' _ [= <-] _ Hpt' Hd Hp.
        rewrite Hpt in Hpt'. injection Hpt' as <-.
        destruct (proj1 Hnil eq_refl) as [No|No]; contradiction.
      * destruct (Hin r) as (d & p & Hd & Hp & ->); [left|].
        rewrite parent_row_truthy. cbn [default].
        exists (copy_from (parent_row d p) keys h), w. unfold ret.
        split; [reflexivity|]. split.
        { intros k Hk. now apply copy_from_other. }
        split.
        { right. exists s, pt, d, p.
          split; [reflexivity|]. split; [exact Hpt|].
          split; [exact Hd|]. split; [exact Hp|].
          intros k Hk. now apply copy_from_key. }
        intros wkt' pt' _ [= <-] _ Hpt' _ _.
        rewrite Hpt in Hpt'. injection Hpt' as <-.
        exists d, p. split; [exact Hd|]. split; [exact Hp|].
        intros k Hk. now apply copy_from_key.
    + destruct (_get_parent_admin_failed w s (or_intror Hpt)) as [w' E].
      unfold bind. rewrite E. cbn [parent_truthy]. exists h, w'. unfold ret.
      repeat split; auto. intros wkt' pt' _ [= <-] _ Hpt'. congruence.
  - destruct (_get_parent_admin_failed w s (or_introl Hconn)) as [w' E].
    unfold bind. rewrite E. cbn [parent_truthy]. exists h, w'. unfold ret.
    repeat split; auto. intros; contradiction.
Qed.

Lemma _build_admin_hierarchy_district (a : admin_boundary) :
  ab_admin_level a = Some 6 ->
  _build_admin_hierarchy (admin_row a)
  = resolve_parents ["province"; "province_ne"]
      (sql_text (ST_AsText <$> ab_centroid a))
      (<["district_ne" := localized_or (ab_name_ne a) (ab_name a)]>
         (<["district" := sql_text (ab_name a)]> empty_hierarchy)).
Proof.
  intros Hlevel. unfold _build_admin_hierarchy.
  rewrite admin_row_level, Hlevel, admin_row_name, admin_row_name_ne,
    admin_row_centroid, py_or_text.
  reflexivity.
Qed.

Lemma province_like (a : admin_boundary) (w : world) :
  ab_admin_level a = Some 4 ->
  exists h,
    _build_admin_hierarchy (admin_row a) w = (Ok h, w) /\
    get h "district" = PNone /\ get h "district_ne" = PNone.
Proof.
  intros Hlevel. unfold _build_admin_hierarchy.
  rewrite admin_row_level, Hlevel.
  cbn [sql_int from_option py_eq Z.eqb Pos.eqb]. unfold ret.
  eexists. split; [reflexivity|]. split; reflexivity.
Qed.

(** X1. A province (admin level 4) is its own province: [province] is
    its name, [province_ne] its localized name, or its name when the
    localized one is NULL or empty; the five other fields stay unset.  The
    source is not queried and nothing is logged, whatever the centroid. *)
Theorem province_hierarchy (a : admin_boundary) (w : world) :
  ab_admin_level a = Some 4 ->
  exists h,
    _build_admin_hierarchy (admin_row a) w = (Ok h, w) /\
    get h "province" = sql_text (ab_name a) /\
    get h "province_ne" = localized_or (ab_name_ne a) (ab_name a) /\
    Forall (fun k => get h k = PNone)
      ["ward"; "municipality"; "municipality_ne"; "district"; "district_ne"].
Proof.
  intros Hlevel. unfold _build_admin_hierarchy.
  rewrite admin_row_level, Hlevel, admin_row_name, admin_row_name_ne, py_or_text.
  cbn [sql_int from_option py_eq Z.eqb Pos.eqb]. unfold ret.
  eexists. split; [reflexivity|].
  split; [reflexivity|]. split; [reflexivity|].
  repeat constructor.
Qed.

(** X2. A district (admin level 6): [district] is its own name and
    [district_ne] its localized name (its name when that is NULL or empty),
    whatever the lookup finds; ward and municipality fields stay unset.
    Its province fields are either both unset, or the name and the
    localized name (with no fallback to the name) of a province whose
    polygon contains the centroid, found together with a district polygon
    that contains it.  On an open connection, for a centroid that lies in
    some district and some province polygon, the province is resolved. *)
Theorem district_hierarchy (a : admin_boundary) (w : world) :
  ab_admin_level a = Some 6 ->
  exists h w',
    _build_admin_hierarchy (admin_row a) w = (Ok h, w') /\
    get h "district" = sql_text (ab_name a) /\
    get h "district_ne" = localized_or (ab_name_ne a) (ab_name a) /\
    Forall (fun k => get h k = PNone) ["ward"; "municipality"; "municipality_ne"] /\
    ((get h "province" = PNone /\ get h "province_ne" = PNone) \/
     exists c pt d p,
       ab_centroid a = Some c /\ ST_GeomFromText (ST_AsText c) = Some pt /\
       encloses (w_db w) 6 pt d /\ encloses (w_db w) 4 pt p /\
       get h "province" = sql_text (ab_name p) /\
       get h "province_ne" = sql_text (ab_name_ne p)) /\
    (forall c pt,
       w_conn w = Some ConnOpen ->
       ab_centroid a = Some c -> ST_AsText c <> EmptyString ->
       ST_GeomFromText (ST_AsText c) = Some pt ->
       (exists d, encloses (w_db w) 6 pt d) ->
       (exists p, encloses (w_db w) 4 pt p) ->
       exists p, encloses (w_db w) 4 pt p /\
         get h "province" = sql_text (ab_name p) /\
         get h "province_ne" = sql_text (ab_name_ne p)).
Proof.
  intros Hlevel. rewrite (_build_admin_hierarchy_district a Hlevel).
  destruct (resolve_parents_lookup ["province"; "province_ne"]
              (ST_AsText <$> ab_centroid a)
              (<["district_ne" := localized_or (ab_name_ne a) (ab_name a)]>
                 (<["district" := sql_text (ab_name a)]> empty_hierarchy)) w)
    as (h & w' & E & Hother & Hfound & Hfinds).
  exists h, w'. split; [exact E|].
  split; [rewrite Hother by other_key; reflexivity|].
  split; [rewrite Hother by other_key; reflexivity|].
  split.
  { repeat constructor; rewrite Hother by other_key; reflexivity. }
  split.
  - destruct Hfound as [->|(wkt & pt & d & p & Hc & Hpt & Hd & Hp & Hkeys)].
    + left. split; reflexivity.
    + right. destruct (ab_centroid a) as [c|]; [|discriminate].
      injection Hc as <-. exists c, pt, d, p.
      split; [reflexivity|]. split; [exact Hpt|].
      split; [exact Hd|]. split; [exact Hp|].
      split; rewrite Hkeys by (repeat constructor); reflexivity.
  - intros c pt Hconn Hc Hne Hpt Hd Hp.
    destruct (Hfinds (ST_AsText c) pt Hconn) as (d' & p' & _ & Hp' & Hkeys); auto.
    { now rewrite Hc. }
    exists p'. split; [exact Hp'|].
    split; rewrite Hkeys by (repeat constructor); reflexivity.
Qed.

(** X3. A municipality (admin level 7): [municipality] is its own name
    and [municipality_ne] its localized name (its name when that is NULL or
    empty); [ward] stays unset.  Its district and province fields are
    either all four unset, or the names and localized names of one district
    and one province whose polygons both contain the centroid.  On an open
    connection, for a centroid that lies in some district and some province
    polygon, they are resolved. *)
Theorem municipality_hierarchy (a : admin_boundary) (w : world) :
  ab_admin_level a = Some 7 ->
  exists h w',
    _build_admin_hierarchy (admin_row a) w = (Ok h, w') /\
    get h "municipality" = sql_text (ab_name a) /\
    get h "municipality_ne" = localized_or (ab_name_ne a) (ab_name a) /\
    get h "ward" = PNone /\
    (Forall (fun k => get h k = PNone)
       ["district"; "district_ne"; "province"; "province_ne"] \/
     exists c pt d p,
       ab_centroid a = Some c /\ ST_GeomFromText (ST_AsText c) = Some pt /\
       encloses (w_db w) 6 pt d /\ encloses (w_db w) 4 pt p /\
       fields ["district"; "district_ne"; "province"; "province_ne"] h
       = [ sql_text (ab_name d); sql_text (ab_name_ne d);
           sql_text (ab_name p); sql_text (ab_name_ne p) ]) /\
    (forall c pt,
       w_conn w = Some ConnOpen ->
       ab_centroid a = Some c -> ST_AsText c <> EmptyString ->
       ST_GeomFromText (ST_AsText c) = Some pt ->
       (exists d, encloses (w_db w) 6 pt d) ->
       (exists p, encloses (w_db w) 4 pt p) ->
       exists d p, encloses (w_db w) 6 pt d /\ encloses (w_db w) 4 pt p /\
         fields ["district"; "district_ne"; "province"; "province_ne"] h
         = [ sql_text (ab_name d); sql_text (ab_name_ne d);
             sql_text (ab_name p); sql_text (ab_name_ne p) ]).
Proof.
  intros Hlevel. rewrite (_build_admin_hierarchy_municipality a Hlevel).
  rewrite admin_row_centroid, admin_row_name, admin_row_name_ne.
  unfold municipality_stage. rewrite py_or_text.
  destruct (resolve_parents_lookup
              ["district"; "district_ne"; "province"; "province_ne"]
              (ST_AsText <$> ab_centroid a)
              (<["municipality_ne" := localized_or (ab_name_ne a) (ab_name a)]>
                 (<["municipality" := sql_text (ab_name a)]> empty_hierarchy)) w)
    as (h & w' & E & Hother & Hfound & Hfinds).
  exists h, w'. split; [exact E|].
  split; [rewrite Hother by other_key; reflexivity|].
  split; [rewrite Hother by other_key; reflexivity|].
  split; [rewrite Hother by other_key; reflexivity|].
  split.
  - destruct Hfound as [->|(wkt & pt & d & p & Hc & Hpt & Hd & Hp & Hkeys)].
    + left. repeat constructor.
    + right. destruct (ab_centroid a) as [c|]; [|discriminate].
      injection Hc as <-. exists c, pt, d, p.
      split; [reflexivity|]. split; [exact Hpt|].
      split; [exact Hd|]. split; [exact Hp|].
      unfold fields. cbn [fmap list_fmap].
      rewrite !Hkeys by (repeat constructor). reflexivity.
  - intros c pt Hconn Hc Hne Hpt Hd Hp.
    destruct (Hfinds (ST_AsText c) pt Hconn) as (d' & p' & Hd' & Hp' & Hkeys); auto.
    { now rewrite Hc. }
    exists d', p'. split; [exact Hd'|]. split; [exact Hp'|].
    unfold fields. cbn [fmap list_fmap].
    rewrite !Hkeys by (repeat constructor). reflexivity.
Qed.

(** ** A boundary without a centroid, and a lookup that fails *)

Lemma _build_admin_hierarchy_other (a : admin_boundary) :
  ab_admin_level a <> Some 4 -> ab_admin_level a <> Some 6 ->
  ab_admin_level a <> Some 7 -> ab_admin_level a <> Some 9 ->
  _build_admin_hierarchy (admin_row a) = ret empty_hierarchy.
Proof.
  intros H4 H6 H7 H9. unfold _build_admin_hierarchy.
  rewrite admin_row_level, !py_eq_int.
  now rewrite !bool_decide_eq_false_2 by assumption.
Qed.

(** The four cases of the resolver, and the one that is none of them. *)
Lemma admin_level_cases (l : option Z) :
  l = Some 4 \/ l = Some 6 \/ l = Some 7 \/ l = Some 9 \/
  (l <> Some 4 /\ l <> Some 6 /\ l <> Some 7 /\ l <> Some 9).
Proof.
  destruct l as [z|]; [|right; right; right; right; repeat split; discriminate].
  destruct (decide (z = 4)) as [->|]; [now left|].
  destruct (decide (z = 6)) as [->|]; [now right; left|].
  destruct (decide (z = 7)) as [->|]; [now right; right; left|].
  destruct (decide (z = 9)) as [->|]; [now right; right; right; left|].
  right; right; right; right. repeat split; congruence.
Qed.

(** X4. A boundary whose centroid is NULL is resolved without a
    query: the world is left as it is (nothing is logged), and nothing above
    the boundary's own level is filled in: the province fields are unset
    unless the boundary is a province, the district fields unless it is a
    district. *)
Theorem no_centroid_no_lookup (a : admin_boundary) (w : world) :
  ab_centroid a = None ->
  exists h,
    _build_admin_hierarchy (admin_row a) w = (Ok h, w) /\
    (ab_admin_level a <> Some 4 ->
       get h "province" = PNone /\ get h "province_ne" = PNone) /\
    (ab_admin_level a <> Some 6 ->
       get h "district" = PNone /\ get h "district_ne" = PNone).
Proof.
  intros Hc.
  destruct (admin_level_cases (ab_admin_level a))
    as [L|[L|[L|[L|(L4 & L6 & L7 & L9)]]]].
  - destruct (province_like a w L) as (h & E & Hd).
    exists h. split; [exact E|]. split; [congruence|]. intros _. exact Hd.
  - rewrite (_build_admin_hierarchy_district a L), Hc.
    eexists. split; [reflexivity|]. split; [|congruence].
    intros _. split; reflexivity.
  - rewrite (_build_admin_hierarchy_municipality a L), admin_row_centroid, Hc.
    eexists. split; [reflexivity|]. split; intros _; split; reflexivity.
  - rewrite (_build_admin_hierarchy_ward a L), admin_row_centroid, Hc.
    eexists. split; [reflexivity|].
    cbn [fmap option_fmap option_map sql_text from_option].
    unfold ward_stage.
    destruct (Re.re_match ward_pattern _) as [m|];
      [destruct (py_int (Re.group m 2))|];
      (split; intros _; split; reflexivity).
  - rewrite (_build_admin_hierarchy_other a L4 L6 L7 L9).
    eexists. split; [reflexivity|]. split; intros _; split; reflexivity.
Qed.

Lemma admin_doc_world (ix : string) (row : gmap string pyval) (w w' : world)
    (doc : document) :
  admin_doc ix row w = (Ok doc, w') ->
  exists h, _build_admin_hierarchy row w = (Ok h, w') /\
    fields hierarchy_keys (_source doc) = fields hierarchy_keys h.
Proof.
  intros Hdoc. unfold admin_doc in Hdoc. cbv zeta in Hdoc.
  apply bind_Ok in Hdoc as (name_en & w0 & E0 & Hdoc).
  apply lift_Ok in E0 as [_ ->].
  apply bind_Ok in Hdoc as (h & w1 & Eh & Hdoc).
  exists h. rewrite Eh.
  invert_builder Hdoc. split; reflexivity.
Qed.

(** X5. A parent lookup that cannot run does not raise: it answers
    nothing and logs one warning that carries the error.  When the
    connection gives no cursor (it was never made, or it is closed) nothing
    else changes.  When it is the server that rejects the statement, the
    log gains that one warning and the index is as it was; the connection
    is then left in a failed transaction, of which nothing is said here.
    A lookup that runs logs nothing, whether it finds parents or not.  A
    district, municipality or ward whose lookup fails is still made into a
    document, without a province, the log gaining the warning alone. *)
Theorem parent_lookup_failure_is_logged (w : world) (wkt : string) :
  (forall e, cursor_error (w_conn w) = Some e ->
     _get_parent_admin (PStr wkt) w
     = (Ok None, add_log (WARNING, ParentAdminFailed e) w)) /\
  (forall e, lookup_error w wkt = Some e ->
     exists w',
       _get_parent_admin (PStr wkt) w = (Ok None, w') /\
       w_log w' = w_log w ++ [(WARNING, ParentAdminFailed e)] /\
       w_index w' = w_index w) /\
  (lookup_error w wkt = None ->
     exists r, _get_parent_admin (PStr wkt) w = (Ok r, w)) /\
  (forall e ix a c d,
     lookup_error w wkt = Some e ->
     ab_admin_level a = Some 6 \/ ab_admin_level a = Some 7 \/
     ab_admin_level a = Some 9 ->
     ab_centroid a = Some c -> ST_AsText c = wkt -> wkt <> EmptyString ->
     parse_tags (ab_tags a) = PDict d ->
     exists doc w',
       admin_doc ix (admin_row a) w = (Ok doc, w') /\
       w_log w' = w_log w ++ [(WARNING, ParentAdminFailed e)] /\
       w_index w' = w_index w /\
       get (_source doc) "province" = PNone).
Proof.
  assert (Hfail : forall e, lookup_error w wkt = Some e ->
            _get_parent_admin (PStr wkt) w
            = (Ok None, add_log (WARNING, ParentAdminFailed e) w)).
  { intros e He. unfold lookup_error, cursor_error in He.
    cbv [_get_parent_admin try_except bind cursor gets lift ret raise
           logger modify].
    destruct (w_conn w) as [[|]|]; simpl.
    - unfold parent_query. destruct (ST_GeomFromText wkt); [discriminate|].
      injection He as <-. reflexivity.
    - injection He as <-. reflexivity.
    - injection He as <-. reflexivity. }
  split; [|split; [|split]].
  - intros e He. apply Hfail. unfold lookup_error. now rewrite He.
  - intros e He. eexists. split; [exact (Hfail e He)|]. split; reflexivity.
  - intros He. unfold lookup_error, cursor_error in He.
    destruct (w_conn w) as [[|]|] eqn:Hconn; try discriminate.
    destruct (ST_GeomFromText wkt) as [pt|] eqn:Hpt; [|discriminate].
    destruct (_get_parent_admin_open w wkt pt Hconn Hpt) as (rows & _ & E).
    eauto.
  - intros e ix a c d He Hlevel Hc Htext Hne Htags.
    destruct (admin_doc_total ix a w d Htags) as (doc & w' & Hdoc & _).
    destruct (admin_doc_world _ _ _ _ _ Hdoc) as (h & Eh & Hfields).
    assert (Hh : _build_admin_hierarchy (admin_row a) w
                 = (Ok h, add_log (WARNING, ParentAdminFailed e) w) /\
                 get h "province" = PNone).
    { assert (Hres : forall keys h0,
                resolve_parents keys (sql_text (ST_AsText <$> ab_centroid a)) h0 w
                = (Ok h0, add_log (WARNING, ParentAdminFailed e) w)).
      { intros keys h0. unfold resolve_parents. rewrite Hc.
        cbn [fmap option_fmap option_map sql_text from_option].
        rewrite Htext. destruct wkt as [|x wkt']; [contradiction|].
        cbn [truthy]. unfold bind. rewrite (Hfail e He). reflexivity. }
      destruct Hlevel as [L|[L|L]].
      - rewrite (_build_admin_hierarchy_district a L), Hres in Eh |- *.
        injection Eh as <- _. split; reflexivity.
      - rewrite (_build_admin_hierarchy_municipality a L), admin_row_centroid,
          Hres in Eh |- *.
        injection Eh as <- _. split; reflexivity.
      - rewrite (_build_admin_hierarchy_ward a L), admin_row_centroid,
          Hres in Eh |- *.
        injection Eh as <- _. split; [reflexivity|].
        apply ward_stage_parents. }
    destruct Hh as [Eh' Hprov]. rewrite Eh' in Eh. injection Eh as <-.
    exists doc, (add_log (WARNING, ParentAdminFailed e) w).
    split; [exact Hdoc|]. split; [reflexivity|]. split; [reflexivity|].
    injection Hfields as _ _ _ _ _ Hp _. now rewrite Hp.
Qed.

(** ** The keys of the hierarchy *)

Lemma empty_hierarchy_keys : has_hierarchy_keys empty_hierarchy.
Proof.
  intros k. unfold empty_hierarchy, hierarchy_keys.
  cbn [list_to_map foldr uncurry].
  rewrite !lookup_insert_is_Some', lookup_empty, !elem_of_cons, elem_of_nil.
  cbn [fst]. rewrite is_Some_alt. intuition congruence.
Qed.

Lemma insert_hierarchy_key (h : gmap string pyval) (k : string) (v : pyval) :
  k ∈ hierarchy_keys -> has_hierarchy_keys h ->
  has_hierarchy_keys (<[k := v]> h).
Proof.
  intros Hk Hh k'. rewrite lookup_insert_is_Some', (Hh k').
  split; [intros [<-|?]; assumption | auto].
Qed.

Lemma copy_from_hierarchy_keys (parent : gmap string pyval) (keys : list string) :
  keys ⊆ hierarchy_keys ->
  forall h, has_hierarchy_keys h -> has_hierarchy_keys (copy_from parent keys h).
Proof.
  unfold copy_from. induction keys as [|k keys IH]; intros Hsub h Hh; simpl.
  - exact Hh.
  - apply IH.
    + intros x Hx. apply Hsub. now right.
    + apply insert_hierarchy_key; [apply Hsub; now left | exact Hh].
Qed.

Lemma resolve_parents_keys (keys : list string) (centroid : pyval)
    (h0 h : gmap string pyval) (w w' : world) :
  keys ⊆ hierarchy_keys -> has_hierarchy_keys h0 ->
  resolve_parents keys centroid h0 w = (Ok h, w') ->
  has_hierarchy_keys h.
Proof.
  intros Hsub Hh0 E. unfold resolve_parents in E.
  destruct (truthy centroid).
  - apply bind_Ok in E as (ph & w1 & _ & E).
    destruct (parent_truthy ph); apply ret_Ok in E as [<- _];
      [now apply copy_from_hierarchy_keys | exact Hh0].
  - apply ret_Ok in E as [<- _]. exact Hh0.
Qed.

Ltac hierarchy_key := unfold hierarchy_keys; repeat constructor.

Ltac assigned_keys :=
  repeat first
    [ exact empty_hierarchy_keys
    | apply insert_hierarchy_key; [hierarchy_key|] ].

(** X6. Whatever the row, a hierarchy the resolver returns has exactly
    the seven keys [ward], [municipality], [municipality_ne], [district],
    [district_ne], [province] and [province_ne]: the resolver only ever
    assigns to keys the dictionary starts with. *)
Theorem hierarchy_has_its_seven_keys (row : gmap string pyval) (w w' : world)
    (h : gmap string pyval) :
  _build_admin_hierarchy row w = (Ok h, w') ->
  forall k, is_Some (h !! k) <-> k ∈ hierarchy_keys.
Proof.
  intros E. change (has_hierarchy_keys h).
  assert (H2 : ["province"; "province_ne"] ⊆ hierarchy_keys).
  { intros k Hk. repeat (apply elem_of_cons in Hk as [->|Hk]; [hierarchy_key|]).
    now apply elem_of_nil in Hk. }
  assert (H4 : ["district"; "district_ne"; "province"; "province_ne"]
               ⊆ hierarchy_keys).
  { intros k Hk. repeat (apply elem_of_cons in Hk as [->|Hk]; [hierarchy_key|]).
    now apply elem_of_nil in Hk. }
  unfold _build_admin_hierarchy in E. cbv zeta in E.
  destruct (py_eq (get row "admin_level") (PInt 4)).
  { apply ret_Ok in E as [<- _].
    assigned_keys. }
  destruct (py_eq (get row "admin_level") (PInt 6)).
  { eapply (resolve_parents_keys _ _ _ _ _ _ H2); [|exact E].
    assigned_keys. }
  destruct (py_eq (get row "admin_level") (PInt 7)).
  { eapply (resolve_parents_keys _ _ _ _ _ _ H4); [|exact E].
    assigned_keys. }
  destruct (py_eq (get row "admin_level") (PInt 9)).
  - apply bind_Ok in E as (m & w1 & Em & E).
    eapply (resolve_parents_keys _ _ _ _ _ _ H4); [|exact E].
    destruct m as [m|]; [|exact empty_hierarchy_keys].
    destruct (py_int (Re.group m 2)); assigned_keys.
  - apply ret_Ok in E as [<- _]. exact empty_hierarchy_keys.
Qed.


(** ** The ward number *)

Lemma numeral_of_digits (cs : list string) (u : Decimal.uint) :
  numeral_of cs = Some u -> forallb Re.is_digit cs = true.
Proof.
  revert u. induction cs as [|c cs IH]; intros u; simpl; [reflexivity|].
  unfold Re.is_digit. destruct (decimal c); [|discriminate].
  destruct (numeral_of cs) as [u'|]; [|discriminate].
  intros _. exact (IH u' eq_refl).
Qed.

(** The text of a decimal numeral spells that numeral. *)
Lemma numeral_string_of_uint (u : Decimal.uint) :
  numeral (NilEmpty.string_of_uint u) = Some u.
Proof.
  unfold numeral.
  induction u; cbn [NilEmpty.string_of_uint]; [reflexivity|..];
    rewrite chars_single by reflexivity; cbn [numeral_of]; rewrite IHu;
    reflexivity.
Qed.

Lemma string_of_uint_starts_char (u : Decimal.uint) :
  starts_char (NilEmpty.string_of_uint u).
Proof. destruct u; cbn [NilEmpty.string_of_uint]; [exact I | reflexivity..]. Qed.

(** The decimal text of a natural number is a non-empty run of digits that
    spells the number. *)
Lemma id_text_digits (n : Z) :
  0 <= n ->
  id_text n <> EmptyString /\ starts_char (id_text n) /\
  exists u, numeral (id_text n) = Some u /\ Z.of_uint u = n.
Proof.
  intros Hn. unfold id_text. destruct n as [|p|p]; [| |lia].
  - split; [discriminate|]. split; [reflexivity|].
    exists (Decimal.D0 Decimal.Nil). split; reflexivity.
  - cbn [Z.to_int NilZero.string_of_int].
    pose proof (DecimalPos.Unsigned.of_to p) as Hp.
    pose proof (DecimalPos.Unsigned.to_uint_nonnil p) as Hnil.
    assert (E : NilZero.string_of_uint (Pos.to_uint p)
                = NilEmpty.string_of_uint (Pos.to_uint p)).
    { destruct (Pos.to_uint p); [contradiction | reflexivity..]. }
    rewrite E. split.
    + destruct (Pos.to_uint p); [contradiction | discriminate..].
    + split; [apply string_of_uint_starts_char|].
      exists (Pos.to_uint p). split; [apply numeral_string_of_uint|].
      unfold Z.of_uint. now rewrite Hp.
Qed.

(** Zeros before a numeral do not change the number it spells. *)
Lemma numeral_of_zeros (cz cs : list string) (u : Decimal.uint) :
  forallb (String.eqb "0") cz = true -> numeral_of cs = Some u ->
  exists u', numeral_of (cz ++ cs) = Some u' /\ Z.of_uint u' = Z.of_uint u.
Proof.
  intros Hz Hu. induction cz as [|c cz IH]; [eauto|].
  cbn [forallb] in Hz. apply andb_true_iff in Hz as [Hc Hz].
  apply String.eqb_eq in Hc. subst c.
  destruct (IH Hz) as (u' & E & Hval).
  exists (Decimal.D0 u'). split; [|exact Hval].
  cbn [app numeral_of]. rewrite E. reflexivity.
Qed.

(** [int] reads [<zeros><n>] as [n], up to 4300 digits. *)
Lemma py_int_decimal (zeros : string) (n : Z) :
  all_chars (String.eqb "0") zeros = true -> 0 <= n ->
  (String.length (zeros +:+ id_text n) <= 4300)%nat ->
  zeros +:+ id_text n <> EmptyString /\
  all_chars Re.is_digit (zeros +:+ id_text n) = true /\
  py_int (zeros +:+ id_text n) = Ok n.
Proof.
  intros Hz Hn Hlen.
  destruct (id_text_digits n Hn) as (Hne & Hstart & u & Hu & Hval).
  assert (Hd : zeros +:+ id_text n <> EmptyString).
  { destruct zeros; [exact Hne | discriminate]. }
  destruct (numeral_of_zeros _ _ _ Hz Hu) as (u' & Hu' & Hval').
  rewrite <- chars_app in Hu' by exact Hstart.
  assert (Hdig : all_chars Re.is_digit (zeros +:+ id_text n) = true)
    by exact (numeral_of_digits _ _ Hu').
  split; [exact Hd|]. split; [exact Hdig|].
  destruct (py_int_numeral _ Hd Hdig) as (u'' & Hu'' & ->).
  unfold numeral in Hu''. rewrite Hu' in Hu''. injection Hu'' as <-.
  pose proof (chars_length (zeros +:+ id_text n)) as Hc.
  rewrite (proj2 (Nat.leb_le _ _)) by lia. now rewrite Hval', Hval.
Qed.

(** X7. The ward number is the digits read in base ten, leading zeros
    dropped: a ward named [<m>-<zeros><n>], with [m] not empty and without
    a newline and [n] a natural number in decimal, has municipality [m] and
    ward [n]; one newline at the very end of the name changes nothing, as
    [$] matches before it.  (The bound on the digits is the longest decimal
    text CPython's [int] converts by default.) *)
Theorem ward_number_is_decimal (a : admin_boundary) (w : world)
    (m zeros nl : string) (n : Z) :
  ab_admin_level a = Some 9 ->
  ab_name a = Some (m +:+ "-" +:+ zeros +:+ id_text n +:+ nl) ->
  m <> EmptyString -> all_chars (Re.charset_has Re.ANY) m = true ->
  all_chars (String.eqb "0") zeros = true -> 0 <= n ->
  (String.length (zeros +:+ id_text n) <= 4300)%nat ->
  line_end nl ->
  exists h w',
    _build_admin_hierarchy (admin_row a) w = (Ok h, w') /\
    get h "municipality" = PStr m /\
    get h "municipality_ne" = PStr m /\
    get h "ward" = PInt n.
Proof.
  intros Hlevel Hname Hm Hany Hz Hn Hlen Hnl.
  destruct (py_int_decimal zeros n Hz Hn Hlen) as (Hd & Hdd & Hint).
  set (d := zeros +:+ id_text n) in *.
  assert (W : ward_name (m +:+ "-" +:+ d +:+ nl) m d).
  { exists nl. split; [reflexivity|]. split; [exact Hnl|]. auto. }
  rewrite (_build_admin_hierarchy_ward a Hlevel), Hname. cbn [default].
  replace (zeros +:+ id_text n +:+ nl) with (d +:+ nl)
    by (unfold d; apply append_assoc).
  destruct (resolve_parents_other
              ["district"; "district_ne"; "province"; "province_ne"]
              (get (admin_row a) "centroid")
              (ward_stage (m +:+ "-" +:+ d +:+ nl)) w) as (h & w' & E & Hother).
  destruct (ward_stage_match _ _ _ W) as (Hmun & Hmun_ne & Hward).
  rewrite Hint in Hward.
  exists h, w'. split; [exact E|].
  rewrite !Hother by other_key. auto.
Qed.

(** ** Tag payloads *)

Lemma record_action_total (ix : string) (r : source_record) (w : world)
    (d : list (string * pyval)) :
  parse_tags (record_tags r) = PDict d ->
  exists doc w', record_action ix r w = (Ok doc, w') /\
    get (_source doc) "name_en"
    = default (sql_text (record_name r)) (dict_lookup d "name:en").
Proof.
  destruct r as [p|a|p|r]; cbn [record_tags record_name record_action]; intros Htags.
  - destruct (place_doc_total ix p d Htags) as (doc & E & Hen).
    exists doc, w. rewrite E. now split.
  - apply (admin_doc_total ix a w d Htags).
  - destruct (poi_doc_total ix p d Htags) as (doc & E & Hen & _).
    exists doc, w. rewrite E. now split.
  - destruct (road_doc_total ix r d Htags) as (doc & E & Hen).
    exists doc, w. rewrite E. now split.
Qed.

(** X8. When the tag payload of a record normalises to a mapping (it
    is NULL, an empty or unparsable string, a JSON object, or a mapping
    already), its builder makes a document, and [name_en] is the mapping's
    [name:en] entry when it has one, whatever its value, and the record's
    name otherwise. *)
Theorem name_en_from_tags (ix : string) (r : source_record) (w : world)
    (d : list (string * pyval)) :
  parse_tags (record_tags r) = PDict d ->
  exists doc w',
    record_action ix r w = (Ok doc, w') /\
    (forall v, dict_lookup d "name:en" = Some v ->
       get (_source doc) "name_en" = v) /\
    (dict_lookup d "name:en" = None ->
       get (_source doc) "name_en" = sql_text (record_name r)).
Proof.
  intros Htags.
  destruct (record_action_total ix r w d Htags) as (doc & w' & E & Hen).
  exists doc, w'. split; [exact E|].
  split; [intros v Hv | intros Hv]; now rewrite Hen, Hv.
Qed.

Lemma name_en_of_no_mapping (tags : pyval) (row : gmap string pyval) :
  (forall d, tags <> PDict d) -> name_en_of tags row = Raise AttributeError.
Proof. intros Hno. destruct tags; try reflexivity. now destruct (Hno d). Qed.

(** X9. A tag payload that is a string holding well-formed JSON other
    than an object (an array, a number, a string, [null], ...) stops the
    builder of every entity type with [AttributeError]: the parsed value is
    kept as it is and has no [get].  The boundary builder stops before it
    resolves the hierarchy, so nothing is queried or logged. *)
Theorem non_object_tags_stop_the_builder (ix : string) (r : source_record)
    (w : world) (s : string) (v : pyval) :
  record_tags r = PStr s -> s <> EmptyString ->
  json_loads s = Some v -> (forall d, v <> PDict d) ->
  record_action ix r w = (Raise AttributeError, w).
Proof.
  intros Htags Hs Hjson Hv.
  assert (Hparse : parse_tags (record_tags r) = v).
  { rewrite Htags. unfold parse_tags. destruct s; [contradiction|].
    cbn [truthy]. now rewrite Hjson. }
  destruct r as [p|a|p|r]; cbn [record_tags record_action] in *.
  - unfold place_doc. change (get (place_row p) "tags") with (pl_tags p).
    rewrite Hparse, (name_en_of_no_mapping v _ Hv). reflexivity.
  - unfold admin_doc. change (get (admin_row a) "tags") with (ab_tags a).
    rewrite Hparse, (name_en_of_no_mapping v _ Hv). reflexivity.
  - unfold poi_doc. change (get (poi_row p) "tags") with (poi_tags p).
    rewrite Hparse, (name_en_of_no_mapping v _ Hv). reflexivity.
  - unfold road_doc. change (get (road_row r) "tags") with (rd_tags r).
    rewrite Hparse, (name_en_of_no_mapping v _ Hv). reflexivity.
Qed.

(** X10. The [tags] field of a POI document is always a mapping: the
    normalised payload, so the empty mapping for a NULL, empty or
    unparsable one.  The row's own [tags] value is never indexed as it
    came. *)
Theorem poi_tags_field_is_a_mapping (ix : string) (row : gmap string pyval)
    (doc : document) :
  poi_doc ix row = Ok doc ->
  exists d,
    get (_source doc) "tags" = PDict d /\
    parse_tags (get row "tags") = PDict d /\
    (get row "tags" = PNone \/ get row "tags" = PStr EmptyString \/
     (exists s, get row "tags" = PStr s /\ json_loads s = None) -> d = []).
Proof.
  intros Hdoc. unfold poi_doc in Hdoc. cbv zeta in Hdoc.
  destruct (parse_tags (get row "tags")) as [| | | | | |d] eqn:Htags;
    try discriminate Hdoc.
  exists d. invert_builder Hdoc. split; [reflexivity|]. split; [reflexivity|].
  intros [Hr|[Hr|(s & Hr & Hs)]]; rewrite Hr in Htags; unfold parse_tags in Htags.
  - now injection Htags.
  - now injection Htags.
  - destruct s; cbn [truthy] in Htags; [now injection Htags|].
    rewrite Hs in Htags. now injection Htags.
Qed.

(** ** What every document carries *)

Lemma built_name (ix : string) (r : source_record) (doc : document) :
  built ix r doc -> get (_source doc) "name" = sql_text (record_name r).
Proof.
  destruct r as [p|a|p|r]; cbn [built record_name].
  - intros Hdoc. unfold place_doc in Hdoc. cbv zeta in Hdoc.
    invert_builder Hdoc.
    match goal with E : getitem _ "name" = Ok _ |- _ => now injection E as <- end.
  - intros (w & w' & Hdoc). unfold admin_doc in Hdoc. cbv zeta in Hdoc.
    invert_builder Hdoc.
    match goal with E : getitem _ "name" = Ok _ |- _ => now injection E as <- end.
  - intros Hdoc. unfold poi_doc in Hdoc. cbv zeta in Hdoc.
    invert_builder Hdoc.
    match goal with E : getitem _ "name" = Ok _ |- _ => now injection E as <- end.
  - intros Hdoc. unfold road_doc in Hdoc. cbv zeta in Hdoc.
    invert_builder Hdoc.
    match goal with E : getitem _ "name" = Ok _ |- _ => now injection E as <- end.
Qed.

Lemma run_records_named (db : database) (r : source_record) :
  r ∈ run_records db -> is_Some (record_name r).
Proof.
  unfold run_records, places_records, admin_records, poi_records, roads_records.
  rewrite !elem_of_app, !list_elem_of_fmap.
  intros [(p & -> & Hp)|[(a & -> & Ha)|[(p & -> & Hp)|(x & -> & Hx)]]];
    cbn [record_name].
  - now apply list_elem_of_filter in Hp as [Hp _].
  - now apply list_elem_of_filter in Ha as [[Ha _] _].
  - apply elem_of_take in Hp as (i & Hp & _).
    apply list_elem_of_lookup_2 in Hp.
    now apply list_elem_of_filter in Hp as [Hp _].
  - apply elem_of_take in Hx as (i & Hx & _).
    apply list_elem_of_lookup_2 in Hx.
    now apply list_elem_of_filter in Hx as [Hx _].
Qed.

(** X11. A record whose name is NULL is not extracted: every record of
    a run has a name, and the document made of it carries that name, a
    string, as [name]; for a POI or a road it is the search text too. *)
Theorem documents_are_named (db : database) (ix : string) (r : source_record)
    (doc : document) :
  r ∈ run_records db -> built ix r doc ->
  exists s, record_name r = Some s /\
    get (_source doc) "name" = PStr s /\
    (entity_type_of r = "poi" \/ entity_type_of r = "road" ->
       get (_source doc) "search_text" = PStr s).
Proof.
  intros Hr Hdoc. destruct (run_records_named db r Hr) as [s Hs].
  pose proof (built_name ix r doc Hdoc) as Hname. rewrite Hs in Hname.
  exists s. split; [exact Hs|]. split; [exact Hname|]. clear Hname.
  destruct r as [p|a|p|x]; cbn [entity_type_of];
    intros [E|E]; try discriminate E; cbn [built record_name] in *.
  - unfold poi_doc in Hdoc. cbv zeta in Hdoc. invert_builder Hdoc.
    match goal with
    | E : getitem _ "name" = Ok ?v |- _ =>
        change (Ok (sql_text (poi_name p)) = Ok v) in E;
        rewrite Hs in E; apply Ok_inj in E; subst v
    end.
    reflexivity.
  - unfold road_doc in Hdoc. cbv zeta in Hdoc. invert_builder Hdoc.
    match goal with
    | E : getitem _ "name" = Ok ?v |- _ =>
        change (Ok (sql_text (rd_name x)) = Ok v) in E;
        rewrite Hs in E; apply Ok_inj in E; subst v
    end.
    reflexivity.
Qed.

(** X12. Every document a builder makes goes to the configured index
    under the identifier [{prefix}_{source id}], which is also its [id]
    field; its [entity_type] is that of the table it comes from and its
    [country] is Nepal. *)
Theorem document_common_fields (ix : string) (r : source_record) (doc : document) :
  built ix r doc ->
  _index doc = ix /\
  _id doc = PStr (record_doc_id r) /\
  fields ["id"; "entity_type"; "country"] (_source doc)
  = [PStr (record_doc_id r); PStr (entity_type_of r); PStr "Nepal"].
Proof.
  destruct r as [p|a|p|x]; cbn [built record_doc_id entity_type_of].
  - intros Hdoc. unfold place_doc in Hdoc. cbv zeta in Hdoc.
    invert_builder Hdoc.
    repeat match goal with E : getitem _ _ = Ok _ |- _ => injection E as <- end.
    repeat split.
  - intros (w & w' & Hdoc). unfold admin_doc in Hdoc. cbv zeta in Hdoc.
    invert_builder Hdoc.
    repeat match goal with E : getitem _ _ = Ok _ |- _ => injection E as <- end.
    repeat split.
  - intros Hdoc. unfold poi_doc in Hdoc. cbv zeta in Hdoc.
    invert_builder Hdoc.
    repeat match goal with E : getitem _ _ = Ok _ |- _ => injection E as <- end.
    repeat split.
  - intros Hdoc. unfold road_doc in Hdoc. cbv zeta in Hdoc.
    invert_builder Hdoc.
    repeat match goal with E : getitem _ _ = Ok _ |- _ => injection E as <- end.
    repeat split.
Qed.

(** ** Boundary levels *)

Lemma admin_records_levels (db : database) (a : admin_boundary) :
  FromAdmin a ∈ run_records db ->
  exists l, ab_admin_level a = Some l /\ (l = 4 \/ l = 6 \/ l = 7 \/ l = 9).
Proof.
  unfold run_records, places_records, admin_records, poi_records, roads_records.
  rewrite !elem_of_app, !list_elem_of_fmap.
  intros [(p & E & _)|[(a' & E & Ha)|[(p & E & _)|(x & E & _)]]];
    try discriminate E.
  injection E as <-. apply list_elem_of_filter in Ha as [[_ Hl] _].
  unfold synced_level in Hl. destruct (ab_admin_level a) as [l|]; [|discriminate].
  exists l. split; [reflexivity|]. lia.
Qed.

(** X13. Only boundaries of admin level 4, 6, 7 or 9 are extracted (a
    NULL level is not), so a boundary document carries one of these levels,
    and its boost score is 1.5 for a province, 1.8 for a district or a
    municipality and 1.2 for a ward: no boundary of another level takes the
    lowest tier. *)
Theorem boundary_documents_have_synced_levels (db : database) (ix : string)
    (a : admin_boundary) (doc : document) :
  FromAdmin a ∈ run_records db -> built ix (FromAdmin a) doc ->
  exists l,
    ab_admin_level a = Some l /\ (l = 4 \/ l = 6 \/ l = 7 \/ l = 9) /\
    get (_source doc) "admin_level" = PInt l /\
    get (_source doc) "boost_score"
    = PFloat (if l =? 4 then 1.5%float else if l =? 9 then 1.2%float else 1.8%float).
Proof.
  intros Hr (w & w' & Hdoc).
  destruct (admin_records_levels db a Hr) as (l & Hl & Hcases).
  exists l. split; [exact Hl|]. split; [exact Hcases|].
  unfold admin_doc in Hdoc. cbv zeta in Hdoc. invert_builder Hdoc.
  split.
  - change (get (admin_row a) "admin_level" = PInt l).
    now rewrite admin_row_level, Hl.
  - change (PFloat (_calculate_boost "admin_boundary" (get (admin_row a) "admin_level"))
            = PFloat (if l =? 4 then 1.5%float else if l =? 9 then 1.2%float else 1.8%float)).
    rewrite admin_row_level, Hl.
    destruct Hcases as [-> | [-> | [-> | ->]]]; reflexivity.
Qed.

(** ** The caps of the POI and road extractions *)

Lemma written_length (ix : string) (rsW records : list source_record)
    (docsW : list document) :
  rsW `sublist_of` records -> Forall2 (built ix) rsW docsW ->
  (length docsW <= length records)%nat.
Proof.
  intros Hsub Hbuilt. rewrite <- (Forall2_length _ _ _ Hbuilt).
  now apply sublist_length.
Qed.

(** X14. The POI extraction returns at most 50000 rows and the road
    extraction at most 10000, however many named rows the tables hold; so
    one POI pipeline adds at most 50000 documents to the index and one road
    pipeline at most 10000, whether it ends or raises. *)
Theorem extraction_caps (w w' : world) :
  (length (poi_query (w_db w)) <= 50000)%nat /\
  (length (roads_query (w_db w)) <= 10000)%nat /\
  (forall res, sync_poi w = (res, w') ->
     (length (docs_of w') <= length (docs_of w) + 50000)%nat) /\
  (forall res, sync_roads w = (res, w') ->
     (length (docs_of w') <= length (docs_of w) + 10000)%nat).
Proof.
  assert (Hp : forall db, (length (poi_records db) <= 50000)%nat).
  { intros db. unfold poi_records. rewrite length_fmap. apply firstn_le_length. }
  assert (Hr : forall db, (length (roads_records db) <= 10000)%nat).
  { intros db. unfold roads_records. rewrite length_fmap. apply firstn_le_length. }
  split; [|split; [|split]].
  - unfold poi_query. rewrite length_fmap. apply firstn_le_length.
  - unfold roads_query. rewrite length_fmap. apply firstn_le_length.
  - intros res Hrun.
    destruct (sync_poi_docs w w' res Hrun) as (rsW & docsW & Hsub & Hbuilt & ->).
    rewrite length_app.
    pose proof (written_length _ _ _ _ Hsub Hbuilt). specialize (Hp (w_db w)). lia.
  - intros res Hrun.
    destruct (sync_roads_docs w w' res Hrun) as (rsW & docsW & Hsub & Hbuilt & ->).
    rewrite length_app.
    pose proof (written_length _ _ _ _ Hsub Hbuilt). specialize (Hr (w_db w)). lia.
Qed.

(** ** The search text and the location, builder by builder *)

(** X15. The search text of a document, by builder: a place has the
    non-empty values among name, localized name, municipality, district and
    province, in this order, joined by single spaces; a boundary has its
    name and localized name only, whatever hierarchy was resolved; a POI
    and a road have their name. *)
Theorem search_text_by_builder (ix : string) (r : source_record) (doc : document) :
  built ix r doc ->
  get (_source doc) "search_text" = search_text_of r.
Proof.
  destruct r as [p|a|p|x]; cbn [built search_text_of].
  - apply place_doc_search_text.
  - intros (w & w' & Hdoc). exact (admin_doc_search_text _ _ _ _ _ Hdoc).
  - intros Hdoc. unfold poi_doc in Hdoc. cbv zeta in Hdoc. invert_builder Hdoc.
    match goal with
    | E : getitem _ "name" = Ok ?v |- _ =>
        change (Ok (sql_text (poi_name p)) = Ok v) in E;
        apply Ok_inj in E; subst v
    end.
    reflexivity.
  - intros Hdoc. unfold road_doc in Hdoc. cbv zeta in Hdoc. invert_builder Hdoc.
    match goal with
    | E : getitem _ "name" = Ok ?v |- _ =>
        change (Ok (sql_text (rd_name x)) = Ok v) in E;
        apply Ok_inj in E; subst v
    end.
    reflexivity.
Qed.

Lemma str_join_type_error (sep : string) (l : list pyval) (v : pyval) :
  v ∈ l -> (forall s, v <> PStr s) -> str_join sep l = Raise TypeError.
Proof.
  intros Hin Hv. induction l as [|x l IH]; [now apply elem_of_nil in Hin|].
  destruct x as [| | | |s| |]; try reflexivity.
  apply elem_of_cons in Hin as [->|Hin]; [now destruct (Hv s)|].
  destruct l as [|y l]; [now apply elem_of_nil in Hin|].
  change (str_join sep (PStr s :: y :: l))
    with (rbind (str_join sep (y :: l)) (fun r => Ok (s +:+ sep +:+ r))).
  now rewrite (IH Hin).
Qed.

Lemma truthy_get_or (row : gmap string pyval) (k : string) :
  truthy (get_or row k (PStr EmptyString)) = truthy (get row k).
Proof. unfold get_or, get. now destruct (row !! k). Qed.

(** X16. [_build_search_text] on any row: when none of the five columns
    holds a true value (each is missing, [None], empty, ...) the text is
    empty; when one of them holds a true value that is not a string, the
    join raises [TypeError]. *)
Theorem search_text_needs_strings (row : gmap string pyval) :
  ((forall k, k ∈ search_keys -> truthy (get row k) = false) ->
     _build_search_text row = Ok EmptyString) /\
  (forall k v,
     k ∈ search_keys -> row !! k = Some v -> truthy v = true ->
     (forall s, v <> PStr s) ->
     _build_search_text row = Raise TypeError).
Proof.
  split.
  - intros Hall. unfold _build_search_text. cbv zeta.
    cbn [List.filter]. rewrite !truthy_get_or.
    rewrite !Hall by (unfold search_keys; repeat constructor).
    reflexivity.
  - intros k v Hk Hrow Htrue Hv. unfold _build_search_text. cbv zeta.
    apply (str_join_type_error _ _ v); [|exact Hv].
    apply list_elem_of_In, filter_In. split; [|exact Htrue].
    assert (E : get_or row k (PStr EmptyString) = v)
      by (unfold get_or; now rewrite Hrow).
    unfold search_keys in Hk.
    repeat (apply elem_of_cons in Hk as [->|Hk];
            [rewrite <- E; cbn [In]; tauto|]).
    now apply elem_of_nil in Hk.
Qed.

(** X17. The location of a document, by builder: for a place, a boundary
    (through its centroid) and a POI it is unset when the geometry is NULL
    or its latitude is zero, and else holds the latitude and the longitude
    of the geometry; a road document has no location field at all. *)
Theorem location_by_builder (ix : string) (r : source_record) (doc : document) :
  built ix r doc ->
  get (_source doc) "location" = location_value (record_geom r) /\
  (forall x, r = FromRoads x -> _source doc !! "location" = None).
Proof.
  destruct r as [p|a|p|x]; cbn [built record_geom].
  - intros Hdoc. split; [exact (place_location _ _ _ Hdoc) | discriminate].
  - intros (w & w' & Hdoc).
    split; [exact (admin_location _ _ _ _ _ Hdoc) | discriminate].
  - intros Hdoc. split; [exact (poi_location _ _ _ Hdoc) | discriminate].
  - intros Hdoc. unfold road_doc in Hdoc. cbv zeta in Hdoc. invert_builder Hdoc.
    split; [reflexivity|]. intros _ _. reflexivity.
Qed.

(** X18. The boost orders the entity types: whatever the subtypes, a
    road scores below a POI, and a POI below every place and every
    boundary.  An entity type that is none of [place], [admin_boundary] and
    [poi] scores as a road. *)
Theorem boost_orders_entity_types (s1 s2 s3 s4 : pyval) :
  PrimFloat.ltb (_calculate_boost "road" s1) (_calculate_boost "poi" s2) = true /\
  PrimFloat.ltb (_calculate_boost "poi" s2) (_calculate_boost "place" s3) = true /\
  PrimFloat.ltb (_calculate_boost "poi" s2)
                (_calculate_boost "admin_boundary" s4) = true /\
  (forall t, t <> "place" -> t <> "admin_boundary" -> t <> "poi" ->
     _calculate_boost t s1 = 0.3%float).
Proof.
  split; [reflexivity|]. split; [|split].
  - unfold _calculate_boost. cbn [String.eqb Ascii.eqb Bool.eqb].
    destruct (py_in s3 _); [reflexivity|]. destruct (py_in s3 _); reflexivity.
  - unfold _calculate_boost. cbn [String.eqb Ascii.eqb Bool.eqb].
    destruct (py_in s4 _); [reflexivity|]. destruct (py_eq s4 _); reflexivity.
  - intros t H1 H2 H3. unfold _calculate_boost.
    apply String.eqb_neq in H1, H2, H3. now rewrite H1, H2, H3.
Qed.

(** ** Localized names from tags *)

(** X19. [extract_admin_name] gives nothing for tags that are missing
    or empty, even when a default name is passed; for a non-empty mapping
    it gives the [name:<lang>] entry, and the default name when there is no
    such entry; tags that are true and not a mapping raise
    [AttributeError].  On the empty mapping it thus differs from the
    builders' [name_en], which falls back to the name. *)
Theorem extract_admin_name_needs_tags (default_name : pyval) (lang : string) :
  (forall tags, truthy tags = false ->
     extract_admin_name tags default_name lang = Ok PNone) /\
  (forall d, d <> [] ->
     (forall v, dict_lookup d ("name:" +:+ lang) = Some v ->
        extract_admin_name (PDict d) default_name lang = Ok v) /\
     (dict_lookup d ("name:" +:+ lang) = None ->
        extract_admin_name (PDict d) default_name lang = Ok default_name)) /\
  (forall tags, truthy tags = true -> (forall d, tags <> PDict d) ->
     extract_admin_name tags default_name lang = Raise AttributeError) /\
  (forall row, getitem row "name" = Ok default_name ->
     name_en_of (PDict []) row = Ok default_name /\
     extract_admin_name (PDict []) default_name "en" = Ok PNone).
Proof.
  split; [|split; [|split]].
  - intros tags Hf. unfold extract_admin_name. now rewrite Hf.
  - intros d Hd. unfold extract_admin_name.
    destruct d as [|kv d]; [contradiction|]. cbn [truthy].
    split; [intros v Hv | intros Hv]; now rewrite Hv.
  - intros tags Ht Hno. unfold extract_admin_name. rewrite Ht.
    destruct tags; try reflexivity. now destruct (Hno d).
  - intros row Hname. split; [|reflexivity].
    now rewrite (name_en_of_dict [] row default_name Hname).
Qed.


(** ** Index creation from a mapping file *)

Lemma create_index_reads (w : world) (content : string) :
  mapping_file_content w = Some content ->
  create_index w
  = match json_loads content with
    | Some mapping =>
        (Ok tt,
         add_log (INFO, CreatedIndex)
           (set_index (Some {| ix_mapping := mapping; ix_docs := [] |})
              (match w_index w with
               | Some _ => set_index None (add_log (INFO, IndexExists) w)
               | None => w
               end)))
    | None => (Raise JSONDecodeError, w)
    end.
Proof.
  unfold mapping_file_content. intros Hfile.
  cbv [create_index bind gets ret raise open_read json_load
         try_except_FileNotFoundError List.find path_exists logger modify].
  destruct (w_files w !! "/app/mappings/nepal_locations.json") as [c|] eqn:E1.
  - injection Hfile as ->.
    rewrite bool_decide_eq_true_2 by eauto. rewrite E1.
    destruct (json_loads content); [|reflexivity].
    now destruct (w_index w).
  - rewrite bool_decide_eq_false_2 by (intros [? ?]; discriminate).
    rewrite bool_decide_eq_true_2 by eauto. rewrite Hfile.
    destruct (json_loads content); [|reflexivity].
    now destruct (w_index w).
Qed.

(** X20. With a mapping file in place, the Docker path being tried
    before the local one, [create_index] replaces the index: when the file
    holds JSON, the index exists afterwards with the file's mapping and no
    document, whatever it held before, and the log gains "already exists,
    deleting" exactly when there was an index, then "Created index"; when
    the file does not hold JSON, [JSONDecodeError] goes through, with no
    fallback to the other path or to the default mapping, and the index is
    left as it was. *)
Theorem create_index_from_mapping_file (w : world) (content : string) :
  w_files w !! "/app/mappings/nepal_locations.json" = Some content \/
  (w_files w !! "/app/mappings/nepal_locations.json" = None /\
   w_files w !! w_local_mapping w = Some content) ->
  (forall mapping, json_loads content = Some mapping ->
     exists w',
       create_index w = (Ok tt, w') /\
       w_index w' = Some {| ix_mapping := mapping; ix_docs := [] |} /\
       w_log w'
       = w_log w ++
         match w_index w with
         | Some _ => [(INFO, IndexExists); (INFO, CreatedIndex)]
         | None => [(INFO, CreatedIndex)]
         end) /\
  (json_loads content = None -> create_index w = (Raise JSONDecodeError, w)).
Proof.
  intros Hfile.
  assert (Hc : mapping_file_content w = Some content).
  { unfold mapping_file_content. now destruct Hfile as [->|[-> ->]]. }
  rewrite (create_index_reads w content Hc). split.
  - intros mapping ->. eexists. split; [reflexivity|].
    split; [reflexivity|].
    destruct (w_index w); cbn; [now rewrite <- app_assoc | reflexivity].
  - now intros ->.
Qed.

(** ** A run without a source *)

(** X21. When the source cannot be reached, the run exits with status 1
    after logging the failure twice, once by [connect_db] and once by
    [sync_all]; the index is not touched (neither deleted nor created), no
    extraction is run and the connection is left as it was, closed if there
    was one. *)
Theorem unreachable_source_fails_the_run (w : world) :
  w_db_up w = false ->
  exists w',
    sync_all w = (Raise (SystemExit 1), w') /\
    w_log w' = w_log w ++ [ (INFO, Starting);
                            (ERROR, ConnectFailed OperationalError);
                            (ERROR, SyncFailed OperationalError) ] /\
    w_index w' = w_index w /\
    w_extracted w' = w_extracted w /\
    w_conn w' = match w_conn w with Some _ => Some ConnClosed | None => None end.
Proof.
  intros Hdown.
  cbv [sync_all connect_db try_finally try_except bind gets ret raise logger
         modify is_Exception].
  cbn [w_db_up add_log]. rewrite Hdown. cbn [w_conn add_log].
  destruct (w_conn w) eqn:Hconn; eexists; (split; [reflexivity|]); cbn;
    rewrite <- ?app_assoc, ?Hconn; repeat split.
Qed.

(** X22. A pipeline that is run without an open connection raises at
    once, [AttributeError] when no connection was ever made and
    [InterfaceError] when it is closed: no extraction is run, nothing is
    written and nothing is logged. *)
Theorem pipelines_need_a_connection (w : world) :
  w_conn w <> Some ConnOpen ->
  exists e,
    cursor_error (w_conn w) = Some e /\
    sync_places w = (Raise e, w) /\
    sync_admin_boundaries w = (Raise e, w) /\
    sync_poi w = (Raise e, w) /\
    sync_roads w = (Raise e, w).
Proof.
  intros Hconn.
  unfold sync_places, sync_admin_boundaries, sync_poi, sync_roads.
  unfold bind at 1 5 9 13. unfold cursor. cbv [bind gets raise].
  destruct (w_conn w) as [[|]|]; [contradiction | ..];
    eexists; repeat split.
Qed.

(** ** The end of every run *)

(** More frames: the set-up steps and the run. *)
Section SetupFrame.
Context {B : Type} (f : world -> B).
Hypothesis f_log : forall r w, f (add_log r w) = f w.
Hypothesis f_index : forall i w, f (set_index i w) = f w.

Lemma keeps_create_index : keeps f create_index.
Proof.
  intros w r w'.
  cbv [create_index bind gets ret raise open_read json_load
         try_except_FileNotFoundError List.find logger modify].
  repeat match goal with
    | |- context [match ?x with _ => _ end] =>
        lazymatch x with
        | context [match _ with _ => _ end] => fail
        | _ => destruct x
        end
    end;
  intros [= <- <-]; rewrite ?f_log, ?f_index, ?f_log; reflexivity.
Qed.

Hypothesis f_extracted : forall e w, f (add_extracted e w) = f w.

Lemma keeps_the_pipelines : keeps f pipelines.
Proof.
  destruct (keeps_pipelines f f_log f_index f_extracted) as (K1 & K2 & K3 & K4).
  unfold pipelines.
  repeat (apply keeps_bind; [assumption | intros ?]).
  now apply keeps_logger.
Qed.

End SetupFrame.

Lemma sync_all_guarded (w : world) :
  sync_all w = guarded run_body (add_log (INFO, Starting) w).
Proof. reflexivity. Qed.

Lemma guarded_run (body : M world unit) (w0 : world) :
  guarded body w0
  = match body w0 with
    | (Ok a, w1) => (Ok a, close_connection w1)
    | (Raise e, w1) =>
        if is_Exception e then (Raise (SystemExit 1), aborted e w1)
        else (Raise e, close_connection w1)
    end.
Proof.
  unfold guarded, try_finally, try_except, aborted, close_connection.
  destruct (body w0) as [[a|e] w1].
  - cbv [bind gets modify ret]. now destruct (w_conn w1).
  - destruct (is_Exception e).
    + cbv [bind logger modify raise gets ret].
      change (w_conn (add_log (ERROR, SyncFailed e) w1)) with (w_conn w1).
      now destruct (w_conn w1).
    + cbv [bind gets modify ret]. now destruct (w_conn w1).
Qed.

Lemma connect_db_up (w : world) :
  w_db_up w = true ->
  connect_db w
  = (Ok tt, add_log (INFO, Connected) (set_conn (Some ConnOpen) w)).
Proof.
  intros Hup. cbv [connect_db try_except bind gets modify logger ret raise].
  now rewrite Hup.
Qed.

Lemma connect_db_down (w : world) :
  w_db_up w = false ->
  connect_db w
  = (Raise OperationalError, add_log (ERROR, ConnectFailed OperationalError) w).
Proof.
  intros Hdown. cbv [connect_db try_except bind gets modify logger ret raise].
  now rewrite Hdown.
Qed.

Lemma close_connection_conn (w : world) :
  w_conn (close_connection w)
  = match w_conn w with Some _ => Some ConnClosed | None => None end.
Proof.
  unfold close_connection. destruct (w_conn w) eqn:E; [reflexivity | exact E].
Qed.

(** X23. However a run ends, the connection is not left open; when the
    source can be reached, a connection was made and it is closed. *)
Theorem connection_is_released (w w' : world) (res : result unit) :
  sync_all w = (res, w') ->
  w_conn w' <> Some ConnOpen /\
  (w_db_up w = true -> w_conn w' = Some ConnClosed).
Proof.
  rewrite sync_all_guarded, guarded_run.
  set (w0 := add_log (INFO, Starting) w).
  destruct (run_body w0) as [r w1] eqn:Hbody. intros Hrun.
  assert (Hend : w_conn w' = match w_conn w1 with
                             | Some _ => Some ConnClosed
                             | None => None
                             end).
  { destruct r as [a|e]; [|destruct (is_Exception e)];
      injection Hrun as _ <-; unfold aborted;
      now rewrite close_connection_conn. }
  split.
  - rewrite Hend. now destruct (w_conn w1).
  - intros Hup. rewrite Hend.
    assert (Hopen : w_conn w1 = Some ConnOpen); [|now rewrite Hopen].
    revert Hbody. unfold run_body, bind at 1.
    rewrite (connect_db_up w0 Hup).
    apply (keeps_bind w_conn).
    + apply keeps_create_index; reflexivity.
    + intros _. apply keeps_the_pipelines; reflexivity.
Qed.

(** ** What a run can raise *)

Lemma checked_ret {A} (a : A) : checked (ret a).
Proof. intros w e w' E. discriminate E. Qed.

Lemma checked_gets {A} (g : world -> A) : checked (gets g).
Proof. intros w e w' E. discriminate E. Qed.

Lemma checked_modify (g : world -> world) : checked (modify g).
Proof. intros w e w' E. discriminate E. Qed.

Lemma checked_logger (lv : level) (msg : message) : checked (logger lv msg).
Proof. apply checked_modify. Qed.

Lemma checked_raise {A} (e : exn) :
  is_Exception e = true -> checked (@raise world A e).
Proof. intros He w e' w' [= <- _]. exact He. Qed.

Lemma checked_lift {A} (r : result A) : checked_result r -> checked (lift r).
Proof. intros Hr w e w' [= -> _]. now apply Hr. Qed.

Lemma checked_bind {A C} (m : M world A) (k : A -> M world C) :
  checked m -> (forall a, checked (k a)) -> checked (bind m k).
Proof.
  intros Hm Hk w e w'. unfold bind.
  destruct (m w) as [[a|e0] w0] eqn:E.
  - apply Hk.
  - intros [= <- _]. eapply Hm, E.
Qed.

Lemma checked_try_except {A} (m : M world A) (h : exn -> M world A) :
  checked m -> (forall e, is_Exception e = true -> checked (h e)) ->
  checked (try_except m h).
Proof.
  intros Hm Hh w e w'. unfold try_except.
  destruct (m w) as [[a|e0] w0] eqn:E; [discriminate|].
  pose proof (Hm _ _ _ E) as He0. rewrite He0. now apply Hh.
Qed.

Lemma checked_result_rbind {A C} (r : result A) (k : A -> result C) :
  checked_result r -> (forall a, checked_result (k a)) ->
  checked_result (rbind r k).
Proof.
  intros Hr Hk. destruct r as [a|e]; cbn [rbind]; [apply Hk|].
  intros e' [= <-]. now apply Hr.
Qed.

Lemma checked_result_Ok {A} (a : A) : checked_result (Ok a).
Proof. intros e E. discriminate E. Qed.

Lemma checked_result_getitem (row : gmap string pyval) (k : string) :
  checked_result (getitem row k).
Proof.
  unfold getitem. destruct (row !! k); intros e [= <-]. reflexivity.
Qed.

Lemma checked_result_name_en_of (tags : pyval) (row : gmap string pyval) :
  checked_result (name_en_of tags row).
Proof.
  destruct tags; try (intros e [= <-]; reflexivity).
  cbn [name_en_of]. apply checked_result_rbind.
  - apply checked_result_getitem.
  - intros a. apply checked_result_Ok.
Qed.

Lemma checked_result_location_of (row : gmap string pyval) :
  checked_result (location_of row).
Proof.
  unfold location_of. destruct (truthy _); [|apply checked_result_Ok].
  repeat (apply checked_result_rbind; [apply checked_result_getitem | intros ?]).
  apply checked_result_Ok.
Qed.

Lemma checked_result_str_join (sep : string) (l : list pyval) :
  checked_result (str_join sep l).
Proof.
  induction l as [|x l IH]; [apply checked_result_Ok|].
  destruct x as [| | | |s| |]; try (intros e [= <-]; reflexivity).
  destruct l as [|y l]; [apply checked_result_Ok|].
  change (str_join sep (PStr s :: y :: l))
    with (rbind (str_join sep (y :: l)) (fun r => Ok (s +:+ sep +:+ r))).
  apply checked_result_rbind; [exact IH | intros a; apply checked_result_Ok].
Qed.

Lemma checked_result__build_search_text (row : gmap string pyval) :
  checked_result (_build_search_text row).
Proof. apply checked_result_str_join. Qed.

Ltac checked_pure :=
  repeat first
    [ apply checked_result_rbind; [|intros ?]
    | apply checked_result_Ok
    | apply checked_result_getitem
    | apply checked_result_name_en_of
    | apply checked_result_location_of
    | apply checked_result__build_search_text ].

Lemma checked_result_place_doc (ix : string) (row : gmap string pyval) :
  checked_result (place_doc ix row).
Proof. unfold place_doc. cbv zeta. checked_pure. Qed.

Lemma checked_result_poi_doc (ix : string) (row : gmap string pyval) :
  checked_result (poi_doc ix row).
Proof. unfold poi_doc. cbv zeta. checked_pure. Qed.

Lemma checked_result_road_doc (ix : string) (row : gmap string pyval) :
  checked_result (road_doc ix row).
Proof. unfold road_doc. cbv zeta. checked_pure. Qed.

Ltac checked_steps :=
  repeat first
    [ apply checked_bind; [|intros ?]
    | apply checked_ret | apply checked_gets | apply checked_modify
    | apply checked_logger
    | apply checked_raise; reflexivity
    | apply checked_lift; checked_pure
    | assumption
    | match goal with
      | H : forall x, checked _ |- _ => apply H
      | |- checked (match ?x with _ => _ end) => destruct x
      | |- checked (if ?x then _ else _) => destruct x
      end ].

Lemma checked_cursor : checked cursor.
Proof. unfold cursor. checked_steps. Qed.

Lemma checked_result_parent_rows (db : database) (c : pyval) :
  checked_result (match c with
                  | PStr wkt => parent_query db wkt
                  | _ => Raise InternalError
                  end).
Proof.
  destruct c; try (intros e [= <-]; reflexivity).
  unfold parent_query. destruct (ST_GeomFromText _);
    [apply checked_result_Ok | intros e [= <-]; reflexivity].
Qed.

Lemma checked__get_parent_admin (c : pyval) : checked (_get_parent_admin c).
Proof.
  unfold _get_parent_admin. apply checked_try_except.
  - apply checked_bind; [apply checked_cursor | intros _].
    apply checked_bind; [apply checked_gets | intros db].
    apply checked_bind;
      [apply checked_lift, checked_result_parent_rows | intros rows].
    destruct rows; apply checked_ret.
  - intros e _. checked_steps.
Qed.

Lemma checked__build_admin_hierarchy (row : gmap string pyval) :
  checked (_build_admin_hierarchy row).
Proof.
  unfold _build_admin_hierarchy. cbv zeta.
  pose proof checked__get_parent_admin as Hp.
  assert (Hm : forall s, checked_result (match_ward_name s)).
  { intros s. destruct s; intros e E;
      first [discriminate E | now injection E as <-]. }
  repeat match goal with
    | |- checked (if ?x then _ else _) => destruct x
    end;
    repeat first
      [ apply checked_ret
      | apply Hp
      | apply checked_lift, Hm
      | apply checked_bind; [|intros ?]
      | match goal with
        | |- checked (if ?x then _ else _) => destruct x
        end ].
Qed.

Lemma checked_admin_doc (ix : string) (row : gmap string pyval) :
  checked (admin_doc ix row).
Proof.
  unfold admin_doc. cbv zeta.
  pose proof (checked__build_admin_hierarchy row). checked_steps.
Qed.

Lemma checked_write_document (d : document) : checked (write_document d).
Proof. unfold write_document. checked_steps. Qed.

Lemma checked_send_chunk (chunk : list document) :
  forall s n, checked (send_chunk chunk s n).
Proof.
  induction chunk as [|d chunk IH]; intros s n; cbn [send_chunk].
  - apply checked_ret.
  - apply checked_bind; [apply checked_write_document | intros []; apply IH].
Qed.

Lemma checked_bulk_loop (actions : list (M world document)) :
  (forall a, a ∈ actions -> checked a) ->
  forall chunk s n, checked (bulk_loop actions chunk s n).
Proof.
  induction actions as [|a actions IH]; intros Ha chunk s n; cbn [bulk_loop].
  - apply checked_send_chunk.
  - apply checked_bind; [apply Ha; now left | intros d].
    assert (Hrest : forall a', a' ∈ actions -> checked a')
      by (intros a' Ha'; apply Ha; now right).
    destruct (Nat.eqb _ _).
    + apply checked_bind; [apply checked_send_chunk | intros sf].
      now apply IH.
    + now apply IH.
Qed.

Lemma checked_pipeline (e : entity) (gen : database -> string -> list (M world document)) :
  (forall db ix a, a ∈ gen db ix -> checked a) ->
  checked
    (cursor ;;
     modify (add_extracted e) ;;
     do db <- gets w_db;
     do es_index <- gets w_es_index;
     do sf <- helpers_bulk (gen db es_index);
     logger INFO (Synced e (fst sf) (snd sf)) ;;
     ret (fst sf)).
Proof.
  intros Hgen.
  apply checked_bind; [apply checked_cursor | intros _].
  apply checked_bind; [apply checked_modify | intros _].
  apply checked_bind; [apply checked_gets | intros db].
  apply checked_bind; [apply checked_gets | intros ix].
  apply checked_bind; [|intros sf; checked_steps].
  unfold helpers_bulk. apply checked_bulk_loop. apply Hgen.
Qed.

Lemma checked_pipelines : checked pipelines.
Proof.
  unfold pipelines.
  apply checked_bind; [|intros n1].
  { apply (checked_pipeline Places places_gen). intros db ix a Ha.
    apply list_elem_of_fmap in Ha as (row & -> & _).
    apply checked_lift, checked_result_place_doc. }
  apply checked_bind; [|intros n2].
  { apply (checked_pipeline AdminBoundaries admin_gen). intros db ix a Ha.
    apply list_elem_of_fmap in Ha as (row & -> & _).
    apply checked_admin_doc. }
  apply checked_bind; [|intros n3].
  { apply (checked_pipeline Poi poi_gen). intros db ix a Ha.
    apply list_elem_of_fmap in Ha as (row & -> & _).
    apply checked_lift, checked_result_poi_doc. }
  apply checked_bind; [|intros n4].
  { apply (checked_pipeline Roads roads_gen). intros db ix a Ha.
    apply list_elem_of_fmap in Ha as (row & -> & _).
    apply checked_lift, checked_result_road_doc. }
  apply checked_logger.
Qed.

Lemma checked_connect_db : checked connect_db.
Proof.
  unfold connect_db. apply checked_try_except.
  - checked_steps.
  - intros e He. apply checked_bind; [apply checked_logger | intros _].
    now apply checked_raise.
Qed.

Lemma checked_create_index : checked create_index.
Proof.
  intros w e w'.
  cbv [create_index bind gets ret raise open_read json_load
         try_except_FileNotFoundError List.find logger modify].
  repeat match goal with
    | |- context [match ?x with _ => _ end] =>
        lazymatch x with
        | context [match _ with _ => _ end] => fail
        | _ => destruct x
        end
    end;
  intros [= <- _]; reflexivity.
Qed.

Lemma checked_run_body : checked run_body.
Proof.
  unfold run_body.
  apply checked_bind; [apply checked_connect_db | intros _].
  apply checked_bind; [apply checked_create_index | intros _].
  apply checked_pipelines.
Qed.

Lemma pipelines_last_log (w w' : world) :
  pipelines w = (Ok tt, w') ->
  exists n1 n2 n3 n4,
    last (w_log w')
    = Some (INFO, Completed (n1 + n2 + n3 + n4) n1 n2 n3 n4).
Proof.
  unfold pipelines. intros E.
  apply bind_Ok in E as (n1 & w1 & _ & E).
  apply bind_Ok in E as (n2 & w2 & _ & E).
  apply bind_Ok in E as (n3 & w3 & _ & E).
  apply bind_Ok in E as (n4 & w4 & _ & E).
  injection E as <-. exists n1, n2, n3, n4. cbn [w_log add_log].
  apply last_snoc.
Qed.

(** X24. A run ends in one of two ways.  Either it returns, and the last
    line it logged is the summary, whose total is the sum of the four
    counts; or it exits with status 1, and the last line it logged is the
    error that stopped it.  No other exception leaves [sync_all]. *)
Theorem run_returns_or_exits_with_1 (w w' : world) (res : result unit) :
  sync_all w = (res, w') ->
  (res = Ok tt /\
   exists n1 n2 n3 n4,
     last (w_log w')
     = Some (INFO, Completed (n1 + n2 + n3 + n4) n1 n2 n3 n4)) \/
  (res = Raise (SystemExit 1) /\
   exists e, is_Exception e = true /\
     last (w_log w') = Some (ERROR, SyncFailed e)).
Proof.
  rewrite sync_all_guarded, guarded_run.
  set (w0 := add_log (INFO, Starting) w).
  destruct (run_body w0) as [[[]|e] w1] eqn:Hbody.
  - intros [= <- <-]. left. split; [reflexivity|].
    unfold run_body in Hbody.
    apply bind_Ok in Hbody as ([] & wa & _ & Hbody).
    apply bind_Ok in Hbody as ([] & wb & _ & Hbody).
    destruct (pipelines_last_log _ _ Hbody) as (n1 & n2 & n3 & n4 & Hlast).
    exists n1, n2, n3, n4.
    unfold close_connection. now destruct (w_conn w1).
  - rewrite (checked_run_body _ _ _ Hbody). intros [= <- <-]. right.
    split; [reflexivity|]. exists e.
    split; [exact (checked_run_body _ _ _ Hbody)|].
    unfold aborted, close_connection. cbn [w_conn add_log].
    destruct (w_conn w1); cbn [w_log set_conn add_log]; apply last_snoc.
Qed.


(** ** A run that meets no error *)

Lemma docs_of_index (w : world) (m : pyval) :
  mapping_of w = Some m ->
  w_index w = Some {| ix_mapping := m; ix_docs := docs_of w |}.
Proof.
  unfold mapping_of, docs_of. destruct (w_index w) as [[m' ds]|]; [|discriminate].
  now intros [= ->].
Qed.

Lemma write_document_accepts (d : document) (w : world) (m : pyval) :
  mapping_of w = Some m ->
  exists w',
    write_document d w = (Ok (accepted m d), w') /\
    mapping_of w' = Some m /\
    docs_of w' = docs_of w ++ (if accepted m d then [d] else []).
Proof.
  intros Hm. pose proof (docs_of_index w m Hm) as Hix.
  unfold write_document, accepted. cbv [bind gets modify ret].
  rewrite Hix. cbv [default from_option id]. cbn [ix_mapping ix_docs].
  destruct (index_accepts m (_source d)); eexists;
    (split; [reflexivity|]); split; try reflexivity.
  unfold docs_of at 1. cbn. now rewrite app_nil_r.
Qed.

Lemma send_chunk_accepts (m : pyval) (chunk : list document) :
  forall s f w,
    mapping_of w = Some m ->
    exists a b w',
      send_chunk chunk s f w = (Ok (s + a, f + b)%nat, w') /\
      a = length (List.filter (accepted m) chunk) /\
      (a + b = length chunk)%nat /\
      mapping_of w' = Some m /\
      docs_of w' = docs_of w ++ List.filter (accepted m) chunk.
Proof.
  induction chunk as [|d chunk IH]; intros s f w Hm.
  - exists 0%nat, 0%nat, w. cbn [send_chunk List.filter length]. unfold ret.
    rewrite !Nat.add_0_r, app_nil_r. auto.
  - destruct (write_document_accepts d w m Hm) as (w1 & E & Hm1 & Hd1).
    cbn [send_chunk List.filter]. unfold bind. rewrite E.
    destruct (accepted m d).
    + destruct (IH (S s) f w1 Hm1) as (a & b & w' & E' & Ha & Hab & Hm' & Hd').
      exists (S a), b, w'. rewrite E'.
      replace (s + S a)%nat with (S s + a)%nat by lia.
      split; [reflexivity|]. cbn [length].
      split; [lia|]. split; [lia|]. split; [exact Hm'|].
      rewrite Hd', Hd1, <- app_assoc. reflexivity.
    + destruct (IH s (S f) w1 Hm1) as (a & b & w' & E' & Ha & Hab & Hm' & Hd').
      exists a, (S b), w'. rewrite E'.
      replace (f + S b)%nat with (S f + b)%nat by lia.
      split; [reflexivity|]. cbn [length].
      split; [exact Ha|]. split; [lia|]. split; [exact Hm'|].
      rewrite Hd', Hd1, app_nil_r. reflexivity.
Qed.

Lemma record_action_keeps {B} (f : world -> B) (ix : string) (r : source_record) :
  (forall l w, f (add_log l w) = f w) -> keeps f (record_action ix r).
Proof.
  intros f_log. destruct r; cbn [record_action];
    first [apply keeps_lift | now apply keeps_admin_doc].
Qed.

Lemma bulk_loop_accepts (ix : string) (m : pyval) (rs : list source_record) :
  (forall r, r ∈ rs -> exists d, parse_tags (record_tags r) = PDict d) ->
  forall chunk s f w,
    mapping_of w = Some m ->
    exists docs a b w',
      Forall2 (built ix) rs docs /\
      bulk_loop (record_action ix <$> rs) chunk s f w
      = (Ok (s + a, f + b)%nat, w') /\
      a = length (List.filter (accepted m) (chunk ++ docs)) /\
      (a + b = length (chunk ++ docs))%nat /\
      mapping_of w' = Some m /\
      docs_of w' = docs_of w ++ List.filter (accepted m) (chunk ++ docs).
Proof.
  induction rs as [|r rs IH]; intros Htags chunk s f w Hm.
  - destruct (send_chunk_accepts m chunk s f w Hm)
      as (a & b & w' & E & Ha & Hab & Hm' & Hd').
    exists [], a, b, w'. rewrite app_nil_r. cbn [fmap list_fmap bulk_loop].
    split; [constructor|]. auto.
  - destruct (Htags r) as [d Hd]; [now left|].
    destruct (record_action_total ix r w d Hd) as (doc & w1 & E & _).
    pose proof (record_action_built ix r w w1 doc E) as Hbuilt.
    pose proof (record_action_keeps w_index ix r (fun _ _ => eq_refl) _ _ _ E)
      as Hix.
    assert (Hm1 : mapping_of w1 = Some m) by (unfold mapping_of; now rewrite Hix).
    assert (Hd1 : docs_of w1 = docs_of w) by (unfold docs_of; now rewrite Hix).
    assert (Hrest : forall r', r' ∈ rs ->
                      exists d, parse_tags (record_tags r') = PDict d)
      by (intros r' Hr'; apply Htags; now right).
    cbn [fmap list_fmap bulk_loop]. unfold bind at 1. rewrite E.
    destruct (Nat.eqb (length chunk) chunk_size).
    + destruct (send_chunk_accepts m chunk s f w1 Hm1)
        as (a & b & w2 & E2 & Ha & Hab & Hm2 & Hd2).
      unfold bind. rewrite E2. cbn [fst snd].
      destruct (IH Hrest [doc] (s + a)%nat (f + b)%nat w2 Hm2)
        as (docs & a' & b' & w' & Hall & E' & Ha' & Hab' & Hm' & Hd').
      exists (doc :: docs), (a + a')%nat, (b + b')%nat, w'.
      split; [now constructor|].
      rewrite !Nat.add_assoc.
      split; [exact E'|].
      change (chunk ++ doc :: docs) with (chunk ++ [doc] ++ docs).
      rewrite List.filter_app, !length_app.
      split; [lia|]. split; [rewrite length_app in Hab'; lia|].
      split; [exact Hm'|].
      rewrite Hd', Hd2, Hd1, <- app_assoc. reflexivity.
    + destruct (IH Hrest (chunk ++ [doc]) s f w1 Hm1)
        as (docs & a' & b' & w' & Hall & E' & Ha' & Hab' & Hm' & Hd').
      exists (doc :: docs), a', b', w'.
      split; [now constructor|]. split; [exact E'|].
      change (chunk ++ doc :: docs) with (chunk ++ [doc] ++ docs).
      rewrite app_assoc.
      split; [exact Ha'|]. split; [exact Hab'|]. split; [exact Hm'|].
      now rewrite Hd', Hd1.
Qed.

Lemma pipeline_accepts (e : entity)
    (gen : database -> string -> list (M world document))
    (recs : database -> list source_record) :
  (forall db ix, gen db ix = record_action ix <$> recs db) ->
  forall w m,
    w_conn w = Some ConnOpen -> mapping_of w = Some m ->
    (forall r, r ∈ recs (w_db w) ->
       exists d, parse_tags (record_tags r) = PDict d) ->
    exists docs a b w',
      Forall2 (built (w_es_index w)) (recs (w_db w)) docs /\
      (cursor ;;
       modify (add_extracted e) ;;
       do db <- gets w_db;
       do es_index <- gets w_es_index;
       do sf <- helpers_bulk (gen db es_index);
       logger INFO (Synced e (fst sf) (snd sf)) ;;
       ret (fst sf)) w = (Ok a, w') /\
      a = length (List.filter (accepted m) docs) /\
      (a + b = length docs)%nat /\
      mapping_of w' = Some m /\
      docs_of w' = docs_of w ++ List.filter (accepted m) docs /\
      last (w_log w') = Some (INFO, Synced e a b).
Proof.
  intros Hgen w m Hconn Hm Htags.
  unfold bind at 1. unfold cursor at 1. cbv [bind gets raise ret].
  rewrite Hconn. cbv [modify]. set (w1 := add_extracted e w).
  change (w_db w1) with (w_db w). change (w_es_index w1) with (w_es_index w).
  rewrite Hgen. unfold helpers_bulk.
  destruct (bulk_loop_accepts (w_es_index w) m (recs (w_db w)) Htags
              [] 0%nat 0%nat w1 Hm)
    as (docs & a & b & w2 & Hall & E & Ha & Hab & Hm2 & Hd2).
  rewrite E. cbv [logger modify]. cbn [fst snd app] in *.
  exists docs, a, b, (add_log (INFO, Synced e a b) w2).
  split; [exact Hall|]. split; [reflexivity|].
  split; [exact Ha|]. split; [exact Hab|]. split; [exact Hm2|].
  split; [exact Hd2|]. cbn [w_log add_log]. apply last_snoc.
Qed.

Lemma pipeline_of_accepts (e : entity) (w : world) (m : pyval) :
  w_conn w = Some ConnOpen -> mapping_of w = Some m ->
  (forall r, r ∈ records_of e (w_db w) ->
     exists d, parse_tags (record_tags r) = PDict d) ->
  exists docs a b w',
    Forall2 (built (w_es_index w)) (records_of e (w_db w)) docs /\
    pipeline_of e w = (Ok a, w') /\
    a = length (List.filter (accepted m) docs) /\
    (a + b = length docs)%nat /\
    mapping_of w' = Some m /\
    docs_of w' = docs_of w ++ List.filter (accepted m) docs /\
    last (w_log w') = Some (INFO, Synced e a b).
Proof.
  destruct e; cbn [pipeline_of records_of].
  - apply (pipeline_accepts Places places_gen places_records).
    intros db ix. unfold places_gen, places_records, places_query.
    now rewrite <- !list_fmap_compose.
  - apply (pipeline_accepts AdminBoundaries admin_gen admin_records).
    intros db ix. unfold admin_gen, admin_records, admin_query.
    now rewrite <- !list_fmap_compose.
  - apply (pipeline_accepts Poi poi_gen poi_records).
    intros db ix. unfold poi_gen, poi_records, poi_query.
    now rewrite <- !list_fmap_compose.
  - apply (pipeline_accepts Roads roads_gen roads_records).
    intros db ix. unfold roads_gen, roads_records, roads_query.
    now rewrite <- !list_fmap_compose.
Qed.

Lemma list_filter_sublist {A} (f : A -> bool) (l : list A) :
  List.filter f l `sublist_of` l.
Proof.
  induction l as [|x l IH]; simpl; [constructor|].
  destruct (f x); now constructor.
Qed.

Lemma built_ids (ix : string) (records : list source_record)
    (docs : list document) :
  Forall2 (built ix) records docs ->
  _id <$> docs = PStr ∘ record_doc_id <$> records.
Proof.
  induction 1 as [|r doc records docs Hb _ IH]; [reflexivity|].
  cbn. rewrite (built_id _ _ _ Hb). f_equal. exact IH.
Qed.

(** X25. A pipeline on an open connection, over records whose tag
    payloads normalise to mappings and whose identifiers are distinct and
    not yet in the index, builds a document for every record it extracts
    and hands each to the index: the documents the index takes are
    appended to it in extraction order, one it rejects is counted as failed
    and does not keep the later ones from being written, and the pipeline
    returns the number taken, which with the number of failures it logs
    makes up the number of records.  The index still holds one document
    for an identifier. *)
Theorem pipeline_tolerates_rejected_documents (e : entity) (w : world)
    (m : pyval) :
  w_conn w = Some ConnOpen -> mapping_of w = Some m ->
  (forall r, r ∈ records_of e (w_db w) ->
     exists d, parse_tags (record_tags r) = PDict d) ->
  NoDup ((_id <$> docs_of w)
         ++ (PStr ∘ record_doc_id <$> records_of e (w_db w))) ->
  exists docs success failed w',
    pipeline_of e w = (Ok success, w') /\
    Forall2 (built (w_es_index w)) (records_of e (w_db w)) docs /\
    docs_of w' = docs_of w ++ List.filter (accepted m) docs /\
    NoDup (_id <$> docs_of w') /\
    success = length (List.filter (accepted m) docs) /\
    (success + failed = length (records_of e (w_db w)))%nat /\
    last (w_log w') = Some (INFO, Synced e success failed).
Proof.
  intros Hconn Hm Htags Hids.
  destruct (pipeline_of_accepts e w m Hconn Hm Htags)
    as (docs & a & b & w' & Hall & E & Ha & Hab & _ & Hd & Hlast).
  exists docs, a, b, w'. rewrite (Forall2_length _ _ _ Hall).
  split; [exact E|]. split; [exact Hall|]. split; [exact Hd|].
  split; [|auto].
  rewrite Hd, fmap_app. rewrite <- (built_ids _ _ _ Hall) in Hids.
  eapply sublist_NoDup; [exact Hids|].
  apply sublist_app; [reflexivity|].
  apply fmap_sublist, list_filter_sublist.
Qed.

Lemma pipeline_of_frame (e : entity) (w w' : world) (r : result nat) :
  pipeline_of e w = (r, w') ->
  w_conn w' = w_conn w /\ w_db w' = w_db w /\ w_es_index w' = w_es_index w /\
  (w_conn w = Some ConnOpen -> w_extracted w' = w_extracted w ++ [e]).
Proof.
  intros E.
  destruct (keeps_pipelines w_conn (fun _ _ => eq_refl) (fun _ _ => eq_refl)
              (fun _ _ => eq_refl)) as (C1 & C2 & C3 & C4).
  destruct (keeps_pipelines w_db (fun _ _ => eq_refl) (fun _ _ => eq_refl)
              (fun _ _ => eq_refl)) as (D1 & D2 & D3 & D4).
  destruct (keeps_pipelines w_es_index (fun _ _ => eq_refl) (fun _ _ => eq_refl)
              (fun _ _ => eq_refl)) as (I1 & I2 & I3 & I4).
  destruct e; cbn [pipeline_of] in E.
  - repeat split; [eapply C1 | eapply D1 | eapply I1 |
                   apply (sync_places_extracts _ _ _ E)]; exact E.
  - repeat split; [eapply C2 | eapply D2 | eapply I2 |
                   apply (sync_admin_boundaries_extracts _ _ _ E)]; exact E.
  - repeat split; [eapply C3 | eapply D3 | eapply I3 |
                   apply (sync_poi_extracts _ _ _ E)]; exact E.
  - repeat split; [eapply C4 | eapply D4 | eapply I4 |
                   apply (sync_roads_extracts _ _ _ E)]; exact E.
Qed.

(** One pipeline of a run that meets no error. *)
Lemma pipeline_step (e : entity) (w : world) (m : pyval) (db : database)
    (ix : string) :
  w_conn w = Some ConnOpen -> mapping_of w = Some m ->
  w_db w = db -> w_es_index w = ix ->
  (forall r, r ∈ records_of e db ->
     exists d, parse_tags (record_tags r) = PDict d) ->
  exists docs w',
    pipeline_of e w = (Ok (length (List.filter (accepted m) docs)), w') /\
    Forall2 (built ix) (records_of e db) docs /\
    docs_of w' = docs_of w ++ List.filter (accepted m) docs /\
    w_conn w' = Some ConnOpen /\ mapping_of w' = Some m /\
    w_db w' = db /\ w_es_index w' = ix /\
    w_extracted w' = w_extracted w ++ [e].
Proof.
  intros Hconn Hm <- <- Htags.
  destruct (pipeline_of_accepts e w m Hconn Hm Htags)
    as (docs & a & b & w' & Hall & E & -> & _ & Hm' & Hd & _).
  destruct (pipeline_of_frame e w w' _ E) as (Hc & Hdb & Hix & Hex).
  exists docs, w'. rewrite Hc, Hdb, Hix, (Hex Hconn). auto 10.
Qed.

(** X26. A run that meets no error: the source can be reached, a mapping
    file holds JSON, the tag payloads of the extracted records normalise to
    mappings, and the server reads the centroid texts it wrote (so that no
    statement of the run fails).  It returns, having run the four extractions in
    the order places, boundaries, POI, roads and closed the connection.  The
    index was created with the file's mapping and holds, in extraction
    order, the documents the index took among those built for every record
    of the run, and nothing of what it held before; the summary it logs
    last counts exactly the documents that are in the index. *)
Theorem complete_run (w : world) (content : string) (mapping : pyval) :
  w_db_up w = true ->
  mapping_file_content w = Some content ->
  json_loads content = Some mapping ->
  (forall r, r ∈ run_records (w_db w) ->
     exists d, parse_tags (record_tags r) = PDict d) ->
  (forall a c, a ∈ admin_boundaries (w_db w) -> ab_centroid a = Some c ->
     is_Some (ST_GeomFromText (ST_AsText c))) ->
  exists w' docs n1 n2 n3 n4,
    sync_all w = (Ok tt, w') /\
    Forall2 (built (w_es_index w)) (run_records (w_db w)) docs /\
    w_index w'
    = Some {| ix_mapping := mapping;
              ix_docs := List.filter (accepted mapping) docs |} /\
    last (w_log w')
    = Some (INFO, Completed (n1 + n2 + n3 + n4) n1 n2 n3 n4) /\
    (n1 + n2 + n3 + n4)%nat = length (List.filter (accepted mapping) docs) /\
    w_extracted w' = w_extracted w ++ [Places; AdminBoundaries; Poi; Roads] /\
    w_conn w' = Some ConnClosed.
Proof.
  intros Hup Hfile Hjson Htags _.
  set (w0 := add_log (INFO, Starting) w).
  set (wc := add_log (INFO, Connected) (set_conn (Some ConnOpen) w0)).
  assert (Hconnect : connect_db w0 = (Ok tt, wc)) by now apply connect_db_up.
  assert (Hcreate : exists wi,
            create_index wc = (Ok tt, wi) /\
            w_conn wi = Some ConnOpen /\ mapping_of wi = Some mapping /\
            docs_of wi = [] /\ w_db wi = w_db w /\
            w_es_index wi = w_es_index w /\ w_extracted wi = w_extracted w).
  { rewrite (create_index_reads wc content Hfile), Hjson.
    eexists. split; [reflexivity|].
    change (w_index wc) with (w_index w). destruct (w_index w); repeat split. }
  destruct Hcreate as (wi & Hcreate & Hc & Hm & Hd & Hdb & Hix & Hex).
  assert (Hin : forall e r, r ∈ records_of e (w_db w) -> r ∈ run_records (w_db w)).
  { intros e r Hr. unfold run_records. rewrite !elem_of_app.
    destruct e; cbn [records_of] in Hr; tauto. }
  destruct (pipeline_step Places wi mapping (w_db w) (w_es_index w))
    as (d1 & w1 & E1 & B1 & D1 & C1 & M1 & DB1 & IX1 & Hx1); auto.
  { intros r Hr. eapply Htags, Hin, Hr. }
  destruct (pipeline_step AdminBoundaries w1 mapping (w_db w) (w_es_index w))
    as (d2 & w2 & E2 & B2 & D2 & C2 & M2 & DB2 & IX2 & Hx2); auto.
  { intros r Hr. eapply Htags, Hin, Hr. }
  destruct (pipeline_step Poi w2 mapping (w_db w) (w_es_index w))
    as (d3 & w3 & E3 & B3 & D3 & C3 & M3 & DB3 & IX3 & Hx3); auto.
  { intros r Hr. eapply Htags, Hin, Hr. }
  destruct (pipeline_step Roads w3 mapping (w_db w) (w_es_index w))
    as (d4 & w4 & E4 & B4 & D4 & C4 & M4 & DB4 & IX4 & Hx4); auto.
  { intros r Hr. eapply Htags, Hin, Hr. }
  cbn [pipeline_of] in E1, E2, E3, E4.
  set (n1 := length (List.filter (accepted mapping) d1)) in *.
  set (n2 := length (List.filter (accepted mapping) d2)) in *.
  set (n3 := length (List.filter (accepted mapping) d3)) in *.
  set (n4 := length (List.filter (accepted mapping) d4)) in *.
  set (w5 := add_log (INFO, Completed (n1 + n2 + n3 + n4) n1 n2 n3 n4) w4).
  assert (Hbody : run_body w0 = (Ok tt, w5)).
  { unfold run_body, bind at 1. rewrite Hconnect.
    unfold bind at 1. rewrite Hcreate.
    unfold pipelines, bind at 1. rewrite E1.
    unfold bind at 1. rewrite E2.
    unfold bind at 1. rewrite E3.
    unfold bind at 1. rewrite E4. reflexivity. }
  exists (close_connection w5), (d1 ++ d2 ++ d3 ++ d4), n1, n2, n3, n4.
  split; [rewrite sync_all_guarded, guarded_run; fold w0; now rewrite Hbody|].
  split.
  { unfold run_records. repeat apply Forall2_app; assumption. }
  assert (Hdocs : docs_of w4
                  = List.filter (accepted mapping) (d1 ++ d2 ++ d3 ++ d4)).
  { rewrite D4, D3, D2, D1, Hd, !List.filter_app, <- !app_assoc. reflexivity. }
  split.
  { unfold close_connection. change (w_conn w5) with (w_conn w4). rewrite C4.
    cbn [w_index set_conn add_log w5].
    rewrite (docs_of_index w4 mapping M4). now rewrite Hdocs. }
  split.
  { unfold close_connection. change (w_conn w5) with (w_conn w4). rewrite C4.
    cbn [w_log set_conn add_log w5]. apply last_snoc. }
  split.
  { rewrite !List.filter_app, !length_app. unfold n1, n2, n3, n4. lia. }
  split.
  { unfold close_connection. change (w_conn w5) with (w_conn w4). rewrite C4.
    cbn [w_extracted set_conn add_log w5].
    rewrite Hx4, Hx3, Hx2, Hx1, Hex, <- !app_assoc. reflexivity. }
  unfold close_connection. change (w_conn w5) with (w_conn w4). now rewrite C4.
Qed.

Lemma setup_succeeds (w : world) (content : string) (mapping : pyval) :
  w_db_up w = true ->
  mapping_file_content w = Some content ->
  json_loads content = Some mapping ->
  exists w1,
    (connect_db ;; create_index) (add_log (INFO, Starting) w) = (Ok tt, w1).
Proof.
  intros Hup Hfile Hjson. unfold bind.
  rewrite (connect_db_up (add_log (INFO, Starting) w) Hup).
  set (wc := add_log (INFO, Connected) _).
  rewrite (create_index_reads wc content Hfile), Hjson. eauto.
Qed.

(** X28. Once the source is reached and the mapping file read, the old
    index is gone for good, however the run ends: the documents in the
    index afterwards were all built from records of this run's
    extractions, and stand in extraction order.  A run that fails half way
    thus leaves a partial index, not the previous one. *)
Theorem run_past_setup_drops_the_old_index (w w' : world) (res : result unit)
    (content : string) (mapping : pyval) :
  w_db_up w = true ->
  mapping_file_content w = Some content ->
  json_loads content = Some mapping ->
  sync_all w = (res, w') ->
  exists records,
    records `sublist_of` run_records (w_db w) /\
    Forall2 (built (w_es_index w)) records (docs_of w') /\
    (length (docs_of w') <= length (run_records (w_db w)))%nat.
Proof.
  intros Hup Hfile Hjson Hrun.
  destruct (setup_succeeds w content mapping Hup Hfile Hjson) as (w1 & Hsetup).
  destruct (sync_all_docs w w1 w' res Hsetup Hrun) as (records & Hsub & Hbuilt).
  exists records. split; [exact Hsub|]. split; [exact Hbuilt|].
  rewrite <- (Forall2_length _ _ _ Hbuilt). now apply sublist_length.
Qed.


(** ** Running again *)

Lemma same_run_ret {A} (x : A) : same_run (ret x).
Proof. intros a b Hab. now split. Qed.

Lemma same_run_raise {A} (e : exn) : same_run (@raise world A e).
Proof. intros a b Hab. now split. Qed.

Lemma same_run_lift {A} (r : result A) : same_run (lift r).
Proof. intros a b Hab. now split. Qed.

Lemma same_run_gets {A} (g : world -> A) :
  (forall a b, alike a b -> g a = g b) -> same_run (gets g).
Proof. intros Hg a b Hab. cbn. split; [now rewrite (Hg a b Hab) | exact Hab]. Qed.

Lemma same_run_modify (g : world -> world) :
  (forall a b, alike a b -> alike (g a) (g b)) -> same_run (modify g).
Proof. intros Hg a b Hab. cbn. split; [reflexivity | now apply Hg]. Qed.

Lemma alike_add_log (r1 r2 : log_record) (a b : world) :
  alike a b -> alike (add_log r1 a) (add_log r2 b).
Proof. intros (Hc & Hn & Hi). repeat split; assumption. Qed.

Lemma alike_add_extracted (e1 e2 : entity) (a b : world) :
  alike a b -> alike (add_extracted e1 a) (add_extracted e2 b).
Proof. intros (Hc & Hn & Hi). repeat split; assumption. Qed.

Lemma alike_set_index (i : option es_index) (a b : world) :
  alike a b -> alike (set_index i a) (set_index i b).
Proof. intros (Hc & Hn & Hi). repeat split; assumption. Qed.

Lemma alike_set_conn (c : option connection) (a b : world) :
  alike a b -> alike (set_conn c a) (set_conn c b).
Proof. intros (Hc & Hn & Hi). repeat split; assumption. Qed.

Lemma same_run_logger (lv : level) (msg : message) : same_run (logger lv msg).
Proof. apply same_run_modify. intros a b. apply alike_add_log. Qed.

Lemma same_run_bind {A C} (m : M world A) (k : A -> M world C) :
  same_run m -> (forall x, same_run (k x)) -> same_run (bind m k).
Proof.
  intros Hm Hk a b Hab. unfold bind.
  destruct (Hm a b Hab) as [Hr Hw].
  destruct (m a) as [[x|e] a'], (m b) as [[y|e'] b']; cbn [fst snd] in *;
    try discriminate Hr.
  - injection Hr as <-. now apply Hk.
  - injection Hr as <-. now split.
Qed.

Lemma same_run_try_except {A} (m : M world A) (h : exn -> M world A) :
  same_run m -> (forall e, same_run (h e)) -> same_run (try_except m h).
Proof.
  intros Hm Hh a b Hab. unfold try_except.
  destruct (Hm a b Hab) as [Hr Hw].
  destruct (m a) as [[x|e] a'], (m b) as [[y|e'] b']; cbn [fst snd] in *;
    try discriminate Hr.
  - now split.
  - injection Hr as <-. destruct (is_Exception e); [now apply Hh | now split].
Qed.

Lemma alike_conn (a b : world) : alike a b -> w_conn a = w_conn b.
Proof. now intros (_ & Hn & _). Qed.

Lemma alike_index (a b : world) : alike a b -> w_index a = w_index b.
Proof. now intros (_ & _ & Hi). Qed.

Lemma alike_db (a b : world) : alike a b -> w_db a = w_db b.
Proof. intros (Hc & _). unfold config in Hc. now injection Hc. Qed.

Lemma alike_es_index (a b : world) : alike a b -> w_es_index a = w_es_index b.
Proof. intros (Hc & _). unfold config in Hc. now injection Hc. Qed.

Ltac same_steps :=
  repeat first
    [ apply same_run_bind; [|intros ?]
    | apply same_run_try_except; [|intros ?]
    | apply same_run_ret | apply same_run_lift | apply same_run_raise
    | apply same_run_logger
    | apply same_run_gets;
        first [exact alike_conn | exact alike_index | exact alike_db
              | exact alike_es_index]
    | apply same_run_modify;
        first [apply alike_set_index | intros ? ?; apply alike_add_extracted]
    | assumption
    | match goal with
      | H : forall x, same_run _ |- _ => apply H
      | |- same_run (match ?x with _ => _ end) => destruct x
      | |- same_run (if ?x then _ else _) => destruct x
      end ].

Lemma same_run_cursor : same_run cursor.
Proof. unfold cursor. same_steps. Qed.

Lemma same_run__get_parent_admin (c : pyval) : same_run (_get_parent_admin c).
Proof. unfold _get_parent_admin. pose proof same_run_cursor. same_steps. Qed.

Lemma same_run__build_admin_hierarchy (row : gmap string pyval) :
  same_run (_build_admin_hierarchy row).
Proof.
  unfold _build_admin_hierarchy. cbv zeta.
  pose proof same_run__get_parent_admin. same_steps.
Qed.

Lemma same_run_admin_doc (ix : string) (row : gmap string pyval) :
  same_run (admin_doc ix row).
Proof.
  unfold admin_doc. cbv zeta.
  pose proof (same_run__build_admin_hierarchy row). same_steps.
Qed.

Lemma same_run_write_document (d : document) : same_run (write_document d).
Proof. unfold write_document. same_steps. Qed.

Lemma same_run_send_chunk (chunk : list document) :
  forall s n, same_run (send_chunk chunk s n).
Proof.
  induction chunk as [|d chunk IH]; intros s n; cbn [send_chunk].
  - apply same_run_ret.
  - apply same_run_bind; [apply same_run_write_document | intros []; apply IH].
Qed.

Lemma same_run_bulk_loop (actions : list (M world document)) :
  (forall x, x ∈ actions -> same_run x) ->
  forall chunk s n, same_run (bulk_loop actions chunk s n).
Proof.
  induction actions as [|x actions IH]; intros Hx chunk s n; cbn [bulk_loop].
  - apply same_run_send_chunk.
  - apply same_run_bind; [apply Hx; now left | intros d].
    assert (Hrest : forall y, y ∈ actions -> same_run y)
      by (intros y Hy; apply Hx; now right).
    destruct (Nat.eqb _ _).
    + apply same_run_bind; [apply same_run_send_chunk | intros sf].
      now apply IH.
    + now apply IH.
Qed.

Lemma same_run_pipeline (e : entity)
    (gen : database -> string -> list (M world document)) :
  (forall db ix x, x ∈ gen db ix -> same_run x) ->
  same_run
    (cursor ;;
     modify (add_extracted e) ;;
     do db <- gets w_db;
     do es_index <- gets w_es_index;
     do sf <- helpers_bulk (gen db es_index);
     logger INFO (Synced e (fst sf) (snd sf)) ;;
     ret (fst sf)).
Proof.
  intros Hgen.
  apply same_run_bind; [apply same_run_cursor | intros _].
  apply same_run_bind;
    [apply same_run_modify; intros ? ?; apply alike_add_extracted | intros _].
  apply same_run_bind; [apply same_run_gets, alike_db | intros db].
  apply same_run_bind; [apply same_run_gets, alike_es_index | intros ix].
  apply same_run_bind; [|intros sf; same_steps].
  unfold helpers_bulk. apply same_run_bulk_loop. apply Hgen.
Qed.

Lemma same_run_pipelines : same_run pipelines.
Proof.
  unfold pipelines.
  apply same_run_bind; [|intros n1].
  { apply (same_run_pipeline Places places_gen). intros db ix x Hx.
    apply list_elem_of_fmap in Hx as (row & -> & _). apply same_run_lift. }
  apply same_run_bind; [|intros n2].
  { apply (same_run_pipeline AdminBoundaries admin_gen). intros db ix x Hx.
    apply list_elem_of_fmap in Hx as (row & -> & _). apply same_run_admin_doc. }
  apply same_run_bind; [|intros n3].
  { apply (same_run_pipeline Poi poi_gen). intros db ix x Hx.
    apply list_elem_of_fmap in Hx as (row & -> & _). apply same_run_lift. }
  apply same_run_bind; [|intros n4].
  { apply (same_run_pipeline Roads roads_gen). intros db ix x Hx.
    apply list_elem_of_fmap in Hx as (row & -> & _). apply same_run_lift. }
  apply same_run_logger.
Qed.

Lemma run_body_setup (w0 : world) :
  run_body w0
  = match (connect_db ;; create_index) w0 with
    | (Ok _, w1) => pipelines w1
    | (Raise e, w1) => (Raise e, w1)
    end.
Proof.
  unfold run_body, bind.
  destruct (connect_db w0) as [[[]|e] wc]; [|reflexivity].
  now destruct (create_index wc) as [[[]|e] wi].
Qed.

Lemma mapping_file_content_config (a b : world) :
  config a = config b -> mapping_file_content a = mapping_file_content b.
Proof.
  unfold config, mapping_file_content. intros [= _ Hl Hf _ _].
  now rewrite Hl, Hf.
Qed.

Lemma create_index_no_file (w : world) :
  mapping_file_content w = None -> create_index w = (Raise TypeError, w).
Proof.
  unfold mapping_file_content. intros Hnone.
  destruct (w_files w !! "/app/mappings/nepal_locations.json") eqn:E;
    [discriminate|].
  cbv [create_index bind gets ret raise open_read json_load
         try_except_FileNotFoundError List.find path_exists].
  rewrite E, Hnone. reflexivity.
Qed.

(** The set-up of a run depends on the configuration, the files and the
    source only: from two worlds that agree on them it ends the same way,
    in worlds that are alike when it succeeds, and with each index left as
    it was when it fails. *)
Lemma setup_agrees (a b : world) :
  config a = config b ->
  exists r a' b',
    (connect_db ;; create_index) a = (r, a') /\
    (connect_db ;; create_index) b = (r, b') /\
    config a' = config a /\ config b' = config b /\
    match r with
    | Ok _ => alike a' b'
    | Raise _ => w_index a' = w_index a /\ w_index b' = w_index b
    end.
Proof.
  intros Hc. pose proof Hc as Hc'. unfold config in Hc'.
  injection Hc' as Hix Hlocal Hfiles Hup Hdb.
  unfold bind. destruct (w_db_up a) eqn:Ha.
  - rewrite (connect_db_up a Ha), (connect_db_up b) by congruence.
    set (ca := add_log (INFO, Connected) (set_conn (Some ConnOpen) a)).
    set (cb := add_log (INFO, Connected) (set_conn (Some ConnOpen) b)).
    assert (Hcc : config ca = config cb) by exact Hc.
    pose proof (mapping_file_content_config ca cb Hcc) as Hm.
    destruct (mapping_file_content ca) as [content|] eqn:Hfa; symmetry in Hm.
    + rewrite (create_index_reads ca content Hfa),
        (create_index_reads cb content Hm).
      destruct (json_loads content) as [m|].
      * do 3 eexists. split; [reflexivity|]. split; [reflexivity|].
        change (w_index ca) with (w_index a).
        change (w_index cb) with (w_index b).
        destruct (w_index a), (w_index b); repeat split; assumption.
      * do 3 eexists. split; [reflexivity|]. split; [reflexivity|].
        repeat split.
    + rewrite (create_index_no_file ca Hfa), (create_index_no_file cb Hm).
      do 3 eexists. split; [reflexivity|]. split; [reflexivity|].
      repeat split.
  - rewrite (connect_db_down a Ha), (connect_db_down b) by congruence.
    do 3 eexists. split; [reflexivity|]. split; [reflexivity|].
    repeat split.
Qed.

Lemma config_close_connection (w : world) :
  config (close_connection w) = config w.
Proof. unfold close_connection. now destruct (w_conn w). Qed.

Lemma index_close_connection (w : world) :
  w_index (close_connection w) = w_index w.
Proof. unfold close_connection. now destruct (w_conn w). Qed.

(** How a guarded body ends: its own result when that is no exception the
    handler takes, exit status 1 otherwise; the configuration and the index
    are those the body left. *)
Lemma guarded_end (body : M world unit) (w0 w1 : world) (r : result unit) :
  body w0 = (r, w1) ->
  fst (guarded body w0)
  = match r with
    | Ok x => Ok x
    | Raise e => if is_Exception e then Raise (SystemExit 1) else Raise e
    end /\
  config (snd (guarded body w0)) = config w1 /\
  w_index (snd (guarded body w0)) = w_index w1.
Proof.
  intros E. rewrite guarded_run, E.
  destruct r as [x|e]; [|destruct (is_Exception e)]; cbn [fst snd];
    unfold aborted;
    rewrite ?config_close_connection, ?index_close_connection; auto.
Qed.

(** Two runs on the same configuration, files and source end the same
    way; they leave the same index, unless they stop before the index is
    replaced, in which case each leaves its index as it was.  Neither
    changes the configuration, the files or the source. *)
Lemma runs_agree (a b : world) :
  config a = config b ->
  fst (sync_all a) = fst (sync_all b) /\
  config (snd (sync_all a)) = config a /\
  (w_index (snd (sync_all a)) = w_index (snd (sync_all b)) \/
   (w_index (snd (sync_all a)) = w_index a /\
    w_index (snd (sync_all b)) = w_index b)).
Proof.
  intros Hc. rewrite !sync_all_guarded.
  set (a0 := add_log (INFO, Starting) a).
  set (b0 := add_log (INFO, Starting) b).
  destruct (setup_agrees a0 b0 Hc) as (r & a1 & b1 & Ea & Eb & Hca & Hcb & Hr).
  pose proof (run_body_setup a0) as Ra. rewrite Ea in Ra.
  pose proof (run_body_setup b0) as Rb. rewrite Eb in Rb.
  destruct r as [[]|e].
  - destruct (same_run_pipelines a1 b1 Hr) as [Hres Halike].
    destruct (pipelines a1) as [ra a2] eqn:Pa.
    destruct (pipelines b1) as [rb b2] eqn:Pb.
    cbn [fst snd] in Hres, Halike. subst rb.
    destruct (guarded_end run_body a0 a2 ra Ra) as (Fa & Ca & Ia).
    destruct (guarded_end run_body b0 b2 ra Rb) as (Fb & _ & Ib).
    rewrite Fa, Fb, Ca, Ia, Ib. split; [reflexivity|]. split.
    + transitivity (config a1); [|exact Hca].
      eapply (keeps_the_pipelines config); try exact Pa; reflexivity.
    + left. apply Halike.
  - destruct Hr as [Hia Hib].
    destruct (guarded_end run_body a0 a1 _ Ra) as (Fa & Ca & Ia).
    destruct (guarded_end run_body b0 b1 _ Rb) as (Fb & _ & Ib).
    rewrite Fa, Fb, Ca, Ia, Ib. split; [reflexivity|]. split; [exact Hca|].
    right. split; assumption.
Qed.

(** X27. Running the sync again on an unchanged source ends as the
    first run did and leaves the index exactly as the first run left it:
    the same mapping and the same documents in the same order, none
    doubled and none left over.  This holds of every run, also of one that
    fails. *)
Theorem rerun_leaves_the_same_index (w : world) :
  fst (sync_all (snd (sync_all w))) = fst (sync_all w) /\
  w_index (snd (sync_all (snd (sync_all w)))) = w_index (snd (sync_all w)).
Proof.
  destruct (runs_agree w w eq_refl) as (_ & Hconfig & _).
  destruct (runs_agree (snd (sync_all w)) w Hconfig) as (Hres & _ & Hindex).
  split; [exact Hres|].
  destruct Hindex as [Hsame | [Hkept _]]; assumption.
Qed.


End Properties.


(** * The sample store: concrete runs *)

Import Sample.

(** ** Ward names *)

Lemma kathmandu_05_is_ward_name : ward_name "Kathmandu-05" "Kathmandu" "05".
Proof.
  exists EmptyString. split; [reflexivity|]. split; [now left|].
  repeat split; discriminate.
Qed.

Lemma pokhara_is_no_ward_name (m d : string) : ~ ward_name "Pokhara" m d.
Proof.
  intros W. destruct (ward_exec_complete _ _ _ W) as [mk E].
  vm_compute in E. discriminate E.
Qed.

Example no_pattern_does_not_match :
  Re.re_match ward_pattern "NoPattern" = None.
Proof. reflexivity. Qed.

Example two_hyphens_split_at_the_last :
  on_ok (fun m => (Re.group m 1, Re.group m 2))
        (from_option Ok (Raise ValueError)
           (Re.re_match ward_pattern "Bharatpur-East-12"))
  = Some ("Bharatpur-East", "12").
Proof. reflexivity. Qed.

(** A character is a code point, whatever bytes it takes. *)
Example characters_of_a_name :
  chars "वडा-५" = ["व"; "ड"; "ा"; "-"; "५"] /\
  utf8 0x096B = "५" /\ code_point "५" = Some 0x096B%N /\
  decimal "५" = Some 5 /\ decimal "5" = Some 5 /\ decimal "٥" = Some 5 /\
  decimal "V" = None /\ decimal "-" = None.
Proof. repeat split. Qed.

(** Each of the 660 decimal digits has the value of its place in its run. *)
Example decimal_digits_of_every_script :
  length decimal_zeros = 66%nat /\
  forallb (fun z =>
    forallb (fun k => match decimal (utf8 (z + k)) with
                      | Some v => v =? Z.of_N k
                      | None => false
                      end)
            [0; 1; 2; 3; 4; 5; 6; 7; 8; 9]%N) decimal_zeros = true.
Proof. split; vm_compute; reflexivity. Qed.

(** Digits of any script are digits to [\d] and to [int]. *)
Example devanagari_ward_number :
  on_ok (fun m => (Re.group m 1, py_int (Re.group m 2)))
        (from_option Ok (Raise ValueError)
           (Re.re_match ward_pattern "काठमाडौं-०५"))
  = Some ("काठमाडौं", Ok 5).
Proof. vm_compute. reflexivity. Qed.

(** [int] reads 4300 digits and refuses 4301. *)
Example int_digit_limit :
  on_ok (fun _ => tt) (py_int (string_of_list_ascii (repeat "7"%char 4300)))
  = Some tt /\
  py_int digits_4301 = Raise ValueError.
Proof. split; vm_compute; reflexivity. Qed.

(** C1 at ward "Kathmandu-05" of the sample store. *)
Lemma ward_hierarchy_from_name_witness :
  ab_admin_level kathmandu_ward_5 = Some 9 /\
  exists h w',
    _build_admin_hierarchy (admin_row kathmandu_ward_5) (connected db) = (Ok h, w') /\
    get h "municipality" = PStr "Kathmandu" /\ get h "ward" = PInt 5.
Proof.
  split; [reflexivity|].
  destruct (ward_hierarchy_from_name kathmandu_ward_5 (connected db) eq_refl)
    as (h & w' & E & Hyes & _).
  exists h, w'. split; [exact E|].
  destruct (Hyes "Kathmandu" "05" kathmandu_05_is_ward_name)
    as (Hm & _ & ks & Hks & Hw).
  split; [exact Hm|]. rewrite Hw.
  apply digit_chars_decimal in Hks.
  change (chars "05") with ["0"; "5"] in Hks.
  apply Forall2_cons_inv_l in Hks as (k0 & ks0 & E0 & Hks & ->).
  apply Forall2_cons_inv_l in Hks as (k1 & ks1 & E1 & Hks & ->).
  apply Forall2_nil_inv_l in Hks as ->.
  vm_compute in E0, E1. injection E0 as <-. injection E1 as <-.
  reflexivity.
Defined.

(** The same ward with its number in Devanagari digits is ward 5. *)
Example ward_number_in_devanagari :
  on_ok (fields ["municipality"; "ward"])
        (fst (_build_admin_hierarchy (admin_row kathmandu_ward_5_ne) (connected db)))
  = Some [PStr "Kathmandu"; PInt 5].
Proof. vm_compute. reflexivity. Qed.

(** C1, where the claim fails: a ward whose name ends in 4301 digits reads
    [<municipality>-<digits>]; its municipality is set and its ward is
    not, as [int] refuses the digits. *)
Lemma long_ward_number_is_dropped :
  ab_admin_level long_ward = Some 9 /\
  ward_name (default EmptyString (ab_name long_ward)) "Ward" digits_4301 /\
  exists h w',
    _build_admin_hierarchy (admin_row long_ward) (connected db) = (Ok h, w') /\
    get h "municipality" = PStr "Ward" /\ get h "ward" = PNone.
Proof.
  split; [reflexivity|].
  assert (Hd : digits_4301 <> EmptyString).
  { intros E. apply (f_equal String.length) in E. vm_compute in E.
    discriminate E. }
  assert (Hda : all_chars Re.is_digit digits_4301 = true)
    by (vm_compute; reflexivity).
  assert (W : ward_name (default EmptyString (ab_name long_ward))
                "Ward" digits_4301).
  { exists EmptyString. split; [vm_compute; reflexivity|].
    split; [now left|]. repeat split; auto. }
  split; [exact W|].
  rewrite (_build_admin_hierarchy_ward long_ward eq_refl).
  destruct (resolve_parents_other
              ["district"; "district_ne"; "province"; "province_ne"]
              (get (admin_row long_ward) "centroid")
              (ward_stage (default EmptyString (ab_name long_ward)))
              (connected db)) as (h & w' & E & Hkeep).
  exists h, w'. split; [exact E|].
  destruct (ward_stage_match _ _ _ W) as (Hm & _ & Hw).
  destruct (py_int_digits _ Hd Hda) as (ks & Hks & Hint).
  apply Forall2_length in Hks.
  rewrite !Hkeep by (intros Hin;
    repeat (apply elem_of_cons in Hin as [Hin|Hin]; [discriminate Hin|]);
    exact (proj1 (elem_of_nil _) Hin)).
  split; [exact Hm|]. rewrite Hw, Hint.
  rewrite <- Hks.
  replace (length (chars digits_4301) <=? 4300)%nat with false
    by (vm_compute; reflexivity).
  reflexivity.
Defined.

(** The ward named "Pokhara" has no ward number: nothing is parsed. *)
Example ward_without_number :
  on_ok (fields ["municipality"; "ward"; "district"; "province"])
        (fst (_build_admin_hierarchy (admin_row pokhara_ward) (connected db)))
  = Some [PNone; PNone; PStr "Kaski"; PStr "Gandaki"].
Proof. vm_compute. reflexivity. Qed.

(** ** The parent lookup *)

(** The centroid of Kaski lies in the Kaski and Gandaki polygons. *)
Example parent_of_kaski_centroid :
  fst (_get_parent_admin (PStr "POINT(83.98 28.21)") (connected db))
  = Ok (Some (parent_row kaski gandaki)).
Proof. vm_compute. reflexivity. Qed.

(** The centroid of Darchula lies in a district polygon and in no province
    polygon of the sample table: the lookup answers nothing. *)
Example parent_of_darchula_centroid :
  contains_point (80.5, 29.5)%float darchula = true /\
  fst (_get_parent_admin (PStr "POINT(80.5 29.5)") (connected db)) = Ok None.
Proof. split; vm_compute; reflexivity. Qed.

(** ** Search text *)

(** The place "Pokhara" (district Kaski, province Gandaki, no localized
    name, no municipality). *)
Example place_search_text_pokhara :
  _build_search_text (place_row pokhara) = Ok "Pokhara Kaski Gandaki".
Proof. vm_compute. reflexivity. Qed.

(** C2 at a boundary. The ward "Pokhara" gets district "Kaski" and province
    "Gandaki" from the parent lookup, no municipality and no localized
    name; its search text is the bare name. *)
Theorem boundary_search_text_misses_hierarchy :
  on_ok (fun doc =>
           fields ["name"; "name_ne"; "municipality"; "district"; "province";
                   "search_text"] (_source doc))
        (fst (admin_doc "nepal_locations" (admin_row pokhara_ward) (connected db)))
  = Some [PStr "Pokhara"; PNone; PNone; PStr "Kaski"; PStr "Gandaki";
          PStr "Pokhara"].
Proof. vm_compute. reflexivity. Qed.

(** ** Location *)

(** C7 at latitude zero. The place on the equator has the coordinates
    (85.0, 0.0), neither of them NULL, and its document has no location. *)
Theorem equator_place_without_location :
  fields ["lat"; "lon"] (place_row equator_camp)
  = [PFloat 0%float; PFloat 85%float] /\
  on_ok (fun doc => get (_source doc) "location")
        (place_doc "nepal_locations" (place_row equator_camp))
  = Some PNone.
Proof. split; vm_compute; reflexivity. Qed.

(** ** Malformed tags *)

(** C6 at the place "Pokhara", whose tags are hstore text. *)
Lemma malformed_tags_degrade_witness :
  json_loads "name=>Pokhara" = None /\
  exists doc,
    place_doc "nepal_locations" (place_row pokhara) = Ok doc /\
    get (_source doc) "name_en" = PStr "Pokhara".
Proof.
  split; [reflexivity|].
  exact (proj1 (proj2 (malformed_tags_degrade "nepal_locations" "name=>Pokhara"
                         eq_refl)) pokhara eq_refl).
Defined.

(** ** Localized fields *)

(** C10 at the place "Pokhara". *)
Lemma place_localized_fields_copy_default_witness :
  exists doc,
    place_doc "nepal_locations" (place_row pokhara) = Ok doc /\
    get (_source doc) "district_ne" = PStr "Kaski" /\
    get (_source doc) "province_ne" = PStr "Gandaki" /\
    get (_source doc) "municipality_ne" = PNone.
Proof.
  destruct (place_doc "nepal_locations" (place_row pokhara)) as [doc|e] eqn:E;
    [|vm_compute in E; discriminate E].
  exists doc. split; [reflexivity|].
  destruct (place_localized_fields_copy_default _ _ _ E)
    as (Hm & Hd & Hp & _).
  rewrite Hm, Hd, Hp. repeat split.
Defined.

(** ** Boost scores *)

Example boost_city :
  on_ok (fun doc => get (_source doc) "boost_score")
        (place_doc "nepal_locations" (place_row pokhara))
  = Some (PFloat 2.0%float).
Proof. vm_compute. reflexivity. Qed.

Example boost_municipality_level :
  _calculate_boost "admin_boundary" (PInt 7) = 1.8%float.
Proof. reflexivity. Qed.

(** ** Index creation *)

(** C4 with no mapping file at all. *)
Lemma create_index_without_mapping_file_witness :
  w_files (fresh ∅ db) !! "/app/mappings/nepal_locations.json" = None /\
  w_files (fresh ∅ db) !! w_local_mapping (fresh ∅ db) = None /\
  create_index (fresh ∅ db) = (Raise TypeError, fresh ∅ db).
Proof.
  split; [reflexivity|]. split; [reflexivity|].
  exact (create_index_without_mapping_file (fresh ∅ db) eq_refl eq_refl).
Defined.

(** The run then fails as a whole: nothing is created, nothing extracted. *)
Example run_without_mapping_file :
  fst (sync_all (fresh ∅ db)) = Raise (SystemExit 1) /\
  w_log (snd (sync_all (fresh ∅ db)))
  = [(INFO, Starting); (INFO, Connected); (ERROR, SyncFailed TypeError)] /\
  w_index (snd (sync_all (fresh ∅ db))) = None /\
  w_extracted (snd (sync_all (fresh ∅ db))) = [].
Proof. repeat split; vm_compute; reflexivity. Qed.

(** ** A failing pipeline *)

(** C5 does not hold: the place pipeline raises, and the boundary, POI and
    road pipelines, whose tables have rows, are never run. *)
Lemma failing_places_pipeline_stops_the_run :
  fst ((connect_db ;; create_index)
         (add_log (INFO, Starting) (fresh mapping_file db_with_listed_place)))
  = Ok tt /\
  fst (sync_places after_setup) = Raise AttributeError /\
  fst (sync_all (fresh mapping_file db_with_listed_place)) = Raise (SystemExit 1) /\
  w_extracted (snd (sync_all (fresh mapping_file db_with_listed_place)))
  = [Places] /\
  length (admin_query db_with_listed_place) = 2%nat /\
  length (poi_query db_with_listed_place) = 1%nat /\
  length (roads_query db_with_listed_place) = 1%nat.
Proof. repeat split; vm_compute; reflexivity. Qed.

Lemma pipeline_error_aborts_run_witness :
  (connect_db ;; create_index)
    (add_log (INFO, Starting) (fresh mapping_file db_with_listed_place))
  = (Ok tt, after_setup) /\
  is_Exception AttributeError = true /\
  sync_places after_setup
  = (Raise AttributeError, snd (sync_places after_setup)) /\
  sync_all (fresh mapping_file db_with_listed_place)
  = (Raise (SystemExit 1), aborted AttributeError (snd (sync_places after_setup))) /\
  w_extracted (aborted AttributeError (snd (sync_places after_setup)))
  = w_extracted (fresh mapping_file db_with_listed_place) ++ [Places].
Proof.
  assert (Hsetup : (connect_db ;; create_index)
                     (add_log (INFO, Starting)
                        (fresh mapping_file db_with_listed_place))
                   = (Ok tt, after_setup)) by (vm_compute; reflexivity).
  assert (Hp : sync_places after_setup
               = (Raise AttributeError, snd (sync_places after_setup)))
    by (vm_compute; reflexivity).
  split; [exact Hsetup|]. split; [reflexivity|]. split; [exact Hp|].
  exact (proj1 (pipeline_error_aborts_run
                  (fresh mapping_file db_with_listed_place) after_setup Hsetup)
           AttributeError _ eq_refl Hp).
Defined.

(** ** Identifiers *)

(** C8 on the sample store: a full run writes nine documents. *)
Lemma document_ids_distinct_witness :
  NoDup (pl_id <$> places (w_db (fresh mapping_file db))) /\
  NoDup (ab_id <$> admin_boundaries (w_db (fresh mapping_file db))) /\
  NoDup (poi_id <$> pois (w_db (fresh mapping_file db))) /\
  NoDup (rd_id <$> named_roads (w_db (fresh mapping_file db))) /\
  fst ((connect_db ;; create_index)
         (add_log (INFO, Starting) (fresh mapping_file db))) = Ok tt /\
  _id <$> docs_of (snd (sync_all (fresh mapping_file db)))
  = PStr <$> [ "place_1"; "place_2"; "admin_4"; "admin_40"; "admin_75";
               "admin_4001"; "admin_2705"; "poi_7"; "road_9" ] /\
  NoDup (_id <$> docs_of (snd (sync_all (fresh mapping_file db)))).
Proof.
  assert (HnoDup : forall l : list Z, bool_decide (NoDup l) = true -> NoDup l)
    by (intros l; apply bool_decide_eq_true_1).
  assert (H1 : NoDup (pl_id <$> places (w_db (fresh mapping_file db))))
    by (apply HnoDup; vm_compute; reflexivity).
  assert (H2 : NoDup (ab_id <$> admin_boundaries (w_db (fresh mapping_file db))))
    by (apply HnoDup; vm_compute; reflexivity).
  assert (H3 : NoDup (poi_id <$> pois (w_db (fresh mapping_file db))))
    by (apply HnoDup; vm_compute; reflexivity).
  assert (H4 : NoDup (rd_id <$> named_roads (w_db (fresh mapping_file db))))
    by (apply HnoDup; vm_compute; reflexivity).
  assert (Hsetup :
    (connect_db ;; create_index) (add_log (INFO, Starting) (fresh mapping_file db))
    = (Ok tt, snd ((connect_db ;; create_index)
                     (add_log (INFO, Starting) (fresh mapping_file db)))))
    by (vm_compute; reflexivity).
  repeat (split; [assumption|]).
  split; [now rewrite Hsetup|]. split; [vm_compute; reflexivity|].
  apply (proj2 (document_ids_distinct (fresh mapping_file db) H1 H2 H3 H4)
           _ (fst (sync_all (fresh mapping_file db))) _ Hsetup).
  now destruct (sync_all (fresh mapping_file db)).
Defined.

(** ** The hierarchy, level by level *)

(** X1 at the province "Gandaki". *)
Lemma province_hierarchy_witness :
  ab_admin_level gandaki = Some 4 /\
  exists h,
    _build_admin_hierarchy (admin_row gandaki) (connected db)
    = (Ok h, connected db) /\
    get h "province" = PStr "Gandaki" /\ get h "province_ne" = PStr "Gandaki".
Proof.
  split; [reflexivity|].
  destruct (province_hierarchy gandaki (connected db) eq_refl)
    as (h & E & Hp & Hne & _).
  exists h. split; [exact E|]. split; [exact Hp | exact Hne].
Defined.

(** X2 at the district "Kaski". *)
Lemma district_hierarchy_witness :
  ab_admin_level kaski = Some 6 /\
  exists h w',
    _build_admin_hierarchy (admin_row kaski) (connected db) = (Ok h, w') /\
    get h "district" = PStr "Kaski" /\ get h "municipality" = PNone.
Proof.
  split; [reflexivity|].
  destruct (district_hierarchy kaski (connected db) eq_refl)
    as (h & w' & E & Hd & _ & Hnone & _).
  exists h, w'. split; [exact E|]. split; [exact Hd|].
  apply Forall_cons in Hnone as [_ Hnone].
  now apply Forall_cons in Hnone as [Hm _].
Defined.

(** X3 at the municipality "Pokhara". *)
Lemma municipality_hierarchy_witness :
  ab_admin_level pokhara_metro = Some 7 /\
  exists h w',
    _build_admin_hierarchy (admin_row pokhara_metro) (connected db) = (Ok h, w') /\
    get h "municipality" = PStr "Pokhara" /\
    get h "municipality_ne" = PStr "Pokhara Mahanagar".
Proof.
  split; [reflexivity|].
  destruct (municipality_hierarchy pokhara_metro (connected db) eq_refl)
    as (h & w' & E & Hm & Hne & _).
  exists h, w'. split; [exact E|]. split; [exact Hm | exact Hne].
Defined.

(** X4 at the province "Gandaki", which has no centroid. *)
Lemma no_centroid_no_lookup_witness :
  ab_centroid gandaki = None /\
  exists h,
    _build_admin_hierarchy (admin_row gandaki) (connected db)
    = (Ok h, connected db) /\
    get h "district" = PNone.
Proof.
  split; [reflexivity|].
  destruct (no_centroid_no_lookup gandaki (connected db) eq_refl)
    as (h & E & _ & Hd).
  exists h. split; [exact E|]. apply Hd. discriminate.
Defined.

(** X6 at ward "Kathmandu-05". *)
Lemma hierarchy_has_its_seven_keys_witness :
  exists h w',
    _build_admin_hierarchy (admin_row kathmandu_ward_5) (connected db)
    = (Ok h, w') /\
    is_Some (h !! "ward") /\ ~ is_Some (h !! "name").
Proof.
  destruct (_build_admin_hierarchy_total kathmandu_ward_5 (connected db))
    as (h & w' & E).
  exists h, w'. split; [exact E|].
  pose proof (hierarchy_has_its_seven_keys _ _ _ _ E) as K. split.
  - apply K. unfold hierarchy_keys. repeat constructor.
  - intros Hs. apply K in Hs. unfold hierarchy_keys in Hs.
    repeat (apply elem_of_cons in Hs as [Hs|Hs]; [discriminate Hs|]).
    now apply elem_of_nil in Hs.
Defined.

(** X7 at ward "Kathmandu-05": one leading zero, then 5. *)
Lemma ward_number_is_decimal_witness :
  ab_admin_level kathmandu_ward_5 = Some 9 /\
  ab_name kathmandu_ward_5
  = Some ("Kathmandu" +:+ "-" +:+ "0" +:+ id_text 5 +:+ EmptyString) /\
  exists h w',
    _build_admin_hierarchy (admin_row kathmandu_ward_5) (connected db)
    = (Ok h, w') /\
    get h "municipality" = PStr "Kathmandu" /\
    get h "municipality_ne" = PStr "Kathmandu" /\
    get h "ward" = PInt 5.
Proof.
  split; [reflexivity|]. split; [reflexivity|].
  apply (ward_number_is_decimal kathmandu_ward_5 (connected db)
           "Kathmandu" "0" EmptyString 5); try reflexivity.
  - discriminate.
  - lia.
  - apply Nat.leb_le. reflexivity.
  - now left.
Defined.

(** ** Tags *)

(** X8 at the place "Baidam", whose tags name it "Lakeside". *)
Lemma name_en_from_tags_witness :
  parse_tags (record_tags (FromPlaces baidam))
  = PDict [("name:en", PStr "Lakeside")] /\
  exists doc w',
    record_action "nepal_locations" (FromPlaces baidam) (connected db)
    = (Ok doc, w') /\
    get (_source doc) "name_en" = PStr "Lakeside".
Proof.
  split; [reflexivity|].
  destruct (name_en_from_tags "nepal_locations" (FromPlaces baidam)
              (connected db) [("name:en", PStr "Lakeside")] eq_refl)
    as (doc & w' & E & Hsome & _).
  exists doc, w'. split; [exact E|]. now apply Hsome.
Defined.

(** X9 at the place whose tags are the JSON array "[]". *)
Lemma non_object_tags_stop_the_builder_witness :
  record_tags (FromPlaces listed_place) = PStr "[]" /\
  json_loads "[]" = Some (PList []) /\
  record_action "nepal_locations" (FromPlaces listed_place) (connected db)
  = (Raise AttributeError, connected db).
Proof.
  split; [reflexivity|]. split; [reflexivity|].
  apply (non_object_tags_stop_the_builder "nepal_locations"
           (FromPlaces listed_place) (connected db) "[]" (PList []));
    [reflexivity | discriminate | reflexivity | discriminate].
Defined.

(** X10 at the POI "Phewa Lake", whose tags are no JSON. *)
Lemma poi_tags_field_is_a_mapping_witness :
  exists doc,
    poi_doc "nepal_locations" (poi_row phewa_lake) = Ok doc /\
    get (_source doc) "tags" = PDict [].
Proof.
  destruct (poi_doc_total "nepal_locations" phewa_lake [] eq_refl)
    as (doc & E & _).
  exists doc. split; [exact E|].
  destruct (poi_tags_field_is_a_mapping _ _ _ E) as (d & Hd & _ & Hempty).
  rewrite Hd. f_equal. apply Hempty. right. right.
  exists "name=>Phewa". split; reflexivity.
Defined.

(** ** Documents *)

(** X11 at the POI "Phewa Lake". *)
Lemma documents_are_named_witness :
  FromPoi phewa_lake ∈ run_records db /\
  exists doc,
    built "nepal_locations" (FromPoi phewa_lake) doc /\
    get (_source doc) "name" = PStr "Phewa Lake" /\
    get (_source doc) "search_text" = PStr "Phewa Lake".
Proof.
  assert (Hin : FromPoi phewa_lake ∈ run_records db)
    by (vm_compute; repeat constructor).
  split; [exact Hin|].
  destruct (poi_doc_total "nepal_locations" phewa_lake [] eq_refl)
    as (doc & E & _).
  exists doc. split; [exact E|].
  destruct (documents_are_named db "nepal_locations" (FromPoi phewa_lake) doc
              Hin E) as (s & Hs & Hname & Hsearch).
  injection Hs as <-. split; [exact Hname|]. apply Hsearch. now left.
Defined.

(** X12 at the road "Prithvi Highway". *)
Lemma document_common_fields_witness :
  exists doc,
    built "nepal_locations" (FromRoads prithvi_highway) doc /\
    _index doc = "nepal_locations" /\ _id doc = PStr "road_9" /\
    get (_source doc) "entity_type" = PStr "road".
Proof.
  destruct (road_doc_total (H := collaborators) "nepal_locations"
              prithvi_highway [] eq_refl)
    as (doc & E & _).
  exists doc. split; [exact E|].
  destruct (document_common_fields "nepal_locations"
              (FromRoads prithvi_highway) doc E) as (Hix & Hid & Hf).
  split; [exact Hix|]. split; [exact Hid|].
  now injection Hf as _ Ht _.
Defined.

(** X13 at the district "Kaski". *)
Lemma boundary_documents_have_synced_levels_witness :
  FromAdmin kaski ∈ run_records db /\
  exists doc,
    built "nepal_locations" (FromAdmin kaski) doc /\
    get (_source doc) "admin_level" = PInt 6 /\
    get (_source doc) "boost_score" = PFloat 1.8%float.
Proof.
  assert (Hin : FromAdmin kaski ∈ run_records db)
    by (vm_compute; repeat constructor).
  split; [exact Hin|].
  destruct (admin_doc_total "nepal_locations" kaski (connected db) [] eq_refl)
    as (doc & w' & E & _).
  assert (Hb : built "nepal_locations" (FromAdmin kaski) doc)
    by (exists (connected db), w'; exact E).
  exists doc. split; [exact Hb|].
  destruct (boundary_documents_have_synced_levels db "nepal_locations" kaski doc
              Hin Hb) as (l & Hl & _ & Hlevel & Hboost).
  injection Hl as <-. split; [exact Hlevel | exact Hboost].
Defined.

(** X15 at the place "Pokhara". *)
Lemma search_text_by_builder_witness :
  exists doc,
    built "nepal_locations" (FromPlaces pokhara) doc /\
    get (_source doc) "search_text" = PStr "Pokhara Kaski Gandaki".
Proof.
  destruct (place_doc_total "nepal_locations" pokhara [] eq_refl)
    as (doc & E & _).
  exists doc. split; [exact E|].
  exact (search_text_by_builder "nepal_locations" (FromPlaces pokhara) doc E).
Defined.

(** X17 at the POI "Phewa Lake". *)
Lemma location_by_builder_witness :
  exists doc,
    built "nepal_locations" (FromPoi phewa_lake) doc /\
    get (_source doc) "location"
    = PDict [("lat", PFloat 28.21%float); ("lon", PFloat 83.98%float)].
Proof.
  destruct (poi_doc_total "nepal_locations" phewa_lake [] eq_refl)
    as (doc & E & _).
  exists doc. split; [exact E|].
  exact (proj1 (location_by_builder "nepal_locations" (FromPoi phewa_lake) doc E)).
Defined.

(** ** Runs *)

(** X20 on the sample files: the Docker path holds "{}". *)
Lemma create_index_from_mapping_file_witness :
  w_files (fresh mapping_file db) !! "/app/mappings/nepal_locations.json"
  = Some "{}" /\
  json_loads "{}" = Some (PDict []) /\
  exists w',
    create_index (fresh mapping_file db) = (Ok tt, w') /\
    w_index w' = Some {| ix_mapping := PDict []; ix_docs := [] |} /\
    w_log w' = [(INFO, CreatedIndex)].
Proof.
  assert (Hfile : w_files (fresh mapping_file db)
                    !! "/app/mappings/nepal_locations.json" = Some "{}")
    by reflexivity.
  split; [exact Hfile|]. split; [reflexivity|].
  exact (proj1 (create_index_from_mapping_file (fresh mapping_file db) "{}"
                  (or_introl Hfile)) (PDict []) eq_refl).
Defined.

(** X21 on the sample store, out of reach. *)
Lemma unreachable_source_fails_the_run_witness :
  w_db_up unreachable = false /\
  exists w',
    sync_all unreachable = (Raise (SystemExit 1), w') /\
    w_index w' = None /\ w_extracted w' = [] /\ w_conn w' = None.
Proof.
  split; [reflexivity|].
  destruct (unreachable_source_fails_the_run unreachable eq_refl)
    as (w' & E & _ & Hix & Hex & Hconn).
  exists w'. split; [exact E|]. split; [exact Hix|]. split; [exact Hex|].
  exact Hconn.
Defined.

(** X22 before any connection is made. *)
Lemma pipelines_need_a_connection_witness :
  w_conn (fresh mapping_file db) <> Some ConnOpen /\
  sync_places (fresh mapping_file db)
  = (Raise AttributeError, fresh mapping_file db) /\
  sync_roads (fresh mapping_file db)
  = (Raise AttributeError, fresh mapping_file db).
Proof.
  assert (Hconn : w_conn (fresh mapping_file db) <> Some ConnOpen)
    by discriminate.
  split; [exact Hconn|].
  destruct (pipelines_need_a_connection (fresh mapping_file db) Hconn)
    as (e & He & Hp & _ & _ & Hr).
  injection He as <-. split; [exact Hp | exact Hr].
Defined.

(** X23 on a full run of the sample store. *)
Lemma connection_is_released_witness :
  sync_all (fresh mapping_file db)
  = (fst (sync_all (fresh mapping_file db)),
     snd (sync_all (fresh mapping_file db))) /\
  w_conn (snd (sync_all (fresh mapping_file db))) = Some ConnClosed.
Proof.
  assert (E : sync_all (fresh mapping_file db)
              = (fst (sync_all (fresh mapping_file db)),
                 snd (sync_all (fresh mapping_file db))))
    by apply surjective_pairing.
  split; [exact E|].
  exact (proj2 (connection_is_released (fresh mapping_file db) _ _ E) eq_refl).
Defined.

(** X24 on a run of the store whose first place stops its builder. *)
Lemma run_returns_or_exits_with_1_witness :
  sync_all (fresh mapping_file db_with_listed_place)
  = (fst (sync_all (fresh mapping_file db_with_listed_place)),
     snd (sync_all (fresh mapping_file db_with_listed_place))) /\
  fst (sync_all (fresh mapping_file db_with_listed_place))
  = Raise (SystemExit 1) /\
  exists e,
    last (w_log (snd (sync_all (fresh mapping_file db_with_listed_place))))
    = Some (ERROR, SyncFailed e).
Proof.
  assert (E : sync_all (fresh mapping_file db_with_listed_place)
              = (fst (sync_all (fresh mapping_file db_with_listed_place)),
                 snd (sync_all (fresh mapping_file db_with_listed_place))))
    by apply surjective_pairing.
  split; [exact E|].
  destruct (run_returns_or_exits_with_1
              (fresh mapping_file db_with_listed_place) _ _ E)
    as [[Hok _] | (Hexit & e & _ & Hlast)].
  - vm_compute in Hok. discriminate Hok.
  - split; [exact Hexit|]. exists e. exact Hlast.
Defined.

(** X25 at three places of which the sink refuses the second: the third
    is written all the same. *)
Lemma pipeline_tolerates_rejected_documents_witness :
  w_conn surveyed = Some ConnOpen /\
  mapping_of surveyed = Some (PDict []) /\
  exists docs success failed w',
    pipeline_of (H := checking) Places surveyed = (Ok success, w') /\
    _id <$> docs = [PStr "place_1"; PStr "place_5"; PStr "place_3"] /\
    accepted (H := checking) (PDict []) <$> docs = [true; false; true] /\
    _id <$> docs_of w' = [PStr "place_1"; PStr "place_3"] /\
    success = 2%nat /\ failed = 1%nat /\
    last (w_log w') = Some (INFO, Synced Places 2 1).
Proof.
  split; [reflexivity|]. split; [reflexivity|].
  assert (Hrecs : records_of (H := checking) Places (w_db surveyed)
                  = FromPlaces <$> surveyed_places)
    by (vm_compute; reflexivity).
  destruct (pipeline_tolerates_rejected_documents (H := checking)
              Places surveyed (PDict []) eq_refl eq_refl)
    as (docs & success & failed & w' & E & Hb & Hd & _ & Hs & Hn & Hlast).
  { intros r Hr. rewrite Hrecs in Hr. unfold surveyed_places in Hr.
    cbn [fmap list_fmap] in Hr.
    repeat (apply elem_of_cons in Hr as [-> | Hr]; [exists []; reflexivity|]).
    exact (False_ind _ (proj1 (elem_of_nil _) Hr)). }
  { rewrite Hrecs. vm_compute.
    repeat (constructor;
            [intros Hin;
             repeat (apply elem_of_cons in Hin as [Hin|Hin]; [discriminate Hin|]);
             exact (proj1 (elem_of_nil _) Hin)|]).
    constructor. }
  rewrite Hrecs in Hb, Hn.
  assert (Hids : _id <$> docs
                 = [PStr "place_1"; PStr "place_5"; PStr "place_3"]).
  { rewrite (built_ids _ _ _ Hb). vm_compute. reflexivity. }
  unfold surveyed_places in Hb. cbn [fmap list_fmap] in Hb.
  apply Forall2_cons_inv_l in Hb as (d1 & docs1 & Hb1 & Hb & ->).
  apply Forall2_cons_inv_l in Hb as (d2 & docs2 & Hb2 & Hb & ->).
  apply Forall2_cons_inv_l in Hb as (d3 & docs3 & Hb3 & Hb & ->).
  apply Forall2_nil_inv_l in Hb as ->.
  cbn [built] in Hb1, Hb2, Hb3.
  assert (A1 : accepted (H := checking) (PDict []) d1 = true).
  { apply (f_equal (on_ok (accepted (H := checking) (PDict [])))) in Hb1.
    vm_compute in Hb1. now injection Hb1. }
  assert (A2 : accepted (H := checking) (PDict []) d2 = false).
  { apply (f_equal (on_ok (accepted (H := checking) (PDict [])))) in Hb2.
    vm_compute in Hb2. now injection Hb2. }
  assert (A3 : accepted (H := checking) (PDict []) d3 = true).
  { apply (f_equal (on_ok (accepted (H := checking) (PDict [])))) in Hb3.
    vm_compute in Hb3. now injection Hb3. }
  cbn [List.filter] in Hd, Hs. rewrite A1, A2, A3 in Hd, Hs.
  change (docs_of surveyed) with (@nil document) in Hd. cbn [app] in Hd.
  cbn [length] in Hs. subst success.
  assert (Hfailed : failed = 1%nat) by (vm_compute in Hn; now injection Hn).
  subst failed. cbn [fmap list_fmap] in Hids. injection Hids as I1 I2 I3.
  exists [d1; d2; d3], 2%nat, 1%nat, w'. split; [exact E|].
  rewrite Hd. cbn [fmap list_fmap]. rewrite A1, A2, A3, I1, I2, I3.
  repeat split. exact Hlast.
Defined.

(** X26 on the sample store: nine records, nine documents. *)
Lemma complete_run_witness :
  w_db_up (fresh mapping_file db) = true /\
  mapping_file_content (fresh mapping_file db) = Some "{}" /\
  json_loads "{}" = Some (PDict []) /\
  exists w' docs,
    sync_all (fresh mapping_file db) = (Ok tt, w') /\
    Forall2 (built "nepal_locations") (run_records db) docs /\
    w_index w'
    = Some {| ix_mapping := PDict [];
              ix_docs := List.filter (accepted (PDict [])) docs |} /\
    w_conn w' = Some ConnClosed.
Proof.
  split; [reflexivity|]. split; [reflexivity|]. split; [reflexivity|].
  assert (Htags : Forall (fun r => exists d, parse_tags (record_tags r) = PDict d)
                    (run_records db)).
  { assert (Hrecs : run_records db
                    = [ FromPlaces pokhara; FromPlaces equator_camp;
                        FromAdmin gandaki; FromAdmin kaski; FromAdmin darchula;
                        FromAdmin pokhara_ward; FromAdmin kathmandu_ward_5;
                        FromPoi phewa_lake; FromRoads prithvi_highway ])
      by (vm_compute; reflexivity).
    rewrite Hrecs. repeat constructor; exists []; reflexivity. }
  assert (Hcentroids :
            Forall (fun a => forall c, ab_centroid a = Some c ->
                      is_Some (ST_GeomFromText (ST_AsText c)))
              (admin_boundaries db)).
  { unfold db. cbn [admin_boundaries].
    repeat constructor; intros c Hc; vm_compute in Hc;
      first [discriminate Hc | injection Hc as <-; vm_compute; eauto]. }
  destruct (complete_run (fresh mapping_file db) "{}" (PDict [])
              eq_refl eq_refl eq_refl)
    as (w' & docs & n1 & n2 & n3 & n4 & E & Hb & Hix & _ & _ & _ & Hconn).
  { intros r Hr. exact (proj1 (Forall_forall _ _) Htags r Hr). }
  { intros a c Ha. exact (proj1 (Forall_forall _ _) Hcentroids a Ha c). }
  exists w', docs. auto.
Defined.

(** X28 on a run that fails in its first pipeline: the index that held
    one document holds none. *)
Lemma run_past_setup_drops_the_old_index_witness :
  w_db_up stale = true /\
  mapping_file_content stale = Some "{}" /\
  json_loads "{}" = Some (PDict []) /\
  length (docs_of stale) = 1%nat /\
  fst (sync_all stale) = Raise (SystemExit 1) /\
  docs_of (snd (sync_all stale)) = [] /\
  exists records,
    records `sublist_of` run_records db_with_listed_place /\
    Forall2 (built "nepal_locations") records (docs_of (snd (sync_all stale))) /\
    (length (docs_of (snd (sync_all stale))) <= 6)%nat.
Proof.
  split; [reflexivity|]. split; [reflexivity|]. split; [reflexivity|].
  split; [reflexivity|]. split; [vm_compute; reflexivity|].
  split; [vm_compute; reflexivity|].
  exact (run_past_setup_drops_the_old_index stale
           (snd (sync_all stale)) (fst (sync_all stale)) "{}" (PDict [])
           eq_refl eq_refl eq_refl (surjective_pairing _)).
Defined.

